(** * Book-Store-Backend: the credential and session-token lifecycle

    A shallow embedding of the authentication core of the back end:
    [token.service.ts] (signing, persisting and verifying tokens),
    [auth.service.ts] (login, logout, refresh, password reset, e-mail
    verification) and the part of [user.service.ts] they call.

    The relational store behind [knex] is a pair of tables held as lists in
    row order, tied by the foreign key of the ledger ([tokens.user_id]
    references [users.id], ON DELETE CASCADE); every service function is a
    computation over a [World] (store, wall clock, schedule of store
    outages) that either returns a value or throws, and leaves the store as
    it was at the throw: nothing in the source opens a transaction. *)

From Stdlib Require Import ZArith List String Ascii Bool Lia.
Import ListNotations.
Local Open Scope string_scope.
Local Open Scope Z_scope.

Set Implicit Arguments.

(** ** Data model ([types/knex.d.ts] and the migrations) *)

Inductive TokenType := ACCESS | REFRESH | RESET_PASSWORD | VERIFY_EMAIL.

Inductive Role := USER | ADMIN.

Definition TokenType_eqb (a b : TokenType) : bool :=
  match a, b with
  | ACCESS, ACCESS | REFRESH, REFRESH
  | RESET_PASSWORD, RESET_PASSWORD | VERIFY_EMAIL, VERIFY_EMAIL => true
  | _, _ => false
  end.

(** A row of table [users].  Fields carry the prefix [u_]; dates are
    milliseconds since the epoch. *)
Record User := {
  u_id : Z;
  u_email : string;
  u_name : option string;
  u_password : string;
  u_role : Role;
  u_is_email_verified : bool;
  u_created_at : Z;
  u_updated_at : Z
}.

(** A row of table [tokens] (the ledger).  Fields carry the prefix [t_].
    The migration declares [id] as the incrementing primary key and puts no
    uniqueness constraint on [token]. *)
Record Token := {
  t_id : Z;
  t_token : string;
  t_type : TokenType;
  t_expires : Z;
  t_blacklisted : bool;
  t_created_at : Z;
  t_user_id : Z
}.

(** [Partial<User>] as passed to [update]: an absent field is [None]. *)
Record PartialUser := {
  upd_email : option string;
  upd_name : option (option string);
  upd_password : option string;
  upd_role : option Role;
  upd_is_email_verified : option bool
}.

(** What [exclude(user, ['password'])] leaves of a user. *)
Record UserWithoutPassword := {
  wp_id : Z;
  wp_email : string;
  wp_name : option string;
  wp_role : Role;
  wp_is_email_verified : bool;
  wp_created_at : Z;
  wp_updated_at : Z
}.

(** [AuthTokensResponse] *)
Record TokenResponse := { token : string; expires : Z }.
Record AuthTokensResponse := { access : TokenResponse; refresh : TokenResponse }.

(** The claim set [generateToken] signs. *)
Record Payload := { sub : Z; iat : Z; exp : Z; type : TokenType }.

(** [config.jwt] *)
Record Config := {
  jwt_secret : string;
  accessExpirationMinutes : Z;
  refreshExpirationDays : Z;
  resetPasswordExpirationMinutes : Z;
  verifyEmailExpirationMinutes : Z
}.

(** ** Errors *)

Inductive Error :=
| ApiError (statusCode : Z) (message : string)
| PlainError (message : string)          (* [new Error(...)] *)
| TokenExpiredError                      (* jsonwebtoken: 'jwt expired' *)
| JsonWebTokenError                      (* jsonwebtoken: bad signature, malformed *)
| StoreError                             (* the store could not be reached *)
| ForeignKeyError.                       (* the store refused a row: its user_id is no user's id *)

Definition UNAUTHORIZED : Z := 401.
Definition NOT_FOUND : Z := 404.
Definition BAD_REQUEST : Z := 400.

(** The names the specification gives to the errors of the authenticator. *)
Definition InvalidCredentials : Error := ApiError UNAUTHORIZED "Incorrect email or password".
Definition Unauthenticated : Error := ApiError UNAUTHORIZED "Please authenticate".
Definition ResetFailed : Error := ApiError UNAUTHORIZED "Password reset failed".
Definition VerificationFailed : Error := ApiError UNAUTHORIZED "Email verification failed".
Definition LogoutNotFound : Error := ApiError NOT_FOUND "Not found".
Definition NoUserWithEmail : Error := ApiError NOT_FOUND "No users found with this email".
Definition UserNotFound : Error := ApiError NOT_FOUND "User not found".
Definition EmailTaken : Error := ApiError BAD_REQUEST "Email already taken".

Inductive Result (A : Type) :=
| Ok (a : A)
| Throw (e : Error).
Arguments Ok {A} a.
Arguments Throw {A} e.

(** ** The world and the monad of service functions *)

(** The migration of [tokens] declares [user_id] as a foreign key to
    [users.id]: every row of the ledger belongs to a user of the store.  A
    store is the two tables together with that key, so a ledger row without
    an owner is no state of the store. *)
Definition owned (us : list User) (r : Token) : bool :=
  existsb (fun u => u_id u =? t_user_id r) us.

Definition foreign_key (us : list User) (ts : list Token) : bool :=
  forallb (owned us) ts.

Record Db := {
  users : list User;
  tokens : list Token;
  tokens_seq : Z;           (* next value of the [tokens.id] sequence *)
  tokens_user_id : foreign_key users tokens = true
}.

(** The store with these tables, when they satisfy the key; [otherwise] in
    the other case, which none of the statements below produces. *)
Definition store_checked (us : list User) (ts : list Token) (i : Z) (otherwise : Db)
    (b : bool) : foreign_key us ts = b -> Db :=
  match b as b0 return foreign_key us ts = b0 -> Db with
  | true => fun E => {| users := us; tokens := ts; tokens_seq := i; tokens_user_id := E |}
  | false => fun _ => otherwise
  end.

Definition store (us : list User) (ts : list Token) (i : Z) (otherwise : Db) : Db :=
  @store_checked us ts i otherwise (foreign_key us ts) eq_refl.

Definition no_rows : Db :=
  {| users := []; tokens := []; tokens_seq := 1; tokens_user_id := eq_refl |}.

(** [now] is the wall clock in milliseconds; it stands still while one
    service function runs and is moved by the caller between calls.
    [outages] schedules store failures: each query consumes the head, and a
    [true] head makes that query throw; an exhausted schedule means the store
    answers. *)
Record World := {
  db : Db;
  now : Z;
  outages : list bool
}.

Definition M (A : Type) : Type := World -> Result A * World.

Definition ret {A} (a : A) : M A := fun w => (Ok a, w).

Definition throw {A} (e : Error) : M A := fun w => (Throw e, w).

Definition bind {A B} (m : M A) (k : A -> M B) : M B :=
  fun w => match m w with
           | (Ok a, w') => k a w'
           | (Throw e, w') => (Throw e, w')
           end.

(** [try { m } catch (error) { h error }] with every promise in [m] awaited. *)
Definition try_catch {A} (m : M A) (h : Error -> M A) : M A :=
  fun w => match m w with
           | (Ok a, w') => (Ok a, w')
           | (Throw e, w') => h e w'
           end.

Notation "x <- m ;; k" := (bind m (fun x => k))
  (at level 61, m at next level, right associativity).
Notation "m ;;; k" := (bind m (fun _ => k))
  (at level 61, right associativity).

(** What a statement of the store answered: its rows, or the error it threw. *)
Definition returning {A} (r : Result A) : M A :=
  match r with
  | Ok a => ret a
  | Throw e => throw e
  end.

(** [moment()] / [Date.now()] *)
Definition moment : M Z := fun w => (Ok (now w), w).

(** One round trip to the store. *)
Definition query {A} (f : Db -> A * Db) : M A :=
  fun w =>
    match outages w with
    | true :: rest => (Throw StoreError, {| db := db w; now := now w; outages := rest |})
    | false :: rest =>
        let (a, d) := f (db w) in (Ok a, {| db := d; now := now w; outages := rest |})
    | [] =>
        let (a, d) := f (db w) in (Ok a, {| db := d; now := now w; outages := [] |})
    end.

(** ** Time ([moment]) *)

Definition unix (m : Z) : Z := m / 1000.              (* [.unix()]: floor of ms / 1000 *)
Definition add_minutes (m n : Z) : Z := m + n * 60000.
Definition add_days (m n : Z) : Z := m + n * 86400000. (* days of 24 hours, as in UTC *)

(** ** Queries the services issue *)

Definition set_tokens (d : Db) (ts : list Token) : Db :=
  store (users d) ts (tokens_seq d) d.

Definition set_users (d : Db) (us : list User) : Db :=
  store us (tokens d) (tokens_seq d) d.

(** Some user has this id. *)
Definition has_user (userId : Z) (d : Db) : bool :=
  existsb (fun u => u_id u =? userId) (users d).

(** [knex('tokens').where(p).first()] *)
Definition tokens_first (p : Token -> bool) (d : Db) : option Token * Db :=
  (find p (tokens d), d).

(** [knex('tokens').where(p).del()] *)
Definition tokens_del (p : Token -> bool) (d : Db) : unit * Db :=
  (tt, set_tokens d (filter (fun r => negb (p r)) (tokens d))).

(** [knex('tokens').insert({...}).returning('*')]: the sequence gives the id,
    the column default gives [created_at].  The foreign key refuses a row
    whose [user_id] is no user's id: the statement throws and the table
    stays as it was; the value taken from the sequence is not given back. *)
Definition tokens_insert (tok : string) (userId expiresAt : Z) (ty : TokenType)
    (blacklisted : bool) (createdAt : Z) (d : Db) : Result Token * Db :=
  let row := {| t_id := tokens_seq d; t_token := tok; t_type := ty;
                t_expires := expiresAt; t_blacklisted := blacklisted;
                t_created_at := createdAt; t_user_id := userId |} in
  if has_user userId d
  then (Ok row, store (users d) (tokens d ++ [row]) (tokens_seq d + 1) d)
  else (Throw ForeignKeyError, store (users d) (tokens d) (tokens_seq d + 1) d).

(** [knex('users').where(p).select(keys).first()] *)
Definition users_first (p : User -> bool) (d : Db) : option User * Db :=
  (find p (users d), d).

Definition or_else {A} (o : option A) (a : A) : A :=
  match o with Some x => x | None => a end.

Definition apply_update (b : PartialUser) (u : User) : User :=
  {| u_id := u_id u;
     u_email := or_else (upd_email b) (u_email u);
     u_name := or_else (upd_name b) (u_name u);
     u_password := or_else (upd_password b) (u_password u);
     u_role := or_else (upd_role b) (u_role u);
     u_is_email_verified := or_else (upd_is_email_verified b) (u_is_email_verified u);
     u_created_at := u_created_at u;
     u_updated_at := u_updated_at u |}.

(** The update bodies [{ password: h }] and [{ is_email_verified: b }]. *)
Definition only_password (h : string) : PartialUser :=
  {| upd_email := None; upd_name := None; upd_password := Some h;
     upd_role := None; upd_is_email_verified := None |}.

Definition only_is_email_verified (b : bool) : PartialUser :=
  {| upd_email := None; upd_name := None; upd_password := None;
     upd_role := None; upd_is_email_verified := Some b |}.

(** [knex('users').where({ id }).update(body).returning(keys)], first row *)
Definition users_update (userId : Z) (b : PartialUser) (d : Db) : option User * Db :=
  let us := map (fun u => if u_id u =? userId then apply_update b u else u) (users d) in
  (find (fun u => u_id u =? userId) us, set_users d us).

(** The predicates of the [where] clauses. *)
Definition where_token_type_blacklisted (tok : string) (ty : TokenType) (r : Token) : bool :=
  (t_token r =? tok)%string && TokenType_eqb (t_type r) ty && negb (t_blacklisted r).

Definition where_token_type_user_blacklisted (tok : string) (ty : TokenType) (userId : Z)
    (r : Token) : bool :=
  (t_token r =? tok)%string && TokenType_eqb (t_type r) ty && (t_user_id r =? userId)
  && negb (t_blacklisted r).

Definition where_id (i : Z) (r : Token) : bool := t_id r =? i.

Definition where_user_type (userId : Z) (ty : TokenType) (r : Token) : bool :=
  (t_user_id r =? userId) && TokenType_eqb (t_type r) ty.

(** ** Collaborators outside the source tree *)

(** The [jsonwebtoken] package, by its contract.  [jwt_parse] reads the claim
    set of a compact token without looking at the signature, [jwt_signed]
    checks the signature under a key.  Signing is a function of the claim set
    and the key (HS256 without [jti]), and what it produces parses back and
    carries a good signature. *)
Class JwtLib := {
  jwt_sign : Payload -> string -> string;
  jwt_parse : string -> option Payload;
  jwt_signed : string -> string -> bool;
  jwt_parse_sign : forall p k, jwt_parse (jwt_sign p k) = Some p;
  jwt_signed_sign : forall p k, jwt_signed (jwt_sign p k) k = true
}.

(** Modelled from the spec: [utils/encryption] is not in the source tree; the
    hashing primitive is [hash(plaintext) -> digest] and
    [compare(plaintext, digest) -> bool], and a digest compares equal to the
    plaintext it was made from. *)
Class Encryption := {
  encryptPassword : string -> string;
  isPasswordMatch : string -> string -> bool;
  isPasswordMatch_encrypt : forall p, isPasswordMatch p (encryptPassword p) = true
}.

(** Modelled from the spec: [utils/exclude] is not in the source tree; login
    "returns the user record with password field stripped". *)
Definition exclude_password (u : User) : UserWithoutPassword :=
  {| wp_id := u_id u; wp_email := u_email u; wp_name := u_name u; wp_role := u_role u;
     wp_is_email_verified := u_is_email_verified u;
     wp_created_at := u_created_at u; wp_updated_at := u_updated_at u |}.

(** ** The services *)

Section Services.

Context {jwt : JwtLib} {enc : Encryption}.
Variable config : Config.

(** [jwt.verify(token, secret)]: parse, check the signature, then compare the
    clock, in whole seconds, with the [exp] claim; the token is expired as
    soon as the clock reaches [exp]. *)
Definition jwt_verify (tok secret : string) : M Payload :=
  fun w =>
    match jwt_parse tok with
    | None => (Throw JsonWebTokenError, w)
    | Some p =>
        if jwt_signed tok secret then
          if unix (now w) >=? exp p then (Throw TokenExpiredError, w) else (Ok p, w)
        else (Throw JsonWebTokenError, w)
    end.

(** *** token.service.ts *)

Definition generateToken (userId expiresAt : Z) (ty : TokenType) (secret : string)
    : M string :=
  n <- moment ;;
  let payload := {| sub := userId; iat := unix n; exp := unix expiresAt; type := ty |} in
  ret (jwt_sign payload secret).

Definition saveToken (tok : string) (userId expiresAt : Z) (ty : TokenType)
    (blacklisted : bool) : M Token :=
  fun w =>
    (inserted <- query (tokens_insert tok userId expiresAt ty blacklisted (now w)) ;;
     returning inserted) w.

Definition verifyToken (tok : string) (ty : TokenType) : M Token :=
  payload <- jwt_verify tok (jwt_secret config) ;;
  let userId := sub payload in
  tokenData <- query (tokens_first (where_token_type_user_blacklisted tok ty userId)) ;;
  match tokenData with
  | None => throw (PlainError "Token not found")
  | Some r => ret r
  end.

Definition generateAuthTokens (userId : Z) : M AuthTokensResponse :=
  n1 <- moment ;;
  let accessTokenExpires := add_minutes n1 (accessExpirationMinutes config) in
  accessToken <- generateToken userId accessTokenExpires ACCESS (jwt_secret config) ;;
  n2 <- moment ;;
  let refreshTokenExpires := add_days n2 (refreshExpirationDays config) in
  refreshToken <- generateToken userId refreshTokenExpires REFRESH (jwt_secret config) ;;
  saveToken refreshToken userId refreshTokenExpires REFRESH false ;;;
  ret {| access := {| token := accessToken; expires := accessTokenExpires |};
         refresh := {| token := refreshToken; expires := refreshTokenExpires |} |}.

(** *** user.service.ts *)

Definition getUserById (i : Z) : M (option User) :=
  query (users_first (fun u => u_id u =? i)).

Definition getUserByEmail (email : string) : M (option User) :=
  query (users_first (fun u => (u_email u =? email)%string)).

(** [updateBody.email && (await getUserByEmail(updateBody.email))]: the
    lookup runs only for a present, non-empty e-mail. *)
Definition updateUserById (userId : Z) (updateBody : PartialUser) : M (option User) :=
  user <- getUserById userId ;;
  match user with
  | None => throw UserNotFound
  | Some _ =>
      taken <- match upd_email updateBody with
               | Some e => if (e =? EmptyString)%string then ret None else getUserByEmail e
               | None => ret None
               end ;;
      match taken with
      | Some _ => throw EmailTaken
      | None => query (users_update userId updateBody)
      end
  end.

(** *** token.service.ts, continued *)

Definition generateResetPasswordToken (email : string) : M string :=
  user <- getUserByEmail email ;;
  match user with
  | None => throw NoUserWithEmail
  | Some user =>
      n <- moment ;;
      let expiresAt := add_minutes n (resetPasswordExpirationMinutes config) in
      resetPasswordToken <-
        generateToken (u_id user) expiresAt RESET_PASSWORD (jwt_secret config) ;;
      saveToken resetPasswordToken (u_id user) expiresAt RESET_PASSWORD false ;;;
      ret resetPasswordToken
  end.

Definition generateVerifyEmailToken (userId : Z) : M string :=
  n <- moment ;;
  let expiresAt := add_minutes n (verifyEmailExpirationMinutes config) in
  verifyEmailToken <- generateToken userId expiresAt VERIFY_EMAIL (jwt_secret config) ;;
  saveToken verifyEmailToken userId expiresAt VERIFY_EMAIL false ;;;
  ret verifyEmailToken.

(** *** auth.service.ts *)

Definition loginUserWithEmailAndPassword (email password : string)
    : M UserWithoutPassword :=
  user <- getUserByEmail email ;;
  match user with
  | None => throw InvalidCredentials
  | Some user =>
      if negb (isPasswordMatch password (u_password user))
      then throw InvalidCredentials
      else ret (exclude_password user)
  end.

Definition logout (refreshToken : string) : M unit :=
  refreshTokenData <- query (tokens_first (where_token_type_blacklisted refreshToken REFRESH)) ;;
  match refreshTokenData with
  | None => throw LogoutNotFound
  | Some r => query (tokens_del (where_id (t_id r)))
  end.

(** The [try] block of [refreshAuth] awaits the verification and the delete
    and then leaves with [return tokenService.generateAuthTokens(...)], a
    promise it does not await: a rejection of that promise passes the
    [catch] by.  So the handler covers the first two steps only. *)
Definition refreshAuth (refreshToken : string) : M AuthTokensResponse :=
  user_id <- try_catch
               (refreshTokenData <- verifyToken refreshToken REFRESH ;;
                query (tokens_del (where_id (t_id refreshTokenData))) ;;;
                ret (t_user_id refreshTokenData))
               (fun _ => throw Unauthenticated) ;;
  generateAuthTokens user_id.

Definition resetPassword (resetPasswordToken newPassword : string) : M unit :=
  try_catch
    (resetPasswordTokenData <- verifyToken resetPasswordToken RESET_PASSWORD ;;
     user <- getUserById (t_user_id resetPasswordTokenData) ;;
     match user with
     | None => throw (PlainError EmptyString)
     | Some user =>
         let encryptedPassword := encryptPassword newPassword in
         updateUserById (u_id user) (only_password encryptedPassword) ;;;
         query (tokens_del (where_user_type (u_id user) RESET_PASSWORD))
     end)
    (fun _ => throw ResetFailed).

Definition verifyEmail (verifyEmailToken : string) : M unit :=
  try_catch
    (verifyEmailTokenData <- verifyToken verifyEmailToken VERIFY_EMAIL ;;
     query (tokens_del (where_user_type (t_user_id verifyEmailTokenData) VERIFY_EMAIL)) ;;;
     updateUserById (t_user_id verifyEmailTokenData) (only_is_email_verified true) ;;;
     ret tt)
    (fun _ => throw VerificationFailed).

(** What [generateAuthTokens] returns at clock [n] for user [userId], and the
    row it persists when the sequence stands at [i]. *)
Definition minted_access (userId n : Z) : TokenResponse :=
  {| token := jwt_sign {| sub := userId; iat := unix n;
                          exp := unix (add_minutes n (accessExpirationMinutes config));
                          type := ACCESS |} (jwt_secret config);
     expires := add_minutes n (accessExpirationMinutes config) |}.

Definition minted_refresh (userId n : Z) : TokenResponse :=
  {| token := jwt_sign {| sub := userId; iat := unix n;
                          exp := unix (add_days n (refreshExpirationDays config));
                          type := REFRESH |} (jwt_secret config);
     expires := add_days n (refreshExpirationDays config) |}.

Definition minted_pair (userId n : Z) : AuthTokensResponse :=
  {| access := minted_access userId n; refresh := minted_refresh userId n |}.

Definition refresh_row (userId n i : Z) : Token :=
  {| t_id := i; t_token := token (minted_refresh userId n); t_type := REFRESH;
     t_expires := expires (minted_refresh userId n); t_blacklisted := false;
     t_created_at := n; t_user_id := userId |}.

End Services.

(** ** A reference instance of the collaborators

    A small codec and hash that meet the contracts above, to run the
    services on concrete worlds.  A token is the claim set written field by
    field in a self-delimiting binary notation, followed by the key as its
    signature. *)

Module Reference.

Fixpoint enc_pos (p : positive) : string :=
  match p with
  | xI q => String "1" (enc_pos q)
  | xO q => String "0" (enc_pos q)
  | xH => String "." EmptyString
  end.

Fixpoint dec_pos (s : string) : option (positive * string) :=
  match s with
  | EmptyString => None
  | String c r =>
      if (c =? ".")%char then Some (xH, r)
      else if (c =? "1")%char then
        match dec_pos r with Some (q, r') => Some (xI q, r') | None => None end
      else if (c =? "0")%char then
        match dec_pos r with Some (q, r') => Some (xO q, r') | None => None end
      else None
  end.

Definition enc_Z (z : Z) : string :=
  match z with
  | Z0 => "z"
  | Zpos p => String "p" (enc_pos p)
  | Zneg p => String "n" (enc_pos p)
  end.

Definition dec_Z (s : string) : option (Z * string) :=
  match s with
  | EmptyString => None
  | String c r =>
      if (c =? "z")%char then Some (0, r)
      else if (c =? "p")%char then
        match dec_pos r with Some (q, r') => Some (Zpos q, r') | None => None end
      else if (c =? "n")%char then
        match dec_pos r with Some (q, r') => Some (Zneg q, r') | None => None end
      else None
  end.

Definition enc_type (ty : TokenType) : string :=
  match ty with
  | ACCESS => "A" | REFRESH => "R" | RESET_PASSWORD => "P" | VERIFY_EMAIL => "V"
  end.

Definition dec_type (s : string) : option (TokenType * string) :=
  match s with
  | EmptyString => None
  | String c r =>
      if (c =? "A")%char then Some (ACCESS, r)
      else if (c =? "R")%char then Some (REFRESH, r)
      else if (c =? "P")%char then Some (RESET_PASSWORD, r)
      else if (c =? "V")%char then Some (VERIFY_EMAIL, r)
      else None
  end.

Definition sign (p : Payload) (key : string) : string :=
  enc_Z (sub p) ++ enc_Z (iat p) ++ enc_Z (exp p) ++ enc_type (type p) ++ key.

(** The claim set and what follows it. *)
Definition split (tok : string) : option (Payload * string) :=
  match dec_Z tok with
  | Some (s, r1) =>
      match dec_Z r1 with
      | Some (i, r2) =>
          match dec_Z r2 with
          | Some (e, r3) =>
              match dec_type r3 with
              | Some (ty, r4) => Some ({| sub := s; iat := i; exp := e; type := ty |}, r4)
              | None => None
              end
          | None => None
          end
      | None => None
      end
  | None => None
  end.

Definition parse (tok : string) : option Payload :=
  match split tok with Some (p, _) => Some p | None => None end.

Definition signed (tok key : string) : bool :=
  match split tok with Some (_, sig) => (sig =? key)%string | None => false end.

Definition hash (plain : string) : string := "$2a$" ++ plain.

Definition compare (plain digest : string) : bool := (digest =? hash plain)%string.

End Reference.

(** The reference codec and hash meet the contracts. *)
#[export] Instance reference_jwt : JwtLib.
Proof.
  assert (Hpos : forall p r, Reference.dec_pos (Reference.enc_pos p ++ r) = Some (p, r)).
  { induction p as [q IH | q IH | ]; intro r; simpl;
      [now rewrite IH | now rewrite IH | reflexivity]. }
  assert (HZ : forall z r, Reference.dec_Z (Reference.enc_Z z ++ r) = Some (z, r)).
  { intros [ | p | p] r; simpl; try reflexivity; now rewrite Hpos. }
  assert (Hty : forall ty r, Reference.dec_type (Reference.enc_type ty ++ r) = Some (ty, r)).
  { intros [] r; reflexivity. }
  assert (Hsplit : forall p k, Reference.split (Reference.sign p k) = Some (p, k)).
  { intros [s i e ty] k. unfold Reference.split, Reference.sign.
    simpl sub; simpl iat; simpl exp; simpl type.
    rewrite HZ, HZ, HZ, Hty. reflexivity. }
  refine {| jwt_sign := Reference.sign; jwt_parse := Reference.parse;
            jwt_signed := Reference.signed |}.
  - intros p k. unfold Reference.parse. now rewrite Hsplit.
  - intros p k. unfold Reference.signed. rewrite Hsplit. apply String.eqb_refl.
Defined.

#[export] Instance reference_encryption : Encryption.
Proof.
  refine {| encryptPassword := Reference.hash; isPasswordMatch := Reference.compare |}.
  intro p. unfold Reference.compare. apply String.eqb_refl.
Defined.

(** ** Concrete worlds

    One user, Alice, with id 1; the clock of her login is [t0]. *)

Module Scenario.

Definition config : Config :=
  {| jwt_secret := "top-secret";
     accessExpirationMinutes := 30;
     refreshExpirationDays := 30;
     resetPasswordExpirationMinutes := 10;
     verifyEmailExpirationMinutes := 10 |}.

Definition t0 : Z := 1720000000000.

Definition alice : User :=
  {| u_id := 1; u_email := "a@x.com"; u_name := Some "Alice";
     u_password := encryptPassword "secret123"; u_role := USER;
     u_is_email_verified := false;
     u_created_at := 1719000000000; u_updated_at := 1719000000000 |}.

Definition world (us : list User) (ts : list Token) (i n : Z) (o : list bool) : World :=
  {| db := store us ts i no_rows; now := n; outages := o |}.

(** Before any token is issued. *)
Definition fresh : World := world [alice] [] 1 t0 [].

(** The refresh token of a login at [t0]. *)
Definition issued : string := token (minted_refresh config 1 t0).

(** After that login, 400 ms later: still the second of the login. *)
Definition after_login : World := world [alice] [refresh_row config 1 t0 1] 2 (t0 + 400) [].

(** After that login, one minute later. *)
Definition a_minute_after_login : World :=
  world [alice] [refresh_row config 1 t0 1] 2 (t0 + 60000) [].

(** After two logins of Alice within one second, at [t0] and 300 ms later:
    both ledger rows carry the same token string. *)
Definition after_two_logins : World :=
  world [alice] [refresh_row config 1 t0 1; refresh_row config 1 (t0 + 300) 2] 3
    (t0 + 5000) [].

(** Two reset tokens for Alice, requested at [t0] and a minute later. *)
Definition reset_token (n : Z) : string :=
  jwt_sign {| sub := 1; iat := unix n;
              exp := unix (add_minutes n (resetPasswordExpirationMinutes config));
              type := RESET_PASSWORD |} (jwt_secret config).

Definition reset_row (n i : Z) : Token :=
  {| t_id := i; t_token := reset_token n; t_type := RESET_PASSWORD;
     t_expires := add_minutes n (resetPasswordExpirationMinutes config);
     t_blacklisted := false; t_created_at := n; t_user_id := 1 |}.

Definition two_resets_pending (o : list bool) : World :=
  world [alice] [reset_row t0 1; reset_row (t0 + 60000) 2] 3 (t0 + 120000) o.

(** The token of an e-mail verification requested at [n]. *)
Definition verify_email_token (n : Z) : string :=
  jwt_sign {| sub := 1; iat := unix n;
              exp := unix (add_minutes n (verifyEmailExpirationMinutes config));
              type := VERIFY_EMAIL |} (jwt_secret config).

Definition verify_email_row (n i : Z) : Token :=
  {| t_id := i; t_token := verify_email_token n; t_type := VERIFY_EMAIL;
     t_expires := add_minutes n (verifyEmailExpirationMinutes config);
     t_blacklisted := false; t_created_at := n; t_user_id := 1 |}.

(** The refresh token of the login at [t0], stored under the type
    RESET_PASSWORD, as [saveToken] does when it is called with that type. *)
Definition mistyped_row : Token :=
  {| t_id := 1; t_token := issued; t_type := RESET_PASSWORD;
     t_expires := add_days t0 (refreshExpirationDays config);
     t_blacklisted := false; t_created_at := t0; t_user_id := 1 |}.

Definition mistyped : World := world [alice] [mistyped_row] 2 (t0 + 400) [].

(** Alice a minute after [t0], with a session, a password reset and an
    e-mail verification pending, all three of [t0]. *)
Definition all_pending (o : list bool) : World :=
  world [alice] [refresh_row config 1 t0 1; reset_row t0 2; verify_email_row t0 3] 4
    (t0 + 60000) o.

End Scenario.

(** ** The rest of the services

    The functions of [user.service.ts] and [token.service.ts] the
    authenticator does not call itself, the passport strategy that reads the
    access token, and the password rule of the request validation. *)

(** [knex('users').insert({ email, name, password, role }).returning('*')].
    The store of this embedding keeps no sequence for [users.id]: the value
    the sequence hands out is the argument [newId].  The columns left out
    take their defaults: [is_email_verified] false, both timestamps now. *)
Definition users_insert (newId : Z) (email : string) (name : option string)
    (passwordHash : string) (role : Role) (createdAt : Z) (d : Db) : User * Db :=
  let u := {| u_id := newId; u_email := email; u_name := name;
              u_password := passwordHash; u_role := role;
              u_is_email_verified := false;
              u_created_at := createdAt; u_updated_at := createdAt |} in
  (u, set_users d (users d ++ [u])).

(** [knex('users').where({ id }).del()].  The migration declares
    [tokens.user_id] as a foreign key to [users.id] with ON DELETE CASCADE:
    the rows of the ledger that belong to a deleted user go with it. *)
Definition users_del (i : Z) (d : Db) : unit * Db :=
  (tt, store (filter (fun u => negb (u_id u =? i)) (users d))
             (filter (fun r => negb (t_user_id r =? i)) (tokens d))
             (tokens_seq d) d).

(** What the passport strategy hands to [done]. *)
Record AuthUser := { au_id : Z; au_email : string; au_role : Role }.

Inductive Done :=
| DoneError (e : Error)        (* [done(error, false)] *)
| DoneFalse                    (* [done(null, false)] *)
| DoneUser (u : AuthUser).     (* [done(null, user)] *)

Section MoreServices.

Context {jwt : JwtLib} {enc : Encryption}.
Variable config : Config.

(** *** user.service.ts *)

(** [role: Role = Role.USER]: an absent role is USER; an absent name is
    stored as NULL. *)
Definition createUser (newId : Z) (email password : string) (name : option string)
    (role : option Role) : M User :=
  existing <- getUserByEmail email ;;
  match existing with
  | Some _ => throw EmailTaken
  | None =>
      let encrypted := encryptPassword password in
      fun w => query (users_insert newId email name encrypted (or_else role USER) (now w)) w
  end.

Definition deleteUserById (userId : Z) : M User :=
  user <- getUserById userId ;;
  match user with
  | None => throw UserNotFound
  | Some user => query (users_del (u_id user)) ;;; ret user
  end.

(** *** config/passport.ts *)

(** [jwtVerify(payload, done)]: the callback the strategy runs on the claim
    set of a token that [jwt.verify] accepted.  Everything it does is inside
    [try]; the handler reports the error through [done]. *)
Definition jwtVerify (payload : Payload) : M Done :=
  try_catch
    (if negb (TokenType_eqb (type payload) ACCESS)
     then throw (PlainError "Invalid token type")
     else
       user <- query (users_first (fun u => u_id u =? sub payload)) ;;
       match user with
       | None => ret DoneFalse
       | Some u =>
           ret (DoneUser {| au_id := u_id u; au_email := u_email u; au_role := u_role u |})
       end)
    (fun error => ret (DoneError error)).

End MoreServices.

(** *** The custom validator of passwords (request validation) *)

Module Validation.

(** What the custom validator returns: the value, or [helpers.error(code)].
    A string is its sequence of code units, here below 256. *)
Inductive Outcome :=
| Value (v : string)
| HelperError (code : string).

(** [/\d/] and [/[a-zA-Z]/] on one code unit *)
Definition is_digit (c : ascii) : bool :=
  ((48 <=? nat_of_ascii c) && (nat_of_ascii c <=? 57))%nat.

Definition is_letter (c : ascii) : bool :=
  (((65 <=? nat_of_ascii c) && (nat_of_ascii c <=? 90)) ||
   ((97 <=? nat_of_ascii c) && (nat_of_ascii c <=? 122)))%nat.

(** [value.match(re)] is not null, for a one-character class [re] *)
Fixpoint matches (class : ascii -> bool) (value : string) : bool :=
  match value with
  | EmptyString => false
  | String c rest => class c || matches class rest
  end.

Definition password (value : string) : Outcome :=
  if (String.length value <? 8)%nat
  then HelperError "password must be at least 8 characters"
  else if negb (matches is_digit value) || negb (matches is_letter value)
  then HelperError "password must contain at least 1 letter and 1 number"
  else Value value.

End Validation.

(** ** Invariants of the ledger *)

Section Invariants.

Context {jwt : JwtLib}.

(** A row as the issuing functions write it: not blacklisted, not of type
    ACCESS, and carrying a token whose claim set names the owner, the type
    and, in whole seconds, the expiry of the row. *)
Definition row_well_formed (r : Token) : Prop :=
  t_blacklisted r = false /\
  t_type r <> ACCESS /\
  exists p, jwt_parse (t_token r) = Some p /\
            sub p = t_user_id r /\ type p = t_type r /\ exp p = unix (t_expires r).

Definition ledger_well_formed (d : Db) : Prop :=
  forall r, In r (tokens d) -> row_well_formed r.

End Invariants.

(** The ids of the ledger are pairwise different and below the sequence. *)
Definition ledger_ids_fresh (d : Db) : Prop :=
  NoDup (map t_id (tokens d)) /\ forall r, In r (tokens d) -> t_id r < tokens_seq d.

(** A table operation that leaves the ledger as it is or deletes rows from
    it, and does not move the sequence. *)
Definition only_deletes {A} (f : Db -> A * Db) : Prop :=
  forall d, tokens_seq (snd (f d)) = tokens_seq d /\
            exists p, tokens (snd (f d)) = filter p (tokens d).

(** [m] keeps the property [I] of the store, whatever it returns. *)
Definition preserves {A} (I : Db -> Prop) (m : M A) : Prop :=
  forall w, I (db w) -> I (db (snd (m w))).

(** [m] returns only after [k] round trips to the store that all went
    through: the first [k] entries of the outage schedule hold no failure,
    and they are used up. *)
Definition uses {A} (k : nat) (m : M A) : Prop :=
  forall w a w',
    m w = (Ok a, w') ->
    existsb (fun b => b) (firstn k (outages w)) = false /\
    outages w' = skipn k (outages w).

(** [m] never writes. *)
Definition read_only {A} (m : M A) : Prop :=
  forall w, db (snd (m w)) = db w.

(** The world the caller sees when it comes back at clock [c] to a store
    with outage schedule [o]. *)
Definition later (w : World) (c : Z) (o : list bool) : World :=
  {| db := db w; now := c; outages := o |}.

Section EveryService.

Context {jwt : JwtLib} {enc : Encryption}.
Variable config : Config.

(** [I] is kept by every function of the three services and by the passport
    callback, for all their arguments. *)
Definition kept_by_every_service (I : Db -> Prop) : Prop :=
  (forall uid, preserves I (generateAuthTokens config uid)) /\
  (forall email, preserves I (generateResetPasswordToken config email)) /\
  (forall uid, preserves I (generateVerifyEmailToken config uid)) /\
  (forall tok ty, preserves I (verifyToken config tok ty)) /\
  (forall email pw, preserves I (loginUserWithEmailAndPassword email pw)) /\
  (forall t, preserves I (logout t)) /\
  (forall t, preserves I (refreshAuth config t)) /\
  (forall t pw, preserves I (resetPassword config t pw)) /\
  (forall t, preserves I (verifyEmail config t)) /\
  (forall i email pw nm role, preserves I (createUser i email pw nm role)) /\
  (forall i b, preserves I (updateUserById i b)) /\
  (forall i, preserves I (deleteUserById i)) /\
  (forall p, preserves I (jwtVerify p)).

End EveryService.

(** * Properties *)

(** ** Generic facts *)

Lemma TokenType_eqb_eq : forall a b, TokenType_eqb a b = true <-> a = b.
Proof. intros [] []; simpl; split; congruence. Qed.

Lemma find_none_iff : forall (A : Type) (f : A -> bool) (l : list A),
  find f l = None <-> (forall x, In x l -> f x = false).
Proof.
  intros A f l; split.
  - intros H x Hx. exact (find_none f l H x Hx).
  - induction l as [ | a l IH]; intro H; simpl; [reflexivity | ].
    rewrite (H a (or_introl eq_refl)). apply IH. intros x Hx. apply H. now right.
Qed.

Lemma where_token_type_user_blacklisted_spec : forall tok ty userId r,
  where_token_type_user_blacklisted tok ty userId r = true <->
  t_token r = tok /\ t_type r = ty /\ t_user_id r = userId /\ t_blacklisted r = false.
Proof.
  intros tok ty userId r. unfold where_token_type_user_blacklisted.
  rewrite !andb_true_iff, String.eqb_eq, TokenType_eqb_eq, Z.eqb_eq, negb_true_iff.
  tauto.
Qed.

Lemma where_token_type_blacklisted_spec : forall tok ty r,
  where_token_type_blacklisted tok ty r = true <->
  t_token r = tok /\ t_type r = ty /\ t_blacklisted r = false.
Proof.
  intros tok ty r. unfold where_token_type_blacklisted.
  rewrite !andb_true_iff, String.eqb_eq, TokenType_eqb_eq, negb_true_iff. tauto.
Qed.

Lemma where_user_type_spec : forall userId ty r,
  where_user_type userId ty r = true <-> t_user_id r = userId /\ t_type r = ty.
Proof.
  intros userId ty r. unfold where_user_type.
  rewrite andb_true_iff, Z.eqb_eq, TokenType_eqb_eq. tauto.
Qed.

(** A store that answers: the query returns what the table operation
    returns and the schedule stays empty. *)
Lemma query_up : forall (A : Type) (f : Db -> A * Db) (d : Db) (n : Z),
  query f {| db := d; now := n; outages := [] |} =
  (Ok (fst (f d)), {| db := snd (f d); now := n; outages := [] |}).
Proof. intros A f d n. unfold query; simpl. now destruct (f d). Qed.

(** A store that is down: the query throws and touches nothing. *)
Lemma query_down : forall (A : Type) (f : Db -> A * Db) (d : Db) (n : Z) (o : list bool),
  query f {| db := d; now := n; outages := true :: o |} =
  (Throw StoreError, {| db := d; now := n; outages := o |}).
Proof. reflexivity. Qed.

(** Whatever the schedule, a query either throws [StoreError] or returns what
    the table operation returns. *)
Lemma query_answers : forall (A : Type) (f : Db -> A * Db) (d : Db) (n : Z) (o : list bool),
  query f {| db := d; now := n; outages := false :: o |} =
  (Ok (fst (f d)), {| db := snd (f d); now := n; outages := o |}).
Proof. intros A f d n o. unfold query; simpl. now destruct (f d). Qed.

Lemma query_cases : forall (A : Type) (f : Db -> A * Db) (w : World),
  (exists w', query f w = (Throw StoreError, w') /\ db w' = db w /\ now w' = now w) \/
  (exists w', query f w = (Ok (fst (f (db w))), w') /\ db w' = snd (f (db w)) /\ now w' = now w).
Proof.
  intros A f [d n o]. unfold query; simpl.
  destruct o as [ | [ | ] o].
  - right. destruct (f d); simpl. eauto.
  - left. eauto.
  - right. destruct (f d); simpl. eauto.
Qed.

(** ** The store and its foreign key *)

Lemma store_checked_fields : forall us ts i o b (E : foreign_key us ts = b),
  b = true ->
  users (@store_checked us ts i o b E) = us /\
  tokens (@store_checked us ts i o b E) = ts /\
  tokens_seq (@store_checked us ts i o b E) = i.
Proof. intros us ts i o [ | ] E H; [simpl; auto | discriminate H]. Qed.

Lemma store_fields : forall us ts i o,
  foreign_key us ts = true ->
  users (store us ts i o) = us /\ tokens (store us ts i o) = ts /\
  tokens_seq (store us ts i o) = i.
Proof. intros us ts i o H. unfold store. now apply store_checked_fields. Qed.

Lemma owned_spec : forall us r,
  owned us r = true <-> exists u, In u us /\ u_id u = t_user_id r.
Proof.
  intros us r. unfold owned. rewrite existsb_exists.
  split; intros (u & Hu & H); exists u; (split; [exact Hu | ]); now apply Z.eqb_eq.
Qed.

Lemma foreign_key_spec : forall us ts,
  foreign_key us ts = true <-> forall r, In r ts -> owned us r = true.
Proof. intros us ts. unfold foreign_key. apply forallb_forall. Qed.

Lemma row_has_owner : forall d r, In r (tokens d) -> has_user (t_user_id r) d = true.
Proof.
  intros d r Hr. exact (proj1 (foreign_key_spec (users d) (tokens d)) (tokens_user_id d) r Hr).
Qed.

Lemma has_user_find : forall i d,
  has_user i d = true <-> exists u, find (fun u => u_id u =? i) (users d) = Some u.
Proof.
  intros i d. unfold has_user. split.
  - intro H. destruct (find (fun u => u_id u =? i) (users d)) as [u | ] eqn:Hf; [eauto | ].
    apply existsb_exists in H. destruct H as (u & Hu & Hi).
    rewrite (find_none _ _ Hf u Hu) in Hi. discriminate.
  - intros (u & Hf). apply find_some in Hf. apply existsb_exists. exists u. exact Hf.
Qed.

Lemma has_user_false : forall i d,
  find (fun u => u_id u =? i) (users d) = None -> has_user i d = false.
Proof.
  intros i d Hf. destruct (has_user i d) eqn:H; [ | reflexivity].
  apply has_user_find in H. destruct H as (u & Hu). congruence.
Qed.

Lemma foreign_key_filter : forall us ts q,
  foreign_key us ts = true -> foreign_key us (filter q ts) = true.
Proof.
  intros us ts q H. apply foreign_key_spec. intros r Hr. apply filter_In in Hr.
  apply (proj1 (foreign_key_spec us ts) H). tauto.
Qed.

Lemma foreign_key_same_ids : forall us us' ts,
  (forall i, existsb (fun u => u_id u =? i) us = true ->
             existsb (fun u => u_id u =? i) us' = true) ->
  foreign_key us ts = true -> foreign_key us' ts = true.
Proof.
  intros us us' ts Hids H. apply foreign_key_spec. intros r Hr.
  apply Hids. exact (proj1 (foreign_key_spec us ts) H r Hr).
Qed.

(** What each statement leaves in the tables. *)

Lemma set_tokens_filter : forall d q,
  users (set_tokens d (filter q (tokens d))) = users d /\
  tokens (set_tokens d (filter q (tokens d))) = filter q (tokens d) /\
  tokens_seq (set_tokens d (filter q (tokens d))) = tokens_seq d.
Proof.
  intros d q. unfold set_tokens. apply store_fields, foreign_key_filter, tokens_user_id.
Qed.

Lemma tokens_del_fields : forall p d,
  users (snd (tokens_del p d)) = users d /\
  tokens (snd (tokens_del p d)) = filter (fun r => negb (p r)) (tokens d) /\
  tokens_seq (snd (tokens_del p d)) = tokens_seq d.
Proof. intros p d. unfold tokens_del. simpl snd. apply set_tokens_filter. Qed.

Lemma tokens_insert_fields : forall tok uid e ty b c d,
  let row := {| t_id := tokens_seq d; t_token := tok; t_type := ty; t_expires := e;
                t_blacklisted := b; t_created_at := c; t_user_id := uid |} in
  fst (tokens_insert tok uid e ty b c d) =
    (if has_user uid d then Ok row else Throw ForeignKeyError) /\
  users (snd (tokens_insert tok uid e ty b c d)) = users d /\
  tokens (snd (tokens_insert tok uid e ty b c d)) =
    (if has_user uid d then tokens d ++ [row] else tokens d)%list /\
  tokens_seq (snd (tokens_insert tok uid e ty b c d)) = tokens_seq d + 1.
Proof.
  intros tok uid e ty b c d row. unfold tokens_insert. fold row.
  destruct (has_user uid d) eqn:Hu; simpl fst; simpl snd.
  - split; [reflexivity | ]. apply store_fields. apply foreign_key_spec.
    intros r Hr. apply in_app_or in Hr. destruct Hr as [Hr | [<- | []]].
    + exact (row_has_owner d r Hr).
    + exact Hu.
  - split; [reflexivity | ]. apply store_fields, tokens_user_id.
Qed.

Lemma users_update_fields : forall i b d,
  users (snd (users_update i b d)) =
    map (fun u => if u_id u =? i then apply_update b u else u) (users d) /\
  tokens (snd (users_update i b d)) = tokens d /\
  tokens_seq (snd (users_update i b d)) = tokens_seq d.
Proof.
  intros i b d. unfold users_update, set_users. simpl snd. apply store_fields.
  apply foreign_key_same_ids with (us := users d); [ | apply tokens_user_id].
  intros j Hj. apply existsb_exists in Hj. destruct Hj as (u & Hu & Hi).
  apply existsb_exists.
  exists (if u_id u =? i then apply_update b u else u). split.
  - apply in_map_iff. eauto.
  - destruct (u_id u =? i); exact Hi.
Qed.

Lemma users_insert_fields : forall i e nm h r c d,
  users (snd (users_insert i e nm h r c d)) = (users d ++ [fst (users_insert i e nm h r c d)])%list /\
  tokens (snd (users_insert i e nm h r c d)) = tokens d /\
  tokens_seq (snd (users_insert i e nm h r c d)) = tokens_seq d.
Proof.
  intros i e nm h r c d. unfold users_insert, set_users. simpl snd; simpl fst.
  apply store_fields.
  apply foreign_key_same_ids with (us := users d); [ | apply tokens_user_id].
  intros j Hj. rewrite existsb_app, Hj. reflexivity.
Qed.

Lemma users_del_fields : forall i d,
  users (snd (users_del i d)) = filter (fun u => negb (u_id u =? i)) (users d) /\
  tokens (snd (users_del i d)) = filter (fun r => negb (t_user_id r =? i)) (tokens d) /\
  tokens_seq (snd (users_del i d)) = tokens_seq d.
Proof.
  intros i d. unfold users_del. simpl snd. apply store_fields.
  apply foreign_key_spec. intros r Hr. apply filter_In in Hr. destruct Hr as [Hr Hne].
  apply negb_true_iff, Z.eqb_neq in Hne.
  apply owned_spec. pose proof (row_has_owner d r Hr) as Ho.
  apply existsb_exists in Ho. destruct Ho as (u & Hu & Hi). apply Z.eqb_eq in Hi.
  exists u. split; [ | exact Hi].
  apply filter_In. split; [exact Hu | ]. apply negb_true_iff, Z.eqb_neq. congruence.
Qed.

Section Properties.

Context {jwt : JwtLib} {enc : Encryption}.
Variable config : Config.

Lemma jwt_sign_inj : forall p p' k k', jwt_sign p k = jwt_sign p' k' -> p = p'.
Proof.
  intros p p' k k' H. pose proof (jwt_parse_sign p k) as Hp.
  rewrite H, jwt_parse_sign in Hp. congruence.
Qed.

Lemma generateToken_eq : forall userId expiresAt ty secret w,
  generateToken userId expiresAt ty secret w =
  (Ok (jwt_sign {| sub := userId; iat := unix (now w); exp := unix expiresAt; type := ty |}
         secret), w).
Proof. reflexivity. Qed.

Lemma returning_eq : forall (A : Type) (r : Result A) (w : World), returning r w = (r, w).
Proof. intros A [a | e] w; reflexivity. Qed.

Lemma saveToken_up : forall tok uid e ty b d n,
  saveToken tok uid e ty b {| db := d; now := n; outages := [] |} =
  (fst (tokens_insert tok uid e ty b n d),
   {| db := snd (tokens_insert tok uid e ty b n d); now := n; outages := [] |}).
Proof.
  intros. unfold saveToken, bind. simpl now. rewrite query_up. apply returning_eq.
Qed.

(** [generateAuthTokens] against a store that answers: the pair and the row
    of the refresh token for a user of the store, the refusal of the foreign
    key for any other id. *)
Lemma generateAuthTokens_up : forall userId d n,
  generateAuthTokens config userId {| db := d; now := n; outages := [] |} =
  ((if has_user userId d then Ok (minted_pair config userId n) else Throw ForeignKeyError),
   {| db := snd (tokens_insert (token (minted_refresh config userId n)) userId
                   (expires (minted_refresh config userId n)) REFRESH false n d);
      now := n; outages := [] |}).
Proof.
  intros userId d n.
  change (generateAuthTokens config userId {| db := d; now := n; outages := [] |}) with
    (bind (saveToken (token (minted_refresh config userId n)) userId
             (expires (minted_refresh config userId n)) REFRESH false)
          (fun _ => ret (minted_pair config userId n))
          {| db := d; now := n; outages := [] |}).
  unfold bind. rewrite saveToken_up.
  destruct (tokens_insert_fields (token (minted_refresh config userId n)) userId
              (expires (minted_refresh config userId n)) REFRESH false n d) as (Hfst & _).
  rewrite Hfst. destruct (has_user userId d); reflexivity.
Qed.

(** The ledger after [generateAuthTokens] for a user of the store. *)
Lemma generateAuthTokens_tables : forall userId d n,
  has_user userId d = true ->
  let d' := snd (tokens_insert (token (minted_refresh config userId n)) userId
                   (expires (minted_refresh config userId n)) REFRESH false n d) in
  users d' = users d /\
  tokens d' = (tokens d ++ [refresh_row config userId n (tokens_seq d)])%list /\
  tokens_seq d' = tokens_seq d + 1.
Proof.
  intros userId d n Hu d'.
  destruct (tokens_insert_fields (token (minted_refresh config userId n)) userId
              (expires (minted_refresh config userId n)) REFRESH false n d)
    as (_ & Hus & Hts & Hseq).
  rewrite Hu in Hts. auto.
Qed.

Lemma getUserByEmail_up : forall email d n,
  getUserByEmail email {| db := d; now := n; outages := [] |} =
  (Ok (find (fun u => (u_email u =? email)%string) (users d)),
   {| db := d; now := n; outages := [] |}).
Proof. intros. unfold getUserByEmail. now rewrite query_up. Qed.

Lemma getUserById_up : forall i d n,
  getUserById i {| db := d; now := n; outages := [] |} =
  (Ok (find (fun u => u_id u =? i) (users d)), {| db := d; now := n; outages := [] |}).
Proof. intros. unfold getUserById. now rewrite query_up. Qed.

Lemma tokens_first_up : forall f d n,
  query (tokens_first f) {| db := d; now := n; outages := [] |} =
  (Ok (find f (tokens d)), {| db := d; now := n; outages := [] |}).
Proof. intros. now rewrite query_up. Qed.

Lemma tokens_del_up : forall f d n,
  query (tokens_del f) {| db := d; now := n; outages := [] |} =
  (Ok tt, {| db := snd (tokens_del f d); now := n; outages := [] |}).
Proof. intros. now rewrite query_up. Qed.

(** C9, as the code has it.  For the id of a user of the store,
    [generateAuthTokens] adds exactly one row to the ledger, the REFRESH token
    it returns; the ACCESS token it returns is a different string and is not
    stored; the rows that were there and the users are untouched.  For an id
    no user has, the foreign key refuses the insert: the call throws the
    error of the store and the ledger and the users are as they were. *)
Theorem generateAuthTokens_persists_only_refresh :
  forall (w : World) (userId : Z),
    outages w = [] ->
    match find (fun u => u_id u =? userId) (users (db w)) with
    | Some _ =>
        exists (r : AuthTokensResponse) (row : Token) (w' : World),
          generateAuthTokens config userId w = (Ok r, w') /\
          tokens (db w') = (tokens (db w) ++ [row])%list /\
          t_type row = REFRESH /\
          t_token row = token (refresh r) /\
          t_user_id row = userId /\
          t_token row <> token (access r) /\
          (forall x, In x (tokens (db w')) -> In x (tokens (db w)) \/ x = row) /\
          users (db w') = users (db w)
    | None =>
        exists (w' : World),
          generateAuthTokens config userId w = (Throw ForeignKeyError, w') /\
          tokens (db w') = tokens (db w) /\
          users (db w') = users (db w)
    end.
Proof.
  intros [d n o] userId Ho. simpl in Ho. subst o. cbn [db].
  destruct (find (fun u => u_id u =? userId) (users d)) as [u | ] eqn:Hf.
  - assert (Hu : has_user userId d = true) by (apply has_user_find; eauto).
    destruct (generateAuthTokens_tables userId d n Hu) as (Hus & Hts & _).
    exists (minted_pair config userId n), (refresh_row config userId n (tokens_seq d)).
    eexists. split; [rewrite generateAuthTokens_up, Hu; reflexivity | ]. cbn [db].
    split; [exact Hts | ].
    split; [reflexivity | split; [reflexivity | split; [reflexivity | ]]].
    split; [ | split; [ | exact Hus]].
    + intro H. apply jwt_sign_inj in H. discriminate H.
    + intros x Hx. rewrite Hts in Hx. apply in_app_or in Hx.
      destruct Hx as [Hx | [Hx | []]]; auto.
  - pose proof (has_user_false _ _ Hf) as Hu.
    destruct (tokens_insert_fields (token (minted_refresh config userId n)) userId
                (expires (minted_refresh config userId n)) REFRESH false n d)
      as (_ & Hus & Hts & _).
    rewrite Hu in Hts.
    eexists. split; [rewrite generateAuthTokens_up, Hu; reflexivity | ]. cbn [db]. auto.
Qed.

Lemma found_has_user : forall (p : User -> bool) d u,
  find p (users d) = Some u -> has_user (u_id u) d = true.
Proof.
  intros p d u Hf. apply find_some in Hf. apply existsb_exists. exists u.
  split; [tauto | apply Z.eqb_refl].
Qed.

(** [saveToken] for a user of the store, against a store that answers. *)
Lemma saveToken_user_up : forall tok uid e ty b d n,
  has_user uid d = true ->
  saveToken tok uid e ty b {| db := d; now := n; outages := [] |} =
  (Ok {| t_id := tokens_seq d; t_token := tok; t_type := ty; t_expires := e;
         t_blacklisted := b; t_created_at := n; t_user_id := uid |},
   {| db := snd (tokens_insert tok uid e ty b n d); now := n; outages := [] |}).
Proof.
  intros tok uid e ty b d n Hu. rewrite saveToken_up.
  destruct (tokens_insert_fields tok uid e ty b n d) as (Hfst & _).
  rewrite Hfst, Hu. reflexivity.
Qed.

Lemma generateResetPasswordToken_up : forall email d n user,
  find (fun u => (u_email u =? email)%string) (users d) = Some user ->
  let e := add_minutes n (resetPasswordExpirationMinutes config) in
  let tok := jwt_sign {| sub := u_id user; iat := unix n; exp := unix e;
                         type := RESET_PASSWORD |} (jwt_secret config) in
  generateResetPasswordToken config email {| db := d; now := n; outages := [] |} =
  (Ok tok,
   {| db := snd (tokens_insert tok (u_id user) e RESET_PASSWORD false n d);
      now := n; outages := [] |}).
Proof.
  intros email d n user Hu e tok. unfold generateResetPasswordToken, bind at 1.
  rewrite getUserByEmail_up, Hu.
  change ((saveToken tok (u_id user) e RESET_PASSWORD false ;;; ret tok)
            {| db := d; now := n; outages := [] |} =
          (Ok tok, {| db := snd (tokens_insert tok (u_id user) e RESET_PASSWORD false n d);
                      now := n; outages := [] |})).
  unfold bind. rewrite saveToken_user_up by exact (found_has_user _ _ Hu). reflexivity.
Qed.

(** C8. [generateResetPasswordToken]: an e-mail no user has is reported with
    404 'No users found with this email' and nothing is written; for a known
    e-mail a RESET_PASSWORD token is signed for that user, issued at the
    current second and expiring [resetPasswordExpirationMinutes] minutes of
    60000 ms after the current clock, persisted as one new ledger row with
    that expiry, and returned. *)
Theorem generateResetPasswordToken_issues_or_reports :
  forall (w : World) (email : string),
    outages w = [] ->
    match find (fun u => (u_email u =? email)%string) (users (db w)) with
    | None => generateResetPasswordToken config email w = (Throw NoUserWithEmail, w)
    | Some user =>
        let expiresAt := now w + resetPasswordExpirationMinutes config * 60000 in
        let tok := jwt_sign {| sub := u_id user; iat := now w / 1000;
                               exp := expiresAt / 1000; type := RESET_PASSWORD |}
                     (jwt_secret config) in
        let row := {| t_id := tokens_seq (db w); t_token := tok; t_type := RESET_PASSWORD;
                      t_expires := expiresAt; t_blacklisted := false;
                      t_created_at := now w; t_user_id := u_id user |} in
        exists w',
          generateResetPasswordToken config email w = (Ok tok, w') /\
          tokens (db w') = (tokens (db w) ++ [row])%list /\
          users (db w') = users (db w)
    end.
Proof.
  intros [d n o] email Ho. simpl in Ho. subst o. cbn [db now].
  destruct (find (fun u => (u_email u =? email)%string) (users d)) as [user | ] eqn:Hf.
  - eexists. split; [exact (generateResetPasswordToken_up email d n Hf) | ].
    cbn [db].
    destruct (tokens_insert_fields
                (jwt_sign {| sub := u_id user; iat := unix n;
                             exp := unix (add_minutes n (resetPasswordExpirationMinutes config));
                             type := RESET_PASSWORD |} (jwt_secret config))
                (u_id user) (add_minutes n (resetPasswordExpirationMinutes config))
                RESET_PASSWORD false n d) as (_ & Hus & Hts & _).
    rewrite (found_has_user _ _ Hf) in Hts. split; [exact Hts | exact Hus].
  - unfold generateResetPasswordToken, bind. now rewrite getUserByEmail_up, Hf.
Qed.

(** C5. Login answers with one and the same error, 401 'Incorrect email or
    password', when no user has the e-mail and when the password does not
    match the stored hash; when it matches, login returns the user without
    the password field.  Nothing is written in either case. *)
Theorem login_rejects_alike_or_strips_password :
  forall (w : World) (email password : string),
    outages w = [] ->
    match find (fun u => (u_email u =? email)%string) (users (db w)) with
    | None =>
        loginUserWithEmailAndPassword email password w = (Throw InvalidCredentials, w)
    | Some user =>
        if isPasswordMatch password (u_password user)
        then loginUserWithEmailAndPassword email password w = (Ok (exclude_password user), w)
        else loginUserWithEmailAndPassword email password w = (Throw InvalidCredentials, w)
    end.
Proof.
  intros [d n o] email password Ho. simpl in Ho. subst o. simpl db.
  unfold loginUserWithEmailAndPassword, bind. rewrite getUserByEmail_up.
  destruct (find (fun u => (u_email u =? email)%string) (users d)) as [user | ];
    [ | reflexivity].
  destruct (isPasswordMatch password (u_password user)); reflexivity.
Qed.

Lemma jwt_verify_sign : forall p k w,
  unix (now w) < exp p -> jwt_verify (jwt_sign p k) k w = (Ok p, w).
Proof.
  intros p k w H. unfold jwt_verify. rewrite jwt_parse_sign, jwt_signed_sign.
  destruct (Z.geb_spec (unix (now w)) (exp p)); [lia | reflexivity].
Qed.

Lemma jwt_verify_ok_inv : forall tok k w p w',
  jwt_verify tok k w = (Ok p, w') ->
  jwt_parse tok = Some p /\ jwt_signed tok k = true /\ unix (now w) < exp p /\ w' = w.
Proof.
  intros tok k w p w'. unfold jwt_verify.
  destruct (jwt_parse tok) as [q | ]; [ | discriminate].
  destruct (jwt_signed tok k); [ | discriminate].
  destruct (Z.geb_spec (unix (now w)) (exp q)); [discriminate | ].
  intro Heq. inversion Heq; subst. repeat split; trivial.
Qed.

Lemma jwt_verify_pure : forall tok k w, snd (jwt_verify tok k w) = w.
Proof.
  intros tok k w. unfold jwt_verify.
  destruct (jwt_parse tok); [ | reflexivity].
  destruct (jwt_signed tok k); [ | reflexivity].
  destruct (unix (now w) >=? exp p); reflexivity.
Qed.

(** C3. A token signed by [generateToken] for (subject, expiry, type) and
    verified with the same key while the clock, in whole seconds, is before
    the expiry gives back the claim set that was signed: same subject, issue
    time, expiry and type.  When the ledger holds a non-blacklisted row for
    the token, its type and its subject, [verifyToken] returns such a row:
    same token, same subject, same type. *)
Theorem verify_recovers_signed_claims :
  forall (ws wv : World) (userId expiresAt : Z) (ty : TokenType) (tok : string),
    fst (generateToken userId expiresAt ty (jwt_secret config) ws) = Ok tok ->
    unix (now wv) < unix expiresAt ->
    jwt_verify tok (jwt_secret config) wv =
      (Ok {| sub := userId; iat := unix (now ws); exp := unix expiresAt; type := ty |}, wv) /\
    (forall row,
        outages wv = [] ->
        In row (tokens (db wv)) ->
        where_token_type_user_blacklisted tok ty userId row = true ->
        exists r,
          verifyToken config tok ty wv = (Ok r, wv) /\
          In r (tokens (db wv)) /\
          t_token r = tok /\ t_user_id r = userId /\ t_type r = ty /\
          t_blacklisted r = false).
Proof.
  intros ws wv userId expiresAt ty tok Hgen Hlt.
  rewrite generateToken_eq in Hgen. simpl in Hgen. injection Hgen as <-.
  split; [now apply jwt_verify_sign | ].
  intros row Ho Hin Hrow. destruct wv as [d n o]. simpl in Ho, Hin, Hlt. subst o.
  unfold verifyToken, bind. rewrite jwt_verify_sign by exact Hlt. simpl sub.
  rewrite tokens_first_up.
  destruct (find (where_token_type_user_blacklisted _ ty userId) (tokens d)) as [r | ] eqn:Hf.
  - exists r. split; [reflexivity | ].
    destruct (find_some _ _ Hf) as [Hr1 Hr2].
    apply where_token_type_user_blacklisted_spec in Hr2. tauto.
  - rewrite (find_none _ _ Hf row Hin) in Hrow. discriminate.
Qed.

(** C4. A token whose [exp] claim the clock has reached does not verify,
    whether its signature is good or not and whatever the ledger holds; for a
    token with a good signature, verification by [jwt.verify] fails exactly
    when the clock, in whole seconds, is at or past [exp], and the failure is
    the expiry error; at clock = [exp] it fails. *)
Theorem verify_fails_from_expiry_on :
  forall (w : World) (tok : string) (p : Payload) (ty : TokenType),
    jwt_parse tok = Some p ->
    (exp p <= unix (now w) ->
       (exists e, fst (jwt_verify tok (jwt_secret config) w) = Throw e) /\
       (exists e, fst (verifyToken config tok ty w) = Throw e)) /\
    (jwt_signed tok (jwt_secret config) = true ->
       ((exists e, fst (jwt_verify tok (jwt_secret config) w) = Throw e) <->
          exp p <= unix (now w)) /\
       (fst (jwt_verify tok (jwt_secret config) w) = Throw TokenExpiredError <->
          exp p <= unix (now w))) /\
    (exp p = unix (now w) ->
       exists e, fst (jwt_verify tok (jwt_secret config) w) = Throw e).
Proof.
  intros w tok p ty Hp.
  assert (Hexp : exp p <= unix (now w) ->
                 exists e, jwt_verify tok (jwt_secret config) w = (Throw e, w)).
  { intro H. unfold jwt_verify. rewrite Hp.
    destruct (jwt_signed tok (jwt_secret config)); [ | eauto].
    destruct (Z.geb_spec (unix (now w)) (exp p)); [eauto | lia]. }
  split; [ | split].
  - intro H. destruct (Hexp H) as [e He]. split.
    + exists e. now rewrite He.
    + exists e. unfold verifyToken, bind. now rewrite He.
  - intro Hs. unfold jwt_verify. rewrite Hp, Hs.
    destruct (Z.geb_spec (unix (now w)) (exp p)); simpl; split; split;
      try (intros; lia); try (intros [e He]; discriminate He); try discriminate; eauto.
  - intro H. destruct (Hexp ltac:(lia)) as [e He]. exists e. now rewrite He.
Qed.

(** [verifyToken] against a store that answers. *)
Lemma verifyToken_up_inv : forall tok ty d n row,
  fst (verifyToken config tok ty {| db := d; now := n; outages := [] |}) = Ok row ->
  exists p,
    jwt_parse tok = Some p /\
    jwt_signed tok (jwt_secret config) = true /\
    unix n < exp p /\
    find (where_token_type_user_blacklisted tok ty (sub p)) (tokens d) = Some row /\
    verifyToken config tok ty {| db := d; now := n; outages := [] |} =
      (Ok row, {| db := d; now := n; outages := [] |}).
Proof.
  intros tok ty d n row. unfold verifyToken, bind.
  destruct (jwt_verify tok (jwt_secret config) {| db := d; now := n; outages := [] |})
    as [[p | e] w'] eqn:Hv; [ | discriminate].
  apply jwt_verify_ok_inv in Hv. destruct Hv as (Hp & Hs & Hlt & ->).
  rewrite tokens_first_up.
  destruct (find (where_token_type_user_blacklisted tok ty (sub p)) (tokens d))
    as [r | ] eqn:Hf; simpl; [ | discriminate].
  intro H. injection H as ->. exists p. simpl in Hlt. repeat split; trivial.
Qed.

(** Without a matching row in the ledger, [verifyToken] throws, whatever the
    clock and the state of the store, and writes nothing. *)
Lemma verifyToken_no_row : forall tok ty w,
  (forall p, jwt_parse tok = Some p ->
             find (where_token_type_user_blacklisted tok ty (sub p)) (tokens (db w)) = None) ->
  exists e w', verifyToken config tok ty w = (Throw e, w') /\ db w' = db w.
Proof.
  intros tok ty w H. unfold verifyToken, bind.
  destruct (jwt_verify tok (jwt_secret config) w) as [[p | e] w'] eqn:Hv.
  - apply jwt_verify_ok_inv in Hv. destruct Hv as (Hp & _ & _ & ->).
    destruct (query_cases (tokens_first (where_token_type_user_blacklisted tok ty (sub p))) w)
      as [(w' & -> & Hd & _) | (w' & -> & Hd & _)].
    + eauto.
    + unfold tokens_first at 1. simpl fst. rewrite (H p Hp). unfold throw.
      unfold tokens_first in Hd. simpl in Hd. simpl. eauto.
  - pose proof (jwt_verify_pure tok (jwt_secret config) w) as Hw. rewrite Hv in Hw.
    simpl in Hw. subst w'. eauto.
Qed.

Lemma refreshAuth_no_row : forall tok w,
  (forall p, jwt_parse tok = Some p ->
             find (where_token_type_user_blacklisted tok REFRESH (sub p)) (tokens (db w)) = None) ->
  fst (refreshAuth config tok w) = Throw Unauthenticated.
Proof.
  intros tok w H. destruct (verifyToken_no_row tok REFRESH w H) as (e & w' & Hv & _).
  unfold refreshAuth, bind, try_catch. unfold bind. rewrite Hv. reflexivity.
Qed.

(** A refresh with a token that verifies, against a store that answers: the
    owner of the matched row is a user of the store, so the insert of the
    new row goes through. *)
Lemma refreshAuth_up_run : forall t d n row,
  fst (verifyToken config t REFRESH {| db := d; now := n; outages := [] |}) = Ok row ->
  exists d2,
    refreshAuth config t {| db := d; now := n; outages := [] |} =
      (Ok (minted_pair config (t_user_id row) n), {| db := d2; now := n; outages := [] |}) /\
    users d2 = users d /\
    tokens d2 =
      (filter (fun x => negb (where_id (t_id row) x)) (tokens d) ++
       [refresh_row config (t_user_id row) n (tokens_seq d)])%list /\
    tokens_seq d2 = tokens_seq d + 1.
Proof.
  intros t d n row Hv.
  destruct (verifyToken_up_inv _ _ _ _ Hv) as (p & _ & _ & _ & Hf & Hrun).
  destruct (find_some _ _ Hf) as [Hin _].
  destruct (tokens_del_fields (where_id (t_id row)) d) as (Hus1 & Hts1 & Hseq1).
  assert (Hu : has_user (t_user_id row) (snd (tokens_del (where_id (t_id row)) d)) = true).
  { unfold has_user. rewrite Hus1. exact (row_has_owner d row Hin). }
  destruct (generateAuthTokens_tables (t_user_id row)
              (snd (tokens_del (where_id (t_id row)) d)) n Hu) as (Hus2 & Hts2 & Hseq2).
  eexists. split; [ | split; [ | split]].
  - unfold refreshAuth, bind at 1, try_catch, bind at 1. rewrite Hrun.
    unfold bind at 1. rewrite tokens_del_up. unfold ret.
    rewrite generateAuthTokens_up, Hu. reflexivity.
  - rewrite Hus2. exact Hus1.
  - rewrite Hts2, Hts1, Hseq1. reflexivity.
  - rewrite Hseq2, Hseq1. reflexivity.
Qed.

(** C1, as the code has it.  A refresh token that verifies is rotated: the
    call returns the pair minted at the current clock for the owner of the
    row it matched, deletes from the ledger the rows with that row's id and
    appends the row of the new refresh token.  A second call with the old
    token, at any later clock, fails with 401 'Please authenticate' provided
    the matched row was the only non-blacklisted REFRESH row of the owner
    carrying the token and the refresh token just returned is a different
    string. *)
Theorem refreshAuth_rotates :
  forall (w : World) (t : string) (row : Token),
    outages w = [] ->
    fst (verifyToken config t REFRESH w) = Ok row ->
    exists w1,
      let r := minted_pair config (t_user_id row) (now w) in
      refreshAuth config t w = (Ok r, w1) /\
      tokens (db w1) =
        (filter (fun x => negb (where_id (t_id row) x)) (tokens (db w)) ++
         [refresh_row config (t_user_id row) (now w) (tokens_seq (db w))])%list /\
      users (db w1) = users (db w) /\
      ((forall x, In x (tokens (db w)) ->
                  where_token_type_user_blacklisted t REFRESH (t_user_id row) x = true ->
                  t_id x = t_id row) ->
       token (refresh r) <> t ->
       forall (c : Z) (o : list bool),
         fst (refreshAuth config t {| db := db w1; now := c; outages := o |}) =
         Throw Unauthenticated).
Proof.
  intros [d n o] t row Ho Hv. simpl in Ho. subst o.
  destruct (verifyToken_up_inv _ _ _ _ Hv) as (p & Hp & Hs & Hlt & Hf & Hrun).
  destruct (find_some _ _ Hf) as [Hin Hrow].
  apply where_token_type_user_blacklisted_spec in Hrow.
  destruct Hrow as (Htok & Hty & Huid & Hbl).
  destruct (refreshAuth_up_run _ _ _ Hv) as (d2 & Hrefresh & Hus & Hts & _).
  eexists. cbn [db now]. split; [exact Hrefresh | ]. cbn [db].
  split; [exact Hts | split; [exact Hus | ]].
  intros Huniq Hnew c o. apply refreshAuth_no_row. intros p' Hp'.
  rewrite Hp in Hp'. injection Hp' as <-. cbn [db]. rewrite Hts.
  apply find_none_iff. intros x Hx.
  destruct (where_token_type_user_blacklisted t REFRESH (sub p) x) eqn:Hw; [ | reflexivity].
  exfalso. apply in_app_or in Hx. destruct Hx as [Hx | [<- | []]].
  - apply filter_In in Hx. destruct Hx as [Hx Hid].
    rewrite Huid in Huniq. specialize (Huniq x Hx Hw).
    unfold where_id in Hid. rewrite Huniq, Z.eqb_refl in Hid. discriminate.
  - apply where_token_type_user_blacklisted_spec in Hw. destruct Hw as [Hw _].
    apply Hnew. exact Hw.
Qed.

(** C6, as the code has it.  [logout] looks for a non-blacklisted REFRESH row
    carrying the token: without one it fails with 404 'Not found' and writes
    nothing; with one it deletes the rows with the id of the first such row.
    A later refresh with the token fails with 401 'Please authenticate'
    provided that row was the only non-blacklisted REFRESH row carrying the
    token. *)
Theorem logout_deletes_then_refresh_fails :
  forall (w : World) (t : string),
    outages w = [] ->
    match find (where_token_type_blacklisted t REFRESH) (tokens (db w)) with
    | None => logout t w = (Throw LogoutNotFound, w)
    | Some row =>
        exists w1,
          logout t w = (Ok tt, w1) /\
          tokens (db w1) = filter (fun x => negb (where_id (t_id row) x)) (tokens (db w)) /\
          users (db w1) = users (db w) /\
          ((forall x, In x (tokens (db w)) ->
                      where_token_type_blacklisted t REFRESH x = true ->
                      t_id x = t_id row) ->
           forall (c : Z) (o : list bool),
             fst (refreshAuth config t {| db := db w1; now := c; outages := o |}) =
             Throw Unauthenticated)
    end.
Proof.
  intros [d n o] t Ho. simpl in Ho. subst o. simpl db.
  unfold logout, bind. rewrite tokens_first_up.
  destruct (find (where_token_type_blacklisted t REFRESH) (tokens d)) as [row | ] eqn:Hf;
    [ | reflexivity].
  rewrite tokens_del_up. eexists. split; [reflexivity | ]. cbn [db].
  destruct (tokens_del_fields (where_id (t_id row)) d) as (Hus & Hts & _).
  split; [exact Hts | ]. split; [exact Hus | ].
  intros Huniq c o. apply refreshAuth_no_row. intros p Hp. cbn [db]. rewrite Hts.
  apply find_none_iff. intros x Hx.
  destruct (where_token_type_user_blacklisted t REFRESH (sub p) x) eqn:Hw; [ | reflexivity].
  exfalso. apply filter_In in Hx. destruct Hx as [Hx Hid].
  apply where_token_type_user_blacklisted_spec in Hw. destruct Hw as (H1 & H2 & _ & H4).
  assert (Hm : where_token_type_blacklisted t REFRESH x = true)
    by (apply where_token_type_blacklisted_spec; tauto).
  specialize (Huniq x Hx Hm). unfold where_id in Hid.
  rewrite Huniq, Z.eqb_refl in Hid. discriminate.
Qed.

Lemma updateUserById_up : forall userId b d n,
  upd_email b = None ->
  updateUserById userId b {| db := d; now := n; outages := [] |} =
  match find (fun u => u_id u =? userId) (users d) with
  | None => (Throw UserNotFound, {| db := d; now := n; outages := [] |})
  | Some _ =>
      (Ok (fst (users_update userId b d)),
       {| db := snd (users_update userId b d); now := n; outages := [] |})
  end.
Proof.
  intros userId b d n Hb. unfold updateUserById, bind. rewrite getUserById_up, Hb.
  destruct (find (fun u => u_id u =? userId) (users d)); [ | reflexivity].
  unfold ret. now rewrite query_up.
Qed.

(** A [try] whose handler throws [e] returns or throws [e]. *)
Lemma try_catch_collapses : forall (A : Type) (m : M A) (e : Error) (w : World),
  (exists a, fst (try_catch m (fun _ => throw e) w) = Ok a) \/
  fst (try_catch m (fun _ => throw e) w) = Throw e.
Proof.
  intros A m e w. unfold try_catch. destruct (m w) as [[a | e'] w']; simpl; eauto.
Qed.

Lemma resetPassword_no_row : forall tok pw w,
  (forall p, jwt_parse tok = Some p ->
             find (where_token_type_user_blacklisted tok RESET_PASSWORD (sub p))
               (tokens (db w)) = None) ->
  fst (resetPassword config tok pw w) = Throw ResetFailed.
Proof.
  intros tok pw w H. destruct (verifyToken_no_row tok RESET_PASSWORD w H) as (e & w' & Hv & _).
  unfold resetPassword, try_catch, bind. rewrite Hv. reflexivity.
Qed.

(** The two flows that end in an update of the user, against a store that
    answers. *)
Lemma resetPassword_up_run : forall t pw d n row user,
  fst (verifyToken config t RESET_PASSWORD {| db := d; now := n; outages := [] |}) = Ok row ->
  find (fun u => u_id u =? t_user_id row) (users d) = Some user ->
  exists d2,
    resetPassword config t pw {| db := d; now := n; outages := [] |} =
      (Ok tt, {| db := d2; now := n; outages := [] |}) /\
    users d2 = map (fun u => if u_id u =? t_user_id row
                             then apply_update (only_password (encryptPassword pw)) u
                             else u) (users d) /\
    tokens d2 =
      filter (fun r => negb (where_user_type (t_user_id row) RESET_PASSWORD r)) (tokens d) /\
    tokens_seq d2 = tokens_seq d.
Proof.
  intros t pw d n row user Hv Hu.
  destruct (verifyToken_up_inv _ _ _ _ Hv) as (p & _ & _ & _ & _ & Hrun).
  destruct (find_some _ _ Hu) as [_ Huid]. apply Z.eqb_eq in Huid.
  destruct (users_update_fields (t_user_id row) (only_password (encryptPassword pw)) d)
    as (Hus1 & Hts1 & Hseq1).
  destruct (tokens_del_fields (where_user_type (t_user_id row) RESET_PASSWORD)
              (snd (users_update (t_user_id row) (only_password (encryptPassword pw)) d)))
    as (Hus2 & Hts2 & Hseq2).
  eexists. split; [ | split; [ | split]].
  - unfold resetPassword, try_catch, bind at 1. rewrite Hrun.
    unfold bind at 1. rewrite getUserById_up, Hu.
    unfold bind. rewrite updateUserById_up by reflexivity. rewrite Huid, Hu.
    rewrite tokens_del_up. reflexivity.
  - rewrite Hus2. exact Hus1.
  - rewrite Hts2, Hts1. reflexivity.
  - rewrite Hseq2. exact Hseq1.
Qed.

Lemma verifyEmail_up_run : forall t d n row user,
  fst (verifyToken config t VERIFY_EMAIL {| db := d; now := n; outages := [] |}) = Ok row ->
  find (fun u => u_id u =? t_user_id row) (users d) = Some user ->
  exists d2,
    verifyEmail config t {| db := d; now := n; outages := [] |} =
      (Ok tt, {| db := d2; now := n; outages := [] |}) /\
    users d2 = map (fun u => if u_id u =? t_user_id row
                             then apply_update (only_is_email_verified true) u
                             else u) (users d) /\
    tokens d2 =
      filter (fun r => negb (where_user_type (t_user_id row) VERIFY_EMAIL r)) (tokens d) /\
    tokens_seq d2 = tokens_seq d.
Proof.
  intros t d n row user Hv Hu.
  destruct (verifyToken_up_inv _ _ _ _ Hv) as (p & _ & _ & _ & _ & Hrun).
  destruct (tokens_del_fields (where_user_type (t_user_id row) VERIFY_EMAIL) d)
    as (Hus1 & Hts1 & Hseq1).
  destruct (users_update_fields (t_user_id row) (only_is_email_verified true)
              (snd (tokens_del (where_user_type (t_user_id row) VERIFY_EMAIL) d)))
    as (Hus2 & Hts2 & Hseq2).
  eexists. split; [ | split; [ | split]].
  - unfold verifyEmail, try_catch, bind at 1. rewrite Hrun.
    unfold bind at 1. rewrite tokens_del_up.
    unfold bind at 1. rewrite updateUserById_up by reflexivity.
    rewrite Hus1, Hu. reflexivity.
  - rewrite Hus2, Hus1. reflexivity.
  - rewrite Hts2. exact Hts1.
  - rewrite Hseq2. exact Hseq1.
Qed.

(** C2. A password reset with a reset token that verifies, for a user the
    store knows, succeeds; it sets the password of that user to the hash of
    the new password, leaves the other users as they were, and deletes every
    RESET_PASSWORD row of that user from the ledger, the consumed one and all
    the others.  After it, a password reset with any token whose subject is
    that user fails with 401 'Password reset failed', at any clock. *)
Theorem resetPassword_purges_all_reset_tokens :
  forall (w : World) (t newPassword : string) (row : Token) (user : User),
    outages w = [] ->
    fst (verifyToken config t RESET_PASSWORD w) = Ok row ->
    find (fun u => u_id u =? t_user_id row) (users (db w)) = Some user ->
    exists w1,
      resetPassword config t newPassword w = (Ok tt, w1) /\
      users (db w1) =
        map (fun u => if u_id u =? u_id user
                      then apply_update (only_password (encryptPassword newPassword)) u
                      else u) (users (db w)) /\
      (forall u, In u (users (db w1)) -> u_id u = u_id user ->
                 u_password u = encryptPassword newPassword) /\
      tokens (db w1) =
        filter (fun r => negb (where_user_type (u_id user) RESET_PASSWORD r)) (tokens (db w)) /\
      (forall r, In r (tokens (db w1)) -> t_user_id r = u_id user ->
                 t_type r <> RESET_PASSWORD) /\
      (forall (t2 pw2 : string) (p2 : Payload) (c : Z) (o : list bool),
          jwt_parse t2 = Some p2 -> sub p2 = u_id user ->
          fst (resetPassword config t2 pw2 {| db := db w1; now := c; outages := o |}) =
          Throw ResetFailed).
Proof.
  intros [d n o] t newPassword row user Ho Hv Hu. simpl in Ho. subst o. cbn [db] in *.
  destruct (find_some _ _ Hu) as [Huin Huid]. apply Z.eqb_eq in Huid.
  destruct (@resetPassword_up_run t newPassword d n row user Hv Hu) as (d2 & Hrun & Hus & Hts & _).
  rewrite <- Huid in Hus, Hts.
  eexists. split; [exact Hrun | ]. cbn [db].
  split; [exact Hus | split; [ | split; [exact Hts | split]]].
  - rewrite Hus. intros u Hin Hid. apply in_map_iff in Hin. destruct Hin as (u0 & Heq & _).
    destruct (Z.eqb_spec (u_id u0) (u_id user)) as [E | E]; subst u.
    + reflexivity.
    + contradiction.
  - rewrite Hts. intros r Hin Hr Hty. apply filter_In in Hin. destruct Hin as [_ Hn].
    assert (Hm : where_user_type (u_id user) RESET_PASSWORD r = true)
      by (apply where_user_type_spec; tauto).
    rewrite Hm in Hn. discriminate.
  - intros t2 pw2 p2 c o Hp2 Hsub. apply resetPassword_no_row. intros p' Hp'.
    rewrite Hp2 in Hp'. injection Hp' as <-. cbn [db]. rewrite Hts.
    apply find_none_iff. intros x Hx.
    destruct (where_token_type_user_blacklisted t2 RESET_PASSWORD (sub p2) x) eqn:Hw;
      [ | reflexivity].
    exfalso. apply filter_In in Hx. destruct Hx as [_ Hn].
    apply where_token_type_user_blacklisted_spec in Hw. destruct Hw as (_ & H2 & H3 & _).
    assert (Hm : where_user_type (u_id user) RESET_PASSWORD x = true)
      by (apply where_user_type_spec; split; congruence).
    rewrite Hm in Hn. discriminate.
Qed.

(** A token that verifies has an owner in the store: the row it matched is a
    row of the ledger, and the foreign key gives every row a user. *)
Lemma verified_token_has_owner : forall tok ty w row,
  fst (verifyToken config tok ty w) = Ok row ->
  exists user, find (fun u => u_id u =? t_user_id row) (users (db w)) = Some user.
Proof.
  intros tok ty w row. unfold verifyToken, bind.
  destruct (jwt_verify tok (jwt_secret config) w) as [[p | e] w'] eqn:Hv; [ | discriminate].
  apply jwt_verify_ok_inv in Hv. destruct Hv as (_ & _ & _ & ->).
  destruct (query_cases (tokens_first (where_token_type_user_blacklisted tok ty (sub p))) w)
    as [(w' & -> & _) | (w' & -> & _)]; [discriminate | ].
  unfold tokens_first at 1. cbn [fst].
  destruct (find (where_token_type_user_blacklisted tok ty (sub p)) (tokens (db w)))
    as [r | ] eqn:Hf; cbn [fst]; [ | discriminate].
  intro H. injection H as ->. apply has_user_find.
  apply row_has_owner. exact (proj1 (find_some _ _ Hf)).
Qed.

(** ** Failures of the store *)

Lemma query_ok_outages : forall (A : Type) (f : Db -> A * Db) w a w',
  query f w = (Ok a, w') ->
  hd false (outages w) = false /\ outages w' = tl (outages w).
Proof.
  intros A f [d n o] a w'. unfold query. cbn [outages db now].
  destruct o as [ | [ | ] o]; destruct (f d); intro H; inversion H; subst; auto.
Qed.

Lemma no_failure_cons : forall k o,
  hd false o = false ->
  existsb (fun b => b) (firstn k (tl o)) = false ->
  existsb (fun b => b) (firstn (S k) o) = false.
Proof.
  intros k [ | b o] Hh Ht; [reflexivity | ]. simpl in *. now rewrite Hh.
Qed.

Lemma no_failure_add : forall j k o,
  existsb (fun b => b) (firstn j o) = false ->
  existsb (fun b => b) (firstn k (skipn j o)) = false ->
  existsb (fun b => b) (firstn (j + k) o) = false.
Proof.
  induction j as [ | j IH]; intros k o Hj Hk; [exact Hk | ].
  destruct o as [ | b o]; [reflexivity | ]. simpl in *.
  apply orb_false_iff in Hj. destruct Hj as [-> Hj]. simpl. now apply IH.
Qed.

Lemma uses_ret : forall (A : Type) (a : A), uses 0 (ret a).
Proof. intros A a w b w' H. inversion H; subst. auto. Qed.

Lemma uses_throw : forall (A : Type) (k : nat) (e : Error), uses k (throw (A := A) e).
Proof. intros A k e w a w' H. discriminate H. Qed.

Lemma uses_query : forall (A : Type) (f : Db -> A * Db), uses 1 (query f).
Proof.
  intros A f w a w' H. apply query_ok_outages in H. destruct H as [Hh Ht].
  split; [ | exact Ht]. destruct (outages w) as [ | b o]; [reflexivity | ].
  simpl in *. now rewrite Hh.
Qed.

Lemma uses_bind : forall (A B : Type) (j k : nat) (m : M A) (f : A -> M B),
  uses j m -> (forall a, uses k (f a)) -> uses (j + k) (bind m f).
Proof.
  intros A B j k m f Hm Hf w b w'. unfold bind.
  destruct (m w) as [[a | e] w1] eqn:Hrun; [ | discriminate].
  intro H. destruct (Hm _ _ _ Hrun) as [Hj Hrest].
  destruct (Hf a _ _ _ H) as [Hk Hrest']. rewrite Hrest in Hk, Hrest'.
  split; [now apply no_failure_add | ].
  rewrite Hrest'. clear. revert k. generalize (outages w).
  induction j as [ | j IH]; intros o k; [reflexivity | ].
  destruct o as [ | b o]; simpl; [now destruct k | apply IH].
Qed.

Lemma uses_try_catch : forall (A : Type) (k : nat) (m : M A) (e : Error),
  uses k m -> uses k (try_catch m (fun _ => throw e)).
Proof.
  intros A k m e Hm w a w'. unfold try_catch.
  destruct (m w) as [[a0 | e0] w1] eqn:Hrun; [ | discriminate].
  intro H. inversion H; subst. exact (Hm _ _ _ Hrun).
Qed.

Lemma uses_jwt_verify : forall tok k, uses 0 (jwt_verify tok k).
Proof.
  intros tok k w p w' H. apply jwt_verify_ok_inv in H. destruct H as (_ & _ & _ & ->). auto.
Qed.

Lemma uses_verifyToken : forall tok ty, uses 1 (verifyToken config tok ty).
Proof.
  intros tok ty. unfold verifyToken. apply (uses_bind (j := 0) (k := 1)).
  - apply uses_jwt_verify.
  - intro p. apply (uses_bind (j := 1) (k := 0)); [apply uses_query | ].
    intros [r | ]; [apply uses_ret | apply uses_throw].
Qed.

Lemma uses_updateUserById : forall i b,
  upd_email b = None -> uses 2 (updateUserById i b).
Proof.
  intros i b Hb. unfold updateUserById. rewrite Hb.
  apply (uses_bind (j := 1) (k := 1)); [apply uses_query | ].
  intros [u | ]; [ | apply uses_throw].
  apply (uses_bind (j := 0) (k := 1)); [apply uses_ret | ].
  intros [u' | ]; [apply uses_throw | apply uses_query].
Qed.

Lemma uses_resetPassword : forall t pw, uses 5 (resetPassword config t pw).
Proof.
  intros t pw. unfold resetPassword. apply uses_try_catch.
  apply (uses_bind (j := 1) (k := 4)); [apply uses_verifyToken | ]. intro row.
  apply (uses_bind (j := 1) (k := 3)); [apply uses_query | ].
  intros [u | ]; [ | apply uses_throw].
  apply (uses_bind (j := 2) (k := 1)); [now apply uses_updateUserById | ].
  intros _. apply uses_query.
Qed.

Lemma uses_verifyEmail : forall t, uses 4 (verifyEmail config t).
Proof.
  intro t. unfold verifyEmail. apply uses_try_catch.
  apply (uses_bind (j := 1) (k := 3)); [apply uses_verifyToken | ]. intro row.
  apply (uses_bind (j := 1) (k := 2)); [apply uses_query | ]. intros _.
  apply (uses_bind (j := 2) (k := 0)); [now apply uses_updateUserById | ].
  intros _. apply uses_ret.
Qed.

(** Password reset and e-mail verification never surface another error than
    their own. *)
Lemma resetPassword_error_is_ResetFailed : forall t pw w e,
  fst (resetPassword config t pw w) = Throw e -> e = ResetFailed.
Proof.
  intros t pw w e. unfold resetPassword.
  match goal with |- fst (try_catch ?m _ _) = _ -> _ =>
    destruct (try_catch_collapses m ResetFailed w) as [[a Ha] | Ha] end;
    rewrite Ha; congruence.
Qed.

Lemma verifyEmail_error_is_VerificationFailed : forall t w e,
  fst (verifyEmail config t w) = Throw e -> e = VerificationFailed.
Proof.
  intros t w e. unfold verifyEmail.
  match goal with |- fst (try_catch ?m _ _) = _ -> _ =>
    destruct (try_catch_collapses m VerificationFailed w) as [[a Ha] | Ha] end;
    rewrite Ha; congruence.
Qed.

(** The issuance at the end of [refreshAuth] is outside the reach of its
    [catch]: when the store fails at the insert, after the lookup and the
    delete went through, the caller sees the error of the store, and the old
    row is gone. *)
Lemma refreshAuth_issuance_failure_not_caught : forall t row d n o,
  fst (verifyToken config t REFRESH {| db := d; now := n; outages := [] |}) = Ok row ->
  refreshAuth config t {| db := d; now := n; outages := false :: false :: true :: o |} =
  (Throw StoreError,
   {| db := set_tokens d (filter (fun x => negb (where_id (t_id row) x)) (tokens d));
      now := n; outages := o |}).
Proof.
  intros t row d n o Hv.
  destruct (verifyToken_up_inv _ _ _ _ Hv) as (p & Hp & Hs & Hlt & Hf & _).
  unfold refreshAuth, bind at 1, try_catch, bind at 1, verifyToken, bind at 1, jwt_verify.
  cbn [now]. rewrite Hp, Hs.
  destruct (Z.geb_spec (unix n) (exp p)); [lia | ].
  unfold bind at 1, query at 1, tokens_first. cbn [outages db now fst snd]. rewrite Hf.
  reflexivity.
Qed.

(** C7, as the code has it.  Login and logout catch nothing: a failure of
    the store at their query, and at either query of logout, reaches the
    caller as the error of the store.  Refresh awaits its lookup and its
    delete inside [try], so a failure there is answered with 401 'Please
    authenticate'; the insert of the new refresh token is outside the reach
    of the [catch], so a failure there reaches the caller as the error of the
    store.  Password reset and e-mail verification run every query inside
    [try]: a failure at any of their five, respectively four, queries is
    answered with their own 401 error, and they never surface any other
    error. *)
Theorem store_failure_propagates_or_is_remapped :
  forall (w : World) (t : string),
    (forall email password o,
        outages w = true :: o ->
        fst (loginUserWithEmailAndPassword email password w) = Throw StoreError) /\
    (forall o, outages w = true :: o -> fst (logout t w) = Throw StoreError) /\
    (forall o row,
        outages w = false :: true :: o ->
        find (where_token_type_blacklisted t REFRESH) (tokens (db w)) = Some row ->
        fst (logout t w) = Throw StoreError) /\
    (forall o,
        outages w = true :: o \/ outages w = false :: true :: o ->
        fst (refreshAuth config t w) = Throw Unauthenticated) /\
    (forall o row,
        outages w = false :: false :: true :: o ->
        fst (verifyToken config t REFRESH {| db := db w; now := now w; outages := [] |}) =
          Ok row ->
        fst (refreshAuth config t w) = Throw StoreError) /\
    (forall pw,
        existsb (fun b => b) (firstn 5 (outages w)) = true ->
        fst (resetPassword config t pw w) = Throw ResetFailed) /\
    (forall pw e, fst (resetPassword config t pw w) = Throw e -> e = ResetFailed) /\
    (existsb (fun b => b) (firstn 4 (outages w)) = true ->
     fst (verifyEmail config t w) = Throw VerificationFailed) /\
    (forall e, fst (verifyEmail config t w) = Throw e -> e = VerificationFailed).
Proof.
  intros [d n o0] t. cbn [outages db now].
  split; [ | split; [ | split; [ | split; [ | split; [ | split; [ | split; [ | split]]]]]]].
  - intros email password o ->. unfold loginUserWithEmailAndPassword, getUserByEmail, bind.
    now rewrite query_down.
  - intros o ->. unfold logout, bind. now rewrite query_down.
  - intros o row -> Hf. unfold logout, bind. rewrite query_answers.
    unfold tokens_first. cbn [fst snd]. rewrite Hf. now rewrite query_down.
  - intros o Ho. unfold refreshAuth, bind at 1, try_catch, bind at 1, verifyToken, bind at 1.
    destruct (jwt_verify t (jwt_secret config) {| db := d; now := n; outages := o0 |})
      as [[p | e] w'] eqn:Hj; [ | reflexivity].
    apply jwt_verify_ok_inv in Hj. destruct Hj as (_ & _ & _ & ->).
    destruct Ho as [-> | ->].
    + unfold bind. now rewrite query_down.
    + unfold bind at 1. rewrite query_answers. unfold tokens_first. cbn [fst snd].
      destruct (find (where_token_type_user_blacklisted t REFRESH (sub p)) (tokens d));
        [ | reflexivity].
      unfold ret at 1, bind. now rewrite query_down.
  - intros o row -> Hv.
    now rewrite (@refreshAuth_issuance_failure_not_caught t row d n o Hv).
  - intros pw Hfail.
    destruct (resetPassword config t pw {| db := d; now := n; outages := o0 |})
      as [[[] | e] w'] eqn:Hrun.
    + destruct (@uses_resetPassword t pw _ _ _ Hrun) as [Hnone _]. cbn [outages] in Hnone.
      congruence.
    + cbn [fst]. f_equal. apply (resetPassword_error_is_ResetFailed t pw
                                   {| db := d; now := n; outages := o0 |}).
      now rewrite Hrun.
  - intros pw e. apply resetPassword_error_is_ResetFailed.
  - intro Hfail.
    destruct (verifyEmail config t {| db := d; now := n; outages := o0 |})
      as [[[] | e] w'] eqn:Hrun.
    + destruct (@uses_verifyEmail t _ _ _ Hrun) as [Hnone _]. cbn [outages] in Hnone.
      congruence.
    + cbn [fst]. f_equal. apply (verifyEmail_error_is_VerificationFailed t
                                   {| db := d; now := n; outages := o0 |}).
      now rewrite Hrun.
  - intro e. apply verifyEmail_error_is_VerificationFailed.
Qed.

(** Two issuances to one user within one second sign the same claim set, so
    they return the same refresh token. *)
Lemma minted_refresh_same_second : forall userId n n',
  unix n = unix n' ->
  unix (add_days n (refreshExpirationDays config)) =
    unix (add_days n' (refreshExpirationDays config)) ->
  token (minted_refresh config userId n) = token (minted_refresh config userId n').
Proof. intros userId n n' H1 H2. unfold minted_refresh. simpl. now rewrite H1, H2. Qed.

(** A refresh in a second other than the one the old token was issued in
    returns a different refresh token. *)
Lemma minted_refresh_later_second : forall t p userId n,
  jwt_parse t = Some p -> iat p <> unix n ->
  token (minted_refresh config userId n) <> t.
Proof.
  intros t p userId n Hp Hiat H. subst t. unfold minted_refresh in Hp. simpl in Hp.
  rewrite jwt_parse_sign in Hp. injection Hp as <-. apply Hiat. reflexivity.
Qed.




End Properties.

(** ** The theorems on the concrete worlds *)

(** The worlds of [Scenario] hold the rows they are built from: each of them
    satisfies the foreign key. *)
Lemma scenario_worlds_hold_their_rows :
  users (db Scenario.fresh) = [Scenario.alice] /\
  tokens (db Scenario.after_login) = [refresh_row Scenario.config 1 Scenario.t0 1] /\
  tokens (db Scenario.after_two_logins) =
    [refresh_row Scenario.config 1 Scenario.t0 1;
     refresh_row Scenario.config 1 (Scenario.t0 + 300) 2] /\
  tokens (db (Scenario.two_resets_pending [])) =
    [Scenario.reset_row Scenario.t0 1; Scenario.reset_row (Scenario.t0 + 60000) 2] /\
  tokens (db Scenario.mistyped) = [Scenario.mistyped_row] /\
  tokens (db (Scenario.all_pending [])) =
    [refresh_row Scenario.config 1 Scenario.t0 1; Scenario.reset_row Scenario.t0 2;
     Scenario.verify_email_row Scenario.t0 3].
Proof. repeat split; reflexivity. Qed.

(** The worlds of [Scenario] are what the services produce from [fresh]. *)
Lemma after_login_reached :
  snd (generateAuthTokens Scenario.config 1 Scenario.fresh) =
  Scenario.world [Scenario.alice] [refresh_row Scenario.config 1 Scenario.t0 1] 2
    Scenario.t0 [].
Proof. reflexivity. Qed.

Lemma after_two_logins_reached :
  db (snd (generateAuthTokens Scenario.config 1
             (Scenario.world [Scenario.alice] [refresh_row Scenario.config 1 Scenario.t0 1] 2
                (Scenario.t0 + 300) []))) =
  db Scenario.after_two_logins.
Proof. reflexivity. Qed.

Lemma generateAuthTokens_persists_only_refresh_witness :
  outages Scenario.fresh = [] /\
  (exists (r : AuthTokensResponse) (row : Token) (w' : World),
      generateAuthTokens Scenario.config 1 Scenario.fresh = (Ok r, w') /\
      tokens (db w') = (tokens (db Scenario.fresh) ++ [row])%list /\
      t_type row = REFRESH /\
      t_token row = token (refresh r) /\
      t_user_id row = 1 /\
      t_token row <> token (access r) /\
      (forall x, In x (tokens (db w')) -> In x (tokens (db Scenario.fresh)) \/ x = row) /\
      users (db w') = users (db Scenario.fresh)) /\
  (exists w' : World,
      generateAuthTokens Scenario.config 7 Scenario.fresh = (Throw ForeignKeyError, w') /\
      tokens (db w') = tokens (db Scenario.fresh) /\
      users (db w') = users (db Scenario.fresh)).
Proof.
  split; [reflexivity | split].
  - exact (generateAuthTokens_persists_only_refresh Scenario.config Scenario.fresh 1 eq_refl).
  - exact (generateAuthTokens_persists_only_refresh Scenario.config Scenario.fresh 7 eq_refl).
Defined.

(** C9 fails as stated: no user has the id 7, the store refuses the row of
    the refresh token, the call throws, and the ledger has no row more than
    before. *)
Lemma generateAuthTokens_unknown_user_counterexample :
  let run := generateAuthTokens Scenario.config 7 Scenario.fresh in
  outages Scenario.fresh = [] /\
  find (fun u => u_id u =? 7) (users (db Scenario.fresh)) = None /\
  fst run = Throw ForeignKeyError /\
  tokens (db (snd run)) = tokens (db Scenario.fresh) /\
  ~ (exists row, tokens (db (snd run)) = (tokens (db Scenario.fresh) ++ [row])%list).
Proof.
  intro run. split; [reflexivity | split; [reflexivity | ]].
  split; [vm_compute; reflexivity | split; [vm_compute; reflexivity | ]].
  intros [row Hrow]. vm_compute in Hrow. discriminate Hrow.
Qed.

Lemma generateResetPasswordToken_issues_or_reports_witness :
  let tok := jwt_sign {| sub := 1; iat := 1720000000; exp := 1720000600;
                         type := RESET_PASSWORD |} "top-secret" in
  let row := {| t_id := 1; t_token := tok; t_type := RESET_PASSWORD;
                t_expires := 1720000600000; t_blacklisted := false;
                t_created_at := 1720000000000; t_user_id := 1 |} in
  outages Scenario.fresh = [] /\
  resetPasswordExpirationMinutes Scenario.config = 10 /\
  now Scenario.fresh = 1720000000000 /\
  (exists w',
      generateResetPasswordToken Scenario.config "a@x.com" Scenario.fresh = (Ok tok, w') /\
      tokens (db w') = [row] /\
      users (db w') = [Scenario.alice]) /\
  generateResetPasswordToken Scenario.config "nobody@x.com" Scenario.fresh =
    (Throw NoUserWithEmail, Scenario.fresh).
Proof.
  intros tok row.
  split; [reflexivity | split; [reflexivity | split; [reflexivity | split]]].
  - exact (generateResetPasswordToken_issues_or_reports Scenario.config Scenario.fresh
             "a@x.com" eq_refl).
  - exact (generateResetPasswordToken_issues_or_reports Scenario.config Scenario.fresh
             "nobody@x.com" eq_refl).
Defined.

Lemma login_rejects_alike_or_strips_password_witness :
  outages Scenario.fresh = [] /\
  loginUserWithEmailAndPassword "a@x.com" "secret123" Scenario.fresh =
    (Ok (exclude_password Scenario.alice), Scenario.fresh) /\
  loginUserWithEmailAndPassword "a@x.com" "secret124" Scenario.fresh =
    (Throw InvalidCredentials, Scenario.fresh) /\
  loginUserWithEmailAndPassword "nobody@x.com" "secret123" Scenario.fresh =
    (Throw InvalidCredentials, Scenario.fresh).
Proof.
  split; [reflexivity | split; [ | split]].
  - exact (login_rejects_alike_or_strips_password Scenario.fresh "a@x.com" "secret123" eq_refl).
  - exact (login_rejects_alike_or_strips_password Scenario.fresh "a@x.com" "secret124" eq_refl).
  - exact (login_rejects_alike_or_strips_password Scenario.fresh "nobody@x.com" "secret123"
             eq_refl).
Defined.

Lemma verify_recovers_signed_claims_witness :
  let expiresAt := add_days Scenario.t0 30 in
  fst (generateToken 1 expiresAt REFRESH "top-secret" Scenario.fresh) = Ok Scenario.issued /\
  unix (now Scenario.a_minute_after_login) < unix expiresAt /\
  jwt_verify Scenario.issued "top-secret" Scenario.a_minute_after_login =
    (Ok {| sub := 1; iat := 1720000000; exp := 1722592000; type := REFRESH |},
     Scenario.a_minute_after_login) /\
  exists r,
    verifyToken Scenario.config Scenario.issued REFRESH Scenario.a_minute_after_login =
      (Ok r, Scenario.a_minute_after_login) /\
    In r (tokens (db Scenario.a_minute_after_login)) /\
    t_token r = Scenario.issued /\ t_user_id r = 1 /\ t_type r = REFRESH /\
    t_blacklisted r = false.
Proof.
  intro expiresAt.
  assert (Hgen : fst (generateToken 1 expiresAt REFRESH (jwt_secret Scenario.config)
                        Scenario.fresh) = Ok Scenario.issued) by reflexivity.
  assert (Hlt : unix (now Scenario.a_minute_after_login) < unix expiresAt)
    by (vm_compute; reflexivity).
  destruct (verify_recovers_signed_claims Scenario.config Scenario.a_minute_after_login
              Hgen Hlt) as [Hclaims Hrow].
  split; [exact Hgen | split; [exact Hlt | split; [exact Hclaims | ]]].
  apply (Hrow (refresh_row Scenario.config 1 Scenario.t0 1)).
  - reflexivity.
  - left. reflexivity.
  - vm_compute. reflexivity.
Defined.

Lemma verify_fails_from_expiry_on_witness :
  let w := Scenario.world [Scenario.alice] [refresh_row Scenario.config 1 Scenario.t0 1] 2
             1722592000000 [] in
  let p := {| sub := 1; iat := 1720000000; exp := 1722592000; type := REFRESH |} in
  jwt_parse Scenario.issued = Some p /\
  exp p = unix (now w) /\
  (exists e, fst (jwt_verify Scenario.issued "top-secret" w) = Throw e) /\
  (exists e, fst (verifyToken Scenario.config Scenario.issued REFRESH w) = Throw e) /\
  fst (jwt_verify Scenario.issued "top-secret" w) = Throw TokenExpiredError.
Proof.
  intros w p.
  assert (Hp : jwt_parse Scenario.issued = Some p) by (vm_compute; reflexivity).
  assert (Hnow : exp p = unix (now w)) by (vm_compute; reflexivity).
  destruct (verify_fails_from_expiry_on Scenario.config w Scenario.issued REFRESH Hp)
    as (Hpast & Hsigned & Hedge).
  assert (Hle : exp p <= unix (now w)) by (rewrite Hnow; apply Z.le_refl).
  destruct (Hpast Hle) as [Hj Hv].
  destruct (Hsigned ltac:(vm_compute; reflexivity)) as [_ Hexpired].
  split; [exact Hp | split; [exact Hnow | split; [exact Hj | split; [exact Hv | ]]]].
  apply Hexpired. exact Hle.
Defined.

Lemma refreshAuth_rotates_witness :
  let w := Scenario.a_minute_after_login in
  let row := refresh_row Scenario.config 1 Scenario.t0 1 in
  outages w = [] /\
  fst (verifyToken Scenario.config Scenario.issued REFRESH w) = Ok row /\
  exists w1,
    refreshAuth Scenario.config Scenario.issued w =
      (Ok (minted_pair Scenario.config 1 (Scenario.t0 + 60000)), w1) /\
    tokens (db w1) = [refresh_row Scenario.config 1 (Scenario.t0 + 60000) 2] /\
    forall (c : Z) (o : list bool),
      fst (refreshAuth Scenario.config Scenario.issued
             {| db := db w1; now := c; outages := o |}) = Throw Unauthenticated.
Proof.
  intros w row.
  assert (Hv : fst (verifyToken Scenario.config Scenario.issued REFRESH w) = Ok row)
    by (vm_compute; reflexivity).
  destruct (refreshAuth_rotates Scenario.config w Scenario.issued eq_refl Hv)
    as (w1 & Hrun & Htok & _ & Hsecond).
  split; [reflexivity | split; [exact Hv | ]].
  exists w1. split; [exact Hrun | split; [exact Htok | ]].
  apply Hsecond.
  - intros x [<- | []] _. reflexivity.
  - intro H. vm_compute in H. discriminate H.
Defined.

(** C1 fails as stated: a refresh in the second of the login returns the
    very token it was given and stores it again, so the same token refreshes
    a second time. *)
Lemma refreshAuth_single_use_counterexample :
  let w := Scenario.after_login in
  let r1 := minted_pair Scenario.config 1 (Scenario.t0 + 400) in
  let w1 := Scenario.world [Scenario.alice]
              [refresh_row Scenario.config 1 (Scenario.t0 + 400) 2] 3
              (Scenario.t0 + 400) [] in
  fst (verifyToken Scenario.config Scenario.issued REFRESH w) =
    Ok (refresh_row Scenario.config 1 Scenario.t0 1) /\
  refreshAuth Scenario.config Scenario.issued w = (Ok r1, w1) /\
  token (refresh r1) = Scenario.issued /\
  exists r2 w2, refreshAuth Scenario.config Scenario.issued w1 = (Ok r2, w2).
Proof.
  intros w r1 w1.
  split; [vm_compute; reflexivity | ].
  split; [vm_compute; reflexivity | ].
  split; [vm_compute; reflexivity | ].
  do 2 eexists. vm_compute. reflexivity.
Qed.

Lemma logout_deletes_then_refresh_fails_witness :
  let w := Scenario.a_minute_after_login in
  outages w = [] /\
  (exists w1,
      logout Scenario.issued w = (Ok tt, w1) /\
      tokens (db w1) = [] /\
      users (db w1) = users (db w) /\
      forall (c : Z) (o : list bool),
        fst (refreshAuth Scenario.config Scenario.issued
               {| db := db w1; now := c; outages := o |}) = Throw Unauthenticated) /\
  logout "no-such-token" w = (Throw LogoutNotFound, w).
Proof.
  intro w. split; [reflexivity | split].
  - destruct (logout_deletes_then_refresh_fails Scenario.config w Scenario.issued eq_refl)
      as (w1 & Hrun & Htok & Hus & Hrefresh).
    exists w1. split; [exact Hrun | split; [exact Htok | split; [exact Hus | ]]].
    apply Hrefresh. intros x [<- | []] _. reflexivity.
  - exact (logout_deletes_then_refresh_fails Scenario.config w "no-such-token" eq_refl).
Defined.

(** C6 fails as stated: after two logins within one second the ledger holds
    the token twice; logout deletes the first row and the token still
    refreshes. *)
Lemma logout_then_refresh_counterexample :
  let w := Scenario.after_two_logins in
  let w1 := Scenario.world [Scenario.alice]
              [refresh_row Scenario.config 1 (Scenario.t0 + 300) 2] 3
              (Scenario.t0 + 5000) [] in
  logout Scenario.issued w = (Ok tt, w1) /\
  exists r w2, refreshAuth Scenario.config Scenario.issued w1 = (Ok r, w2).
Proof.
  intros w w1. split; [vm_compute; reflexivity | ].
  do 2 eexists. vm_compute. reflexivity.
Qed.

Lemma resetPassword_purges_all_reset_tokens_witness :
  let w := Scenario.two_resets_pending [] in
  let T1 := Scenario.reset_token Scenario.t0 in
  let T2 := Scenario.reset_token (Scenario.t0 + 60000) in
  outages w = [] /\
  fst (verifyToken Scenario.config T1 RESET_PASSWORD w) = Ok (Scenario.reset_row Scenario.t0 1) /\
  fst (verifyToken Scenario.config T2 RESET_PASSWORD w) =
    Ok (Scenario.reset_row (Scenario.t0 + 60000) 2) /\
  exists w1,
    resetPassword Scenario.config T1 "newpass1" w = (Ok tt, w1) /\
    users (db w1) =
      [apply_update (only_password (encryptPassword "newpass1")) Scenario.alice] /\
    tokens (db w1) = [] /\
    forall (c : Z) (o : list bool),
      fst (resetPassword Scenario.config T2 "newpass2"
             {| db := db w1; now := c; outages := o |}) = Throw ResetFailed.
Proof.
  intros w T1 T2.
  assert (Hv : fst (verifyToken Scenario.config T1 RESET_PASSWORD w) =
               Ok (Scenario.reset_row Scenario.t0 1)) by (vm_compute; reflexivity).
  assert (Hu : find (fun u => u_id u =? t_user_id (Scenario.reset_row Scenario.t0 1))
                 (users (db w)) = Some Scenario.alice) by reflexivity.
  destruct (resetPassword_purges_all_reset_tokens Scenario.config w T1 "newpass1"
              eq_refl Hv Hu) as (w1 & Hrun & Hus & _ & Htok & _ & Hlater).
  split; [reflexivity | split; [exact Hv | split; [vm_compute; reflexivity | ]]].
  exists w1. split; [exact Hrun | split; [exact Hus | split; [exact Htok | ]]].
  intros c o.
  apply (Hlater T2 "newpass2"
           {| sub := 1; iat := unix (Scenario.t0 + 60000);
              exp := unix (add_minutes (Scenario.t0 + 60000) 10);
              type := RESET_PASSWORD |} c o).
  - vm_compute. reflexivity.
  - reflexivity.
Defined.

Lemma store_failure_propagates_or_is_remapped_witness :
  let w := Scenario.all_pending in
  let R := Scenario.issued in
  let P := Scenario.reset_token Scenario.t0 in
  let E := Scenario.verify_email_token Scenario.t0 in
  fst (loginUserWithEmailAndPassword "a@x.com" "secret123" (w [true])) = Throw StoreError /\
  fst (logout R (w [true])) = Throw StoreError /\
  fst (logout R (w [false; true])) = Throw StoreError /\
  fst (refreshAuth Scenario.config R (w [true])) = Throw Unauthenticated /\
  fst (refreshAuth Scenario.config R (w [false; true])) = Throw Unauthenticated /\
  fst (refreshAuth Scenario.config R (w [false; false; true])) = Throw StoreError /\
  (forall o, In o [[true]; [false; true]; [false; false; true];
                   [false; false; false; true]; [false; false; false; false; true]] ->
             fst (resetPassword Scenario.config P "newpass1" (w o)) = Throw ResetFailed) /\
  fst (resetPassword Scenario.config P "newpass1" (w [])) = Ok tt /\
  (forall o, In o [[true]; [false; true]; [false; false; true];
                   [false; false; false; true]] ->
             fst (verifyEmail Scenario.config E (w o)) = Throw VerificationFailed) /\
  fst (verifyEmail Scenario.config E (w [])) = Ok tt.
Proof.
  intros w R P E.
  split; [ | split; [ | split; [ | split; [ | split; [ | split;
    [ | split; [ | split; [ | split]]]]]]]].
  - exact (proj1 (store_failure_propagates_or_is_remapped Scenario.config (w [true]) R)
             "a@x.com" "secret123" [] eq_refl).
  - exact (proj1 (proj2 (store_failure_propagates_or_is_remapped Scenario.config
                           (w [true]) R)) [] eq_refl).
  - refine (proj1 (proj2 (proj2 (store_failure_propagates_or_is_remapped Scenario.config
                                   (w [false; true]) R)))
              [] (refresh_row Scenario.config 1 Scenario.t0 1) eq_refl _).
    vm_compute. reflexivity.
  - exact (proj1 (proj2 (proj2 (proj2 (store_failure_propagates_or_is_remapped
                                         Scenario.config (w [true]) R))))
             [] (or_introl eq_refl)).
  - exact (proj1 (proj2 (proj2 (proj2 (store_failure_propagates_or_is_remapped
                                         Scenario.config (w [false; true]) R))))
             [] (or_intror eq_refl)).
  - refine (proj1 (proj2 (proj2 (proj2 (proj2 (store_failure_propagates_or_is_remapped
                                                 Scenario.config (w [false; false; true]) R)))))
              [] (refresh_row Scenario.config 1 Scenario.t0 1) eq_refl _).
    vm_compute. reflexivity.
  - intros o Ho.
    refine (proj1 (proj2 (proj2 (proj2 (proj2 (proj2
              (store_failure_propagates_or_is_remapped Scenario.config (w o) P))))))
              "newpass1" _).
    simpl in Ho. decompose [or] Ho; try contradiction; subst o; reflexivity.
  - vm_compute. reflexivity.
  - intros o Ho.
    refine (proj1 (proj2 (proj2 (proj2 (proj2 (proj2 (proj2 (proj2
              (store_failure_propagates_or_is_remapped Scenario.config (w o) E)))))))) _).
    simpl in Ho. decompose [or] Ho; try contradiction; subst o; reflexivity.
  - vm_compute. reflexivity.
Defined.

(** C7 fails as stated: with the store down at the ledger lookup, the lookup
    throws the error of the store, and refresh, password reset and e-mail
    verification each answer their own 401 error instead of it. *)
Lemma store_failure_remapped_counterexample :
  let w := Scenario.all_pending [true] in
  let R := Scenario.issued in
  let P := Scenario.reset_token Scenario.t0 in
  let E := Scenario.verify_email_token Scenario.t0 in
  fst (verifyToken Scenario.config R REFRESH w) = Throw StoreError /\
  fst (verifyToken Scenario.config P RESET_PASSWORD w) = Throw StoreError /\
  fst (verifyToken Scenario.config E VERIFY_EMAIL w) = Throw StoreError /\
  fst (refreshAuth Scenario.config R w) = Throw Unauthenticated /\
  fst (refreshAuth Scenario.config R w) <> Throw StoreError /\
  fst (resetPassword Scenario.config P "newpass1" w) = Throw ResetFailed /\
  fst (resetPassword Scenario.config P "newpass1" w) <> Throw StoreError /\
  fst (verifyEmail Scenario.config E w) = Throw VerificationFailed /\
  fst (verifyEmail Scenario.config E w) <> Throw StoreError.
Proof.
  intros w R P E.
  split; [vm_compute; reflexivity | ].
  split; [vm_compute; reflexivity | ].
  split; [vm_compute; reflexivity | ].
  split; [vm_compute; reflexivity | ].
  split; [vm_compute; discriminate | ].
  split; [vm_compute; reflexivity | ].
  split; [vm_compute; discriminate | ].
  split; [vm_compute; reflexivity | ].
  vm_compute. discriminate.
Qed.

(** * Properties of the rest of the code *)

(** ** How [preserves] and [read_only] compose *)

Lemma preserves_ret : forall (A : Type) (I : Db -> Prop) (a : A), preserves I (ret a).
Proof. intros A I a w H. exact H. Qed.

Lemma preserves_throw : forall (A : Type) (I : Db -> Prop) (e : Error),
  preserves I (throw (A := A) e).
Proof. intros A I e w H. exact H. Qed.

Lemma preserves_moment : forall (I : Db -> Prop), preserves I moment.
Proof. intros I w H. exact H. Qed.

Lemma preserves_bind : forall (A B : Type) (I : Db -> Prop) (m : M A) (k : A -> M B),
  preserves I m -> (forall a, preserves I (k a)) -> preserves I (bind m k).
Proof.
  intros A B I m k Hm Hk w H. unfold bind. specialize (Hm w H).
  destruct (m w) as [[a | e] w']; simpl in *; [apply Hk | ]; exact Hm.
Qed.

Lemma preserves_try_catch : forall (A : Type) (I : Db -> Prop) (m : M A) (h : Error -> M A),
  preserves I m -> (forall e, preserves I (h e)) -> preserves I (try_catch m h).
Proof.
  intros A I m h Hm Hh w H. unfold try_catch. specialize (Hm w H).
  destruct (m w) as [[a | e] w']; simpl in *; [ | apply Hh]; exact Hm.
Qed.

Lemma preserves_query : forall (A : Type) (I : Db -> Prop) (f : Db -> A * Db),
  (forall d, I d -> I (snd (f d))) -> preserves I (query f).
Proof.
  intros A I f Hf w H.
  destruct (query_cases f w) as [(w' & -> & Hd & _) | (w' & -> & Hd & _)]; simpl;
    rewrite Hd; auto.
Qed.

Lemma read_only_preserves : forall (A : Type) (I : Db -> Prop) (m : M A),
  read_only m -> preserves I m.
Proof. intros A I m Hm w H. now rewrite Hm. Qed.

Lemma read_only_bind : forall (A B : Type) (m : M A) (k : A -> M B),
  read_only m -> (forall a, read_only (k a)) -> read_only (bind m k).
Proof.
  intros A B m k Hm Hk w. unfold bind. specialize (Hm w).
  destruct (m w) as [[a | e] w']; simpl in *; [rewrite Hk | ]; exact Hm.
Qed.

Lemma read_only_try_catch : forall (A : Type) (m : M A) (h : Error -> M A),
  read_only m -> (forall e, read_only (h e)) -> read_only (try_catch m h).
Proof.
  intros A m h Hm Hh w. unfold try_catch. specialize (Hm w).
  destruct (m w) as [[a | e] w']; simpl in *; [ | rewrite Hh]; exact Hm.
Qed.

Lemma read_only_query : forall (A : Type) (f : Db -> A * Db),
  (forall d, snd (f d) = d) -> read_only (query f).
Proof.
  intros A f Hf w.
  destruct (query_cases f w) as [(w' & -> & Hd & _) | (w' & -> & Hd & _)]; simpl;
    rewrite Hd; auto.
Qed.

(** ** The table operations and the ledger *)

Lemma filter_all : forall (A : Type) (l : list A), filter (fun _ => true) l = l.
Proof. induction l as [ | a l IH]; simpl; [ | rewrite IH]; reflexivity. Qed.

Lemma tokens_first_only_deletes : forall p, only_deletes (tokens_first p).
Proof. intros p d. split; [reflexivity | ]. exists (fun _ => true). simpl. now rewrite filter_all. Qed.

Lemma tokens_del_only_deletes : forall p, only_deletes (tokens_del p).
Proof.
  intros p d. destruct (tokens_del_fields p d) as (_ & Hts & Hseq).
  split; [exact Hseq | ]. eexists. exact Hts.
Qed.

Lemma users_first_only_deletes : forall p, only_deletes (users_first p).
Proof. intros p d. split; [reflexivity | ]. exists (fun _ => true). simpl. now rewrite filter_all. Qed.

Lemma users_update_only_deletes : forall i b, only_deletes (users_update i b).
Proof.
  intros i b d. destruct (users_update_fields i b d) as (_ & Hts & Hseq).
  split; [exact Hseq | ]. exists (fun _ => true). now rewrite filter_all.
Qed.

Lemma users_insert_only_deletes : forall i e nm h r c,
  only_deletes (users_insert i e nm h r c).
Proof.
  intros i e nm h r c d. destruct (users_insert_fields i e nm h r c d) as (_ & Hts & Hseq).
  split; [exact Hseq | ]. exists (fun _ => true). now rewrite filter_all.
Qed.

Lemma users_del_only_deletes : forall i, only_deletes (users_del i).
Proof.
  intros i d. destruct (users_del_fields i d) as (_ & Hts & Hseq).
  split; [exact Hseq | ]. eexists. exact Hts.
Qed.

Lemma NoDup_map_filter : forall (A B : Type) (g : A -> B) (p : A -> bool) (l : list A),
  NoDup (map g l) -> NoDup (map g (filter p l)).
Proof.
  intros A B g p l. induction l as [ | a l IH]; simpl; intro H; [exact H | ].
  inversion H as [ | x xs Hnin Hnd]; subst.
  destruct (p a); simpl; [constructor | ]; auto.
  intro Hin. apply Hnin. apply in_map_iff in Hin. destruct Hin as (y & Hy & Hyin).
  apply in_map_iff. exists y. split; [exact Hy | ]. apply filter_In in Hyin. tauto.
Qed.

Lemma only_deletes_ids_fresh : forall (A : Type) (f : Db -> A * Db) (d : Db),
  only_deletes f -> ledger_ids_fresh d -> ledger_ids_fresh (snd (f d)).
Proof.
  intros A f d Hf [Hnd Hlt]. destruct (Hf d) as [Hseq [p Hp]].
  unfold ledger_ids_fresh. rewrite Hseq, Hp. split.
  - now apply NoDup_map_filter.
  - intros r Hr. apply filter_In in Hr. apply Hlt. tauto.
Qed.

Lemma tokens_insert_ids_fresh : forall tok uid e ty b c d,
  ledger_ids_fresh d -> ledger_ids_fresh (snd (tokens_insert tok uid e ty b c d)).
Proof.
  intros tok uid e ty b c d [Hnd Hlt]. unfold ledger_ids_fresh.
  destruct (tokens_insert_fields tok uid e ty b c d) as (_ & _ & Hts & Hseq).
  rewrite Hts, Hseq. destruct (has_user uid d).
  - split.
    + rewrite map_app. simpl. apply NoDup_app.
      * exact Hnd.
      * constructor; [intros [] | constructor].
      * intros x Hx [<- | []]. apply in_map_iff in Hx. destruct Hx as (r & Hr & Hin).
        specialize (Hlt r Hin). lia.
    + intros r Hr. apply in_app_or in Hr. destruct Hr as [Hr | [<- | []]].
      * specialize (Hlt r Hr). lia.
      * simpl. lia.
  - split; [exact Hnd | ]. intros r Hr. specialize (Hlt r Hr). lia.
Qed.

(** ** What every service keeps

    Any property of the store that survives the deletion of ledger rows and
    the insertion of a row as the issuing functions write it survives every
    service, whatever the clock and the outages. *)

Section KeepsInvariant.

Context {jwt : JwtLib} {enc : Encryption}.
Variable config : Config.
Variable I : Db -> Prop.

Hypothesis I_deletes :
  forall (A : Type) (f : Db -> A * Db) (d : Db), only_deletes f -> I d -> I (snd (f d)).

Hypothesis I_insert :
  forall (p : Payload) (k : string) (e c : Z) (d : Db),
    type p <> ACCESS -> exp p = unix e -> I d ->
    I (snd (tokens_insert (jwt_sign p k) (sub p) e (type p) false c d)).

Lemma keeps_jwt_verify : forall tok k, preserves I (jwt_verify tok k).
Proof. intros tok k. apply read_only_preserves. intro w. now rewrite jwt_verify_pure. Qed.

Lemma keeps_verifyToken : forall tok ty, preserves I (verifyToken config tok ty).
Proof.
  intros tok ty. unfold verifyToken. apply preserves_bind; [apply keeps_jwt_verify | ].
  intro p. apply preserves_bind.
  - apply preserves_query. intros d. apply I_deletes, tokens_first_only_deletes.
  - intros [r | ]; [apply preserves_ret | apply preserves_throw].
Qed.

Lemma keeps_getUserById : forall i, preserves I (getUserById i).
Proof.
  intro i. apply preserves_query. intro d. apply I_deletes, users_first_only_deletes.
Qed.

Lemma keeps_getUserByEmail : forall e, preserves I (getUserByEmail e).
Proof.
  intro e. apply preserves_query. intro d. apply I_deletes, users_first_only_deletes.
Qed.

Lemma keeps_updateUserById : forall i b, preserves I (updateUserById i b).
Proof.
  intros i b. unfold updateUserById. apply preserves_bind; [apply keeps_getUserById | ].
  intros [u | ]; [ | apply preserves_throw].
  apply preserves_bind.
  - destruct (upd_email b) as [e | ]; [ | apply preserves_ret].
    destruct (e =? EmptyString)%string; [apply preserves_ret | apply keeps_getUserByEmail].
  - intros [u' | ]; [apply preserves_throw | ].
    apply preserves_query. intro d. apply I_deletes, users_update_only_deletes.
Qed.

Lemma keeps_saveToken : forall p k e,
  type p <> ACCESS -> exp p = unix e ->
  preserves I (saveToken (jwt_sign p k) (sub p) e (type p) false).
Proof.
  intros p k e Hty Hexp w H. unfold saveToken.
  apply (preserves_bind (I := I)); [ | | exact H].
  - apply preserves_query. intros d Hd. now apply I_insert.
  - intros [a | e0]; [apply preserves_ret | apply preserves_throw].
Qed.

Lemma keeps_generateAuthTokens : forall uid, preserves I (generateAuthTokens config uid).
Proof.
  intros uid w H.
  change (generateAuthTokens config uid w) with
    (bind (saveToken (token (minted_refresh config uid (now w))) uid
             (expires (minted_refresh config uid (now w))) REFRESH false)
          (fun _ => ret (minted_pair config uid (now w))) w).
  apply (preserves_bind (I := I)); [ | intro; apply preserves_ret | exact H].
  refine (keeps_saveToken
            {| sub := uid; iat := unix (now w);
               exp := unix (add_days (now w) (refreshExpirationDays config));
               type := REFRESH |} (jwt_secret config) _ _ _); [discriminate | reflexivity].
Qed.

Lemma keeps_generateVerifyEmailToken : forall uid,
  preserves I (generateVerifyEmailToken config uid).
Proof.
  intros uid w H.
  pose (e := add_minutes (now w) (verifyEmailExpirationMinutes config)).
  pose (p := {| sub := uid; iat := unix (now w); exp := unix e; type := VERIFY_EMAIL |}).
  change (generateVerifyEmailToken config uid w) with
    (bind (saveToken (jwt_sign p (jwt_secret config)) uid e VERIFY_EMAIL false)
          (fun _ => ret (jwt_sign p (jwt_secret config))) w).
  apply (preserves_bind (I := I)); [ | intro; apply preserves_ret | exact H].
  refine (keeps_saveToken p (jwt_secret config) _ _ _); [discriminate | reflexivity].
Qed.

Lemma keeps_generateResetPasswordToken : forall email,
  preserves I (generateResetPasswordToken config email).
Proof.
  intro email. unfold generateResetPasswordToken.
  apply preserves_bind; [apply keeps_getUserByEmail | ].
  intros [u | ]; [ | apply preserves_throw]. intros w H.
  pose (e := add_minutes (now w) (resetPasswordExpirationMinutes config)).
  pose (p := {| sub := u_id u; iat := unix (now w); exp := unix e; type := RESET_PASSWORD |}).
  change (I (db (snd (bind (saveToken (jwt_sign p (jwt_secret config)) (u_id u) e
                              RESET_PASSWORD false)
                        (fun _ => ret (jwt_sign p (jwt_secret config))) w)))).
  apply (preserves_bind (I := I)); [ | intro; apply preserves_ret | exact H].
  refine (keeps_saveToken p (jwt_secret config) _ _ _); [discriminate | reflexivity].
Qed.

Lemma keeps_login : forall email pw, preserves I (loginUserWithEmailAndPassword email pw).
Proof.
  intros email pw. unfold loginUserWithEmailAndPassword.
  apply preserves_bind; [apply keeps_getUserByEmail | ].
  intros [u | ]; [ | apply preserves_throw].
  destruct (negb (isPasswordMatch pw (u_password u)));
    [apply preserves_throw | apply preserves_ret].
Qed.

Lemma keeps_logout : forall t, preserves I (logout t).
Proof.
  intro t. unfold logout. apply preserves_bind.
  - apply preserves_query. intro d. apply I_deletes, tokens_first_only_deletes.
  - intros [r | ]; [ | apply preserves_throw].
    apply preserves_query. intro d. apply I_deletes, tokens_del_only_deletes.
Qed.

Lemma keeps_refreshAuth : forall t, preserves I (refreshAuth config t).
Proof.
  intro t. unfold refreshAuth. apply preserves_bind; [ | apply keeps_generateAuthTokens].
  apply preserves_try_catch; [ | intro; apply preserves_throw].
  apply preserves_bind; [apply keeps_verifyToken | ]. intro r.
  apply preserves_bind; [ | intro; apply preserves_ret].
  apply preserves_query. intro d. apply I_deletes, tokens_del_only_deletes.
Qed.

Lemma keeps_resetPassword : forall t pw, preserves I (resetPassword config t pw).
Proof.
  intros t pw. unfold resetPassword.
  apply preserves_try_catch; [ | intro; apply preserves_throw].
  apply preserves_bind; [apply keeps_verifyToken | ]. intro r.
  apply preserves_bind; [apply keeps_getUserById | ].
  intros [u | ]; [ | apply preserves_throw].
  apply preserves_bind; [apply keeps_updateUserById | ]. intros _.
  apply preserves_query. intro d. apply I_deletes, tokens_del_only_deletes.
Qed.

Lemma keeps_verifyEmail : forall t, preserves I (verifyEmail config t).
Proof.
  intro t. unfold verifyEmail.
  apply preserves_try_catch; [ | intro; apply preserves_throw].
  apply preserves_bind; [apply keeps_verifyToken | ]. intro r.
  apply preserves_bind.
  - apply preserves_query. intro d. apply I_deletes, tokens_del_only_deletes.
  - intros _. apply preserves_bind; [apply keeps_updateUserById | ].
    intros _. apply preserves_ret.
Qed.

Lemma keeps_createUser : forall i email pw nm role,
  preserves I (createUser i email pw nm role).
Proof.
  intros i email pw nm role. unfold createUser.
  apply preserves_bind; [apply keeps_getUserByEmail | ].
  intros [u | ]; [apply preserves_throw | ]. intros w H.
  apply (@preserves_query _ I
           (users_insert i email nm (encryptPassword pw) (or_else role USER) (now w)));
    [ | exact H].
  intro d. apply I_deletes, users_insert_only_deletes.
Qed.

Lemma keeps_deleteUserById : forall i, preserves I (deleteUserById i).
Proof.
  intro i. unfold deleteUserById. apply preserves_bind; [apply keeps_getUserById | ].
  intros [u | ]; [ | apply preserves_throw].
  apply preserves_bind; [ | intro; apply preserves_ret].
  apply preserves_query. intro d. apply I_deletes, users_del_only_deletes.
Qed.

Lemma keeps_jwtVerify : forall p, preserves I (jwtVerify p).
Proof.
  intro p. unfold jwtVerify. apply preserves_try_catch; [ | intro; apply preserves_ret].
  destruct (negb (TokenType_eqb (type p) ACCESS)); [apply preserves_throw | ].
  apply preserves_bind.
  - apply preserves_query. intro d. apply I_deletes, users_first_only_deletes.
  - intros [u | ]; apply preserves_ret.
Qed.

Lemma keeps_every_service : kept_by_every_service config I.
Proof.
  unfold kept_by_every_service.
  repeat match goal with |- _ /\ _ => split end.
  - apply keeps_generateAuthTokens.
  - apply keeps_generateResetPasswordToken.
  - apply keeps_generateVerifyEmailToken.
  - apply keeps_verifyToken.
  - apply keeps_login.
  - apply keeps_logout.
  - apply keeps_refreshAuth.
  - apply keeps_resetPassword.
  - apply keeps_verifyEmail.
  - apply keeps_createUser.
  - apply keeps_updateUserById.
  - apply keeps_deleteUserById.
  - apply keeps_jwtVerify.
Qed.

End KeepsInvariant.

Lemma only_deletes_well_formed : forall {jwt : JwtLib} (A : Type) (f : Db -> A * Db) (d : Db),
  only_deletes f -> ledger_well_formed d -> ledger_well_formed (snd (f d)).
Proof.
  intros jwt A f d Hf H r Hr. destruct (Hf d) as [_ [p Hp]]. rewrite Hp in Hr.
  apply filter_In in Hr. apply H. tauto.
Qed.

Lemma tokens_insert_well_formed : forall {jwt : JwtLib} (p : Payload) (k : string) (e c : Z)
    (d : Db),
  type p <> ACCESS -> exp p = unix e -> ledger_well_formed d ->
  ledger_well_formed (snd (tokens_insert (jwt_sign p k) (sub p) e (type p) false c d)).
Proof.
  intros jwt p k e c d Hty Hexp H r Hr.
  destruct (tokens_insert_fields (jwt_sign p k) (sub p) e (type p) false c d)
    as (_ & _ & Hts & _).
  rewrite Hts in Hr. destruct (has_user (sub p) d); [ | now apply H].
  apply in_app_or in Hr.
  destruct Hr as [Hr | [<- | []]]; [now apply H | ].
  split; [reflexivity | split; [exact Hty | ]]. exists p. simpl.
  rewrite jwt_parse_sign. auto.
Qed.

(** [saveToken] stores what it is given: asked for a row of type ACCESS or a
    blacklisted row for a user of the store, it stores that row. *)
Lemma saveToken_stores_on_request : forall {jwt : JwtLib} tok uid e ty b w,
  outages w = [] -> has_user uid (db w) = true ->
  In {| t_id := tokens_seq (db w); t_token := tok; t_type := ty; t_expires := e;
        t_blacklisted := b; t_created_at := now w; t_user_id := uid |}
     (tokens (db (snd (saveToken tok uid e ty b w)))).
Proof.
  intros jwt tok uid e ty b [d n o] Ho Hu. cbn [outages db now] in *. subst o.
  unfold saveToken, bind. cbn [now]. rewrite query_up.
  destruct (tokens_insert_fields tok uid e ty b n d) as (Hfst & _ & Hts & _).
  rewrite Hu in Hfst, Hts. rewrite Hfst. cbn [returning ret snd db]. rewrite Hts.
  apply in_or_app. right. now left.
Qed.

(** X1. The thirteen functions of the three services and of the passport
    strategy that [kept_by_every_service] lists keep the ledger well formed,
    at any clock and under any outages: they never store a row of type ACCESS
    or a blacklisted row, and every row they store carries a token whose
    claim set names the row's owner, type and expiry second.  [saveToken],
    the function they store through, keeps the ledger well formed when it is
    called the way they call it (a signed claim set, stored under its own
    subject, type and expiry, type other than ACCESS, not blacklisted), and
    breaks it when it is called, for a user of the store, with the type
    ACCESS or with the blacklisted flag set. *)
Theorem ledger_well_formed_is_kept :
  forall {jwt : JwtLib} {enc : Encryption} (config : Config),
    kept_by_every_service config ledger_well_formed /\
    (forall (p : Payload) (k : string) (e : Z),
        type p <> ACCESS -> exp p = unix e ->
        preserves ledger_well_formed (saveToken (jwt_sign p k) (sub p) e (type p) false)) /\
    (forall (tok : string) (uid e : Z) (ty : TokenType) (b : bool) (w : World),
        outages w = [] -> has_user uid (db w) = true ->
        ty = ACCESS \/ b = true ->
        ~ ledger_well_formed (db (snd (saveToken tok uid e ty b w)))).
Proof.
  intros jwt enc config. split; [ | split].
  - apply keeps_every_service.
    + intros A f d. apply only_deletes_well_formed.
    + intros p k e c d. apply tokens_insert_well_formed.
  - intros p k e Hty Hexp.
    apply (@keeps_saveToken jwt ledger_well_formed); [ | exact Hty | exact Hexp].
    intros p0 k0 e0 c d. apply tokens_insert_well_formed.
  - intros tok uid e ty b w Ho Hu Hbad Hwf.
    destruct (Hwf _ (saveToken_stores_on_request tok uid e ty b w Ho Hu)) as (Hb & Hty & _).
    cbn [t_blacklisted t_type] in Hb, Hty. destruct Hbad; congruence.
Qed.

(** X2. Every service keeps the ids of the ledger pairwise different and
    below the sequence, at any clock and under any outages. *)
Theorem ledger_ids_fresh_is_kept :
  forall {jwt : JwtLib} {enc : Encryption} (config : Config),
    kept_by_every_service config ledger_ids_fresh.
Proof.
  intros jwt enc config. apply keeps_every_service.
  - intros A f d. apply only_deletes_ids_fresh.
  - intros p k e c d _ _. apply tokens_insert_ids_fresh.
Qed.

(** ** Verification, seen from the caller *)

Lemma find_app_last : forall (A : Type) (f : A -> bool) (l : list A) (x : A),
  f x = true -> exists r, find f (l ++ [x]) = Some r /\ f r = true.
Proof.
  intros A f l x Hx. induction l as [ | a l IH]; simpl.
  - rewrite Hx. eauto.
  - destruct (f a) eqn:Ha; eauto.
Qed.

Lemma find_map_stable : forall (A : Type) (p : A -> bool) (g : A -> A) (l : list A),
  (forall a, p (g a) = p a) -> find p (map g l) = option_map g (find p l).
Proof.
  intros A p g l Hg. induction l as [ | a l IH]; simpl; [reflexivity | ].
  rewrite Hg. destruct (p a); [reflexivity | exact IH].
Qed.

Section MoreProperties.

Context {jwt : JwtLib} {enc : Encryption}.
Variable config : Config.

Lemma verifyToken_read_only : forall tok ty, read_only (verifyToken config tok ty).
Proof.
  intros tok ty. unfold verifyToken. apply read_only_bind.
  - intro w. now rewrite jwt_verify_pure.
  - intro p. apply read_only_bind; [now apply read_only_query | ].
    intros [r | ] w; reflexivity.
Qed.

(** What a successful [verifyToken] tells, under any outage schedule. *)
Lemma verifyToken_ok_inv : forall tok ty w row,
  fst (verifyToken config tok ty w) = Ok row ->
  exists p,
    jwt_parse tok = Some p /\
    jwt_signed tok (jwt_secret config) = true /\
    unix (now w) < exp p /\
    find (where_token_type_user_blacklisted tok ty (sub p)) (tokens (db w)) = Some row.
Proof.
  intros tok ty w row. unfold verifyToken, bind.
  destruct (jwt_verify tok (jwt_secret config) w) as [[p | e] w'] eqn:Hv; [ | discriminate].
  apply jwt_verify_ok_inv in Hv. destruct Hv as (Hp & Hs & Hlt & ->).
  destruct (query_cases (tokens_first (where_token_type_user_blacklisted tok ty (sub p))) w)
    as [(w' & -> & _) | (w' & -> & _)]; [discriminate | ].
  unfold tokens_first at 1. simpl fst.
  destruct (find (where_token_type_user_blacklisted tok ty (sub p)) (tokens (db w)))
    as [r | ] eqn:Hf; simpl; [ | discriminate].
  intro H. injection H as ->. exists p. auto.
Qed.

(** [verifyToken] against a store that answers, forwards. *)
Lemma verifyToken_up : forall tok ty d n p row,
  jwt_parse tok = Some p ->
  jwt_signed tok (jwt_secret config) = true ->
  unix n < exp p ->
  find (where_token_type_user_blacklisted tok ty (sub p)) (tokens d) = Some row ->
  verifyToken config tok ty {| db := d; now := n; outages := [] |} =
  (Ok row, {| db := d; now := n; outages := [] |}).
Proof.
  intros tok ty d n p row Hp Hs Hlt Hf. unfold verifyToken, bind, jwt_verify. simpl now.
  rewrite Hp, Hs. destruct (Z.geb_spec (unix n) (exp p)); [lia | ].
  rewrite tokens_first_up, Hf. reflexivity.
Qed.

Lemma verifyEmail_no_row : forall tok w,
  (forall p, jwt_parse tok = Some p ->
             find (where_token_type_user_blacklisted tok VERIFY_EMAIL (sub p))
               (tokens (db w)) = None) ->
  fst (verifyEmail config tok w) = Throw VerificationFailed.
Proof.
  intros tok w H.
  destruct (verifyToken_no_row config tok VERIFY_EMAIL w H) as (e & w' & Hv & _).
  unfold verifyEmail, try_catch, bind. rewrite Hv. reflexivity.
Qed.

(** In a well-formed ledger no row answers a token under a type other than
    the one in the token's claim set. *)
Lemma no_row_for_other_type : forall d tok p ty uid,
  ledger_well_formed d -> jwt_parse tok = Some p -> type p <> ty ->
  find (where_token_type_user_blacklisted tok ty uid) (tokens d) = None.
Proof.
  intros d tok p ty uid Hd Hp Hty. apply find_none_iff. intros r Hr.
  destruct (where_token_type_user_blacklisted tok ty uid r) eqn:Hw; [ | reflexivity].
  exfalso. apply where_token_type_user_blacklisted_spec in Hw.
  destruct Hw as (Htok & Hrty & _ & _).
  destruct (Hd r Hr) as (_ & _ & q & Hq & _ & Hqty & _).
  rewrite Htok, Hp in Hq. injection Hq as <-. congruence.
Qed.

(** X3. [verifyToken] never looks at the type in the claim set, only at the
    type column of the ledger: against a store that answers, it returns a row
    for a token and a type exactly when the token is signed with the key, not
    expired, and the row is the first non-blacklisted row of the ledger with
    that token string, that type in its type column and the token's subject
    as owner, whatever type the claim set carries.  Since the services keep
    the ledger well formed, a token is still accepted only for the purpose it
    was signed for: on a well-formed ledger refresh, password reset and
    e-mail verification each refuse a token whose claim set has another
    type, at any clock and under any outages. *)
Theorem token_accepted_only_for_its_purpose :
  forall (w : World) (tok : string) (p : Payload),
    jwt_parse tok = Some p ->
    (forall (ty : TokenType) (row : Token),
        outages w = [] ->
        (fst (verifyToken config tok ty w) = Ok row <->
         jwt_signed tok (jwt_secret config) = true /\
         unix (now w) < exp p /\
         find (where_token_type_user_blacklisted tok ty (sub p)) (tokens (db w)) =
           Some row)) /\
    (ledger_well_formed (db w) ->
     (type p <> REFRESH -> fst (refreshAuth config tok w) = Throw Unauthenticated) /\
     (type p <> RESET_PASSWORD ->
        forall pw, fst (resetPassword config tok pw w) = Throw ResetFailed) /\
     (type p <> VERIFY_EMAIL -> fst (verifyEmail config tok w) = Throw VerificationFailed)).
Proof.
  intros w tok p Hp. split.
  - intros ty row Ho. split.
    + intro Hv. destruct (verifyToken_ok_inv _ _ _ Hv) as (q & Hq & Hs & Hlt & Hf).
      rewrite Hp in Hq. injection Hq as <-. auto.
    + intros (Hs & Hlt & Hf). destruct w as [d n o]. cbn [outages db now] in *. subst o.
      now rewrite (verifyToken_up tok ty d n Hp Hs Hlt Hf).
  - intro Hw. split; [ | split].
    + intro Hty. apply refreshAuth_no_row. intros q Hq.
      now apply no_row_for_other_type with (p := p).
    + intros Hty pw. apply resetPassword_no_row. intros q Hq.
      now apply no_row_for_other_type with (p := p).
    + intro Hty. apply verifyEmail_no_row. intros q Hq.
      now apply no_row_for_other_type with (p := p).
Qed.

(** With pairwise different ids, deleting by the id of a row deletes that row
    and no other. *)
Lemma filter_id_removes_one : forall (l : list Token) (row : Token),
  NoDup (map t_id l) -> In row l ->
  (forall r, In r (filter (fun x => negb (where_id (t_id row) x)) l) <->
             In r l /\ r <> row) /\
  (S (List.length (filter (fun x => negb (where_id (t_id row) x)) l)) = List.length l)%nat.
Proof.
  intros l row. induction l as [ | a l IH]; intros Hnd Hin; [destruct Hin | ].
  simpl in Hnd. inversion Hnd as [ | x xs Hnin Hnd']; subst.
  assert (Hfresh : forall r, In r l -> t_id r <> t_id a).
  { intros r Hr E. apply Hnin. rewrite <- E. now apply in_map. }
  destruct Hin as [-> | Hin].
  - assert (Hself : where_id (t_id row) row = true) by apply Z.eqb_refl.
    assert (Hall : filter (fun x => negb (where_id (t_id row) x)) l = l).
    { clear IH Hnd Hnd' Hnin. induction l as [ | b l IHl]; simpl; [reflexivity | ].
      assert (Hb : where_id (t_id row) b = false).
      { apply Z.eqb_neq. apply Hfresh. now left. }
      rewrite Hb. simpl. rewrite IHl; [reflexivity | ].
      intros r Hr. apply Hfresh. now right. }
    simpl. rewrite Hself. simpl. rewrite Hall. split; [ | reflexivity].
    intro r. split.
    + intro Hr. split; [now right | ]. intros ->. apply (Hfresh row Hr). reflexivity.
    + intros [[-> | Hr] Hne]; [contradiction | exact Hr].
  - destruct (IH Hnd' Hin) as [IHin IHlen].
    assert (Ha : where_id (t_id row) a = false).
    { apply Z.eqb_neq. intro E. apply (Hfresh row Hin). now symmetry. }
    simpl. rewrite Ha. simpl. split.
    + intro r. rewrite IHin. split.
      * intros [-> | [Hr Hne]]; [ | tauto]. split; [now left | ].
        intros ->. unfold where_id in Ha. rewrite Z.eqb_refl in Ha. discriminate.
      * intros [[-> | Hr] Hne]; [now left | right; tauto].
    + now rewrite IHlen.
Qed.

(** X4. With pairwise different ids in the ledger, a logout that finds the
    token deletes the row it found and no other: the ledger afterwards is the
    ledger before without that row, one row shorter. *)
Theorem logout_deletes_exactly_one_row :
  forall (w : World) (t : string) (row : Token),
    outages w = [] ->
    ledger_ids_fresh (db w) ->
    find (where_token_type_blacklisted t REFRESH) (tokens (db w)) = Some row ->
    exists w1,
      logout t w = (Ok tt, w1) /\
      (forall r, In r (tokens (db w1)) <-> In r (tokens (db w)) /\ r <> row) /\
      (S (List.length (tokens (db w1))) = List.length (tokens (db w)))%nat /\
      users (db w1) = users (db w).
Proof.
  intros [d n o] t row Ho [Hnd _] Hf. simpl in *. subst o.
  destruct (find_some _ _ Hf) as [Hin _].
  destruct (filter_id_removes_one _ _ Hnd Hin) as [Hrows Hlen].
  destruct (tokens_del_fields (where_id (t_id row)) d) as (Hus & Hts & _).
  eexists. split; [ | split; [ | split]].
  - unfold logout, bind. rewrite tokens_first_up, Hf. rewrite tokens_del_up. reflexivity.
  - cbn [db]. rewrite Hts. exact Hrows.
  - cbn [db]. rewrite Hts. exact Hlen.
  - exact Hus.
Qed.

(** X5. With pairwise different ids in the ledger, a refresh that succeeds
    replaces the row it matched by the row of the new refresh token and
    touches no other row: the ledger keeps its length. *)
Theorem refreshAuth_replaces_exactly_one_row :
  forall (w : World) (t : string) (row : Token),
    outages w = [] ->
    ledger_ids_fresh (db w) ->
    fst (verifyToken config t REFRESH w) = Ok row ->
    exists w1,
      let fresh_row := refresh_row config (t_user_id row) (now w) (tokens_seq (db w)) in
      refreshAuth config t w = (Ok (minted_pair config (t_user_id row) (now w)), w1) /\
      (forall r, In r (tokens (db w1)) <->
                 (In r (tokens (db w)) /\ r <> row) \/ r = fresh_row) /\
      List.length (tokens (db w1)) = List.length (tokens (db w)) /\
      ~ In fresh_row (tokens (db w)).
Proof.
  intros [d n o] t row Ho [Hnd Hlt] Hv. simpl in *. subst o.
  destruct (verifyToken_up_inv _ _ _ _ _ Hv) as (p & _ & _ & _ & Hf & _).
  destruct (find_some _ _ Hf) as [Hin _].
  destruct (filter_id_removes_one _ _ Hnd Hin) as [Hrows Hlen].
  destruct (refreshAuth_up_run config t d n Hv) as (d2 & Hrun & _ & Hts & _).
  exists {| db := d2; now := n; outages := [] |}. cbn [db]. rewrite Hts.
  split; [exact Hrun | split; [ | split]].
  - intro r. rewrite in_app_iff, Hrows. simpl. intuition congruence.
  - rewrite length_app. simpl. rewrite <- Hlen. lia.
  - intro Hnew. specialize (Hlt _ Hnew). simpl in Hlt. lia.
Qed.

(** The only errors [generateAuthTokens] throws are those of the store. *)
Lemma generateAuthTokens_throws_only_store_errors : forall uid w e,
  fst (generateAuthTokens config uid w) = Throw e -> e = StoreError \/ e = ForeignKeyError.
Proof.
  intros uid w e.
  change (generateAuthTokens config uid w) with
    (bind (saveToken (token (minted_refresh config uid (now w))) uid
             (expires (minted_refresh config uid (now w))) REFRESH false)
          (fun _ => ret (minted_pair config uid (now w))) w).
  unfold bind at 1, saveToken, bind.
  match goal with |- context [query ?f w] =>
    destruct (query_cases f w) as [(w' & -> & _) | (w' & -> & _)] end.
  - cbn [fst]. intro H. left. congruence.
  - destruct (tokens_insert_fields (token (minted_refresh config uid (now w))) uid
                (expires (minted_refresh config uid (now w))) REFRESH false (now w) (db w))
      as (Hfst & _).
    rewrite Hfst. destruct (has_user uid (db w)); cbn; [discriminate | ].
    intro H. right. congruence.
Qed.

Lemma refreshAuth_Unauthenticated_writes_nothing : forall t w w',
  refreshAuth config t w = (Throw Unauthenticated, w') -> db w' = db w.
Proof.
  intros t w w'. pose proof (verifyToken_read_only t REFRESH w) as Hro.
  unfold refreshAuth, bind at 1, try_catch, bind at 1.
  destruct (verifyToken config t REFRESH w) as [[row | e] w1]; simpl in Hro.
  - unfold bind at 1.
    destruct (query_cases (tokens_del (where_id (t_id row))) w1)
      as [(w2 & -> & Hd2 & _) | (w2 & -> & Hd2 & _)].
    + unfold throw. intro H. injection H as <-. congruence.
    + unfold ret. intro H.
      assert (Hf : fst (generateAuthTokens config (t_user_id row) w2) = Throw Unauthenticated)
        by now rewrite H.
      apply generateAuthTokens_throws_only_store_errors in Hf.
      destruct Hf as [Hf | Hf]; discriminate Hf.
  - unfold throw. intro H. injection H as <-. exact Hro.
Qed.

(** X6. Failures that write nothing.  Login never writes.  A logout that
    throws, whatever the error, leaves the store as it was.  A refresh that
    fails with 401 'Please authenticate' leaves the store as it was: the old
    row is still there. *)
Theorem failures_that_write_nothing :
  forall (w : World) (t : string),
    (forall email pw, db (snd (loginUserWithEmailAndPassword email pw w)) = db w) /\
    (forall e, fst (logout t w) = Throw e -> db (snd (logout t w)) = db w) /\
    (fst (refreshAuth config t w) = Throw Unauthenticated ->
     db (snd (refreshAuth config t w)) = db w).
Proof.
  intros w t. split; [ | split].
  - intros email pw. unfold loginUserWithEmailAndPassword, getUserByEmail.
    apply read_only_bind; [now apply read_only_query | ].
    intros [u | ] w0; [ | reflexivity].
    destruct (negb (isPasswordMatch pw (u_password u))); reflexivity.
  - intro e. unfold logout, bind.
    destruct (query_cases (tokens_first (where_token_type_blacklisted t REFRESH)) w)
      as [(w1 & -> & Hd1 & _) | (w1 & -> & Hd1 & _)]; [intros _; exact Hd1 | ].
    unfold tokens_first. simpl fst. simpl in Hd1.
    destruct (find (where_token_type_blacklisted t REFRESH) (tokens (db w))) as [r | ];
      cbn [fst snd]; [ | intros _; exact Hd1].
    destruct (query_cases (tokens_del (where_id (t_id r))) w1)
      as [(w2 & -> & Hd2 & _) | (w2 & -> & Hd2 & _)]; simpl.
    + intros _. congruence.
    + discriminate.
  - destruct (refreshAuth config t w) as [r w'] eqn:Hrun. simpl. intros ->.
    now apply refreshAuth_Unauthenticated_writes_nothing with (t := t).
Qed.

(** X8. Password reset is not atomic.  When the store fails at the last step,
    the purge of the reset tokens, the caller is told 401 'Password reset
    failed', yet the password has been changed and no ledger row has been
    deleted: the same token verifies again. *)
Theorem resetPassword_fails_after_changing_password :
  forall (d : Db) (n : Z) (o : list bool) (t newPassword : string) (row : Token) (user : User),
    fst (verifyToken config t RESET_PASSWORD {| db := d; now := n; outages := [] |}) = Ok row ->
    find (fun u => u_id u =? t_user_id row) (users d) = Some user ->
    exists w1,
      resetPassword config t newPassword
        {| db := d; now := n; outages := false :: false :: false :: false :: true :: o |} =
        (Throw ResetFailed, w1) /\
      users (db w1) =
        map (fun u => if u_id u =? u_id user
                      then apply_update (only_password (encryptPassword newPassword)) u
                      else u) (users d) /\
      tokens (db w1) = tokens d /\
      fst (verifyToken config t RESET_PASSWORD (later w1 n [])) = Ok row.
Proof.
  intros d n o t newPassword row user Hv Hu.
  destruct (verifyToken_up_inv _ _ _ _ _ Hv) as (p & Hp & Hs & Hlt & Hf & _).
  destruct (find_some _ _ Hu) as [_ Huid]. apply Z.eqb_eq in Huid.
  assert (Hu' : find (fun u => u_id u =? u_id user) (users d) = Some user)
    by (rewrite Huid; exact Hu).
  destruct (users_update_fields (t_user_id row) (only_password (encryptPassword newPassword)) d)
    as (Hus & Hts & _).
  exists {| db := snd (users_update (t_user_id row)
                         (only_password (encryptPassword newPassword)) d);
            now := n; outages := o |}.
  split; [ | split; [ | split]].
  - unfold resetPassword, try_catch, verifyToken, updateUserById, getUserById, bind,
      jwt_verify, query, tokens_first, users_first, ret, throw.
    cbn [now db outages fst snd]. rewrite Hp, Hs.
    destruct (Z.geb_spec (unix n) (exp p)); [lia | ].
    cbn [now db outages fst snd]. rewrite Hf. cbn [now db outages fst snd]. rewrite Hu.
    cbn [now db outages fst snd upd_email only_password]. rewrite Huid, Hu.
    cbn [now db outages fst snd].
    destruct (users_update (t_user_id row) (only_password (encryptPassword newPassword)) d).
    reflexivity.
  - cbn [db]. rewrite Hus, Huid. reflexivity.
  - exact Hts.
  - unfold later. cbn [db]. rewrite <- Hts in Hf.
    erewrite verifyToken_up; [reflexivity | exact Hp | exact Hs | exact Hlt | exact Hf].
Qed.

(** ** Issue, then use *)

Lemma find_app_none : forall (A : Type) (f : A -> bool) (l : list A) (x : A),
  find f l = None -> find f (l ++ [x]) = if f x then Some x else None.
Proof.
  intros A f l x. induction l as [ | a l IH]; simpl; [reflexivity | ].
  destruct (f a); [discriminate | exact IH].
Qed.

Lemma generateVerifyEmailToken_up : forall uid d n,
  has_user uid d = true ->
  let e := add_minutes n (verifyEmailExpirationMinutes config) in
  let tok := jwt_sign {| sub := uid; iat := unix n; exp := unix e; type := VERIFY_EMAIL |}
               (jwt_secret config) in
  generateVerifyEmailToken config uid {| db := d; now := n; outages := [] |} =
  (Ok tok,
   {| db := snd (tokens_insert tok uid e VERIFY_EMAIL false n d); now := n; outages := [] |}).
Proof.
  intros uid d n Hu e tok.
  change ((saveToken tok uid e VERIFY_EMAIL false ;;; ret tok)
            {| db := d; now := n; outages := [] |} =
          (Ok tok, {| db := snd (tokens_insert tok uid e VERIFY_EMAIL false n d);
                      now := n; outages := [] |})).
  unfold bind. rewrite saveToken_user_up by exact Hu. reflexivity.
Qed.

(** A token that was just signed and stored for a user of the store
    verifies, at any clock before the expiry second, whatever else the
    ledger holds. *)
Lemma verifyToken_after_insert : forall p e c n d ty uid,
  sub p = uid -> type p = ty -> unix c < exp p -> has_user uid d = true ->
  exists r,
    verifyToken config (jwt_sign p (jwt_secret config)) ty
      {| db := snd (tokens_insert (jwt_sign p (jwt_secret config)) uid e ty false n d);
         now := c; outages := [] |} =
    (Ok r, {| db := snd (tokens_insert (jwt_sign p (jwt_secret config)) uid e ty false n d);
              now := c; outages := [] |}) /\
    t_user_id r = uid.
Proof.
  intros p e c n d ty uid Hsub Hty Hlt Hu.
  set (tok := jwt_sign p (jwt_secret config)).
  set (row := {| t_id := tokens_seq d; t_token := tok; t_type := ty; t_expires := e;
                 t_blacklisted := false; t_created_at := n; t_user_id := uid |}).
  assert (Hrow : where_token_type_user_blacklisted tok ty (sub p) row = true).
  { apply where_token_type_user_blacklisted_spec. simpl. auto. }
  destruct (find_app_last (where_token_type_user_blacklisted tok ty (sub p)) (tokens d) row Hrow)
    as (r & Hf & Hr).
  destruct (tokens_insert_fields tok uid e ty false n d) as (_ & _ & Hts & _).
  rewrite Hu in Hts. fold row in Hts. rewrite <- Hts in Hf.
  exists r. split.
  - apply verifyToken_up with (p := p); trivial.
    + apply jwt_parse_sign.
    + apply jwt_signed_sign.
  - apply where_token_type_user_blacklisted_spec in Hr. destruct Hr as (_ & _ & Hu' & _).
    congruence.
Qed.

(** A token whose expiry second the clock has reached is refused by refresh
    and by e-mail verification, under any outages. *)
Lemma expired_is_refused : forall t p w,
  jwt_parse t = Some p -> exp p <= unix (now w) ->
  fst (refreshAuth config t w) = Throw Unauthenticated /\
  fst (verifyEmail config t w) = Throw VerificationFailed /\
  forall pw, fst (resetPassword config t pw w) = Throw ResetFailed.
Proof.
  intros t p w Hp Hexp.
  assert (Hv : forall ty, exists e, verifyToken config t ty w = (Throw e, w)).
  { intro ty. unfold verifyToken, bind, jwt_verify. rewrite Hp.
    destruct (jwt_signed t (jwt_secret config)); [ | eauto].
    destruct (Z.geb_spec (unix (now w)) (exp p)); [eauto | lia]. }
  split; [ | split; [ | intro pw]].
  - destruct (Hv REFRESH) as [e He].
    unfold refreshAuth, bind at 1, try_catch, bind at 1. now rewrite He.
  - destruct (Hv VERIFY_EMAIL) as [e He].
    unfold verifyEmail, try_catch, bind at 1. now rewrite He.
  - destruct (Hv RESET_PASSWORD) as [e He].
    unfold resetPassword, try_catch, bind at 1. now rewrite He.
Qed.

(** X9. E-mail verification with a token that verifies, for a user the store
    knows, succeeds: it sets the verified flag of that user and changes
    nothing else in the users, deletes every VERIFY_EMAIL row of that user
    and keeps every other row of the ledger. *)
Theorem verifyEmail_marks_owner_verified :
  forall (w : World) (t : string) (row : Token) (user : User),
    outages w = [] ->
    fst (verifyToken config t VERIFY_EMAIL w) = Ok row ->
    find (fun u => u_id u =? t_user_id row) (users (db w)) = Some user ->
    exists w1,
      verifyEmail config t w = (Ok tt, w1) /\
      users (db w1) =
        map (fun u => if u_id u =? t_user_id row
                      then apply_update (only_is_email_verified true) u else u)
          (users (db w)) /\
      (forall u, In u (users (db w1)) -> u_id u = t_user_id row ->
                 u_is_email_verified u = true) /\
      (forall r, In r (tokens (db w1)) <->
                 In r (tokens (db w)) /\
                 ~ (t_user_id r = t_user_id row /\ t_type r = VERIFY_EMAIL)).
Proof.
  intros [d n o] t row user Ho Hv Hu. simpl in Ho, Hu. subst o. cbn [db].
  destruct (verifyEmail_up_run config t d n Hv Hu) as (d2 & Hrun & Hus & Hts & _).
  exists {| db := d2; now := n; outages := [] |}. cbn [db]. rewrite Hus, Hts.
  split; [exact Hrun | split; [reflexivity | split]].
  - intros u Hin Hid. apply in_map_iff in Hin. destruct Hin as (u0 & Heq & _).
    destruct (Z.eqb_spec (u_id u0) (t_user_id row)) as [E | E]; subst u;
      [reflexivity | contradiction].
  - intro r. rewrite filter_In, negb_true_iff, <- not_true_iff_false, where_user_type_spec.
    tauto.
Qed.

(** X10. A verification token issued for a user the store knows verifies the
    e-mail of that user at every clock before the expiry second, and is
    refused from the expiry second on. *)
Theorem verifyEmail_token_round_trip :
  forall (w : World) (uid : Z) (user : User),
    outages w = [] ->
    find (fun u => u_id u =? uid) (users (db w)) = Some user ->
    exists tok w1,
      generateVerifyEmailToken config uid w = (Ok tok, w1) /\
      (forall c, unix c < unix (add_minutes (now w) (verifyEmailExpirationMinutes config)) ->
         exists w2,
           verifyEmail config tok (later w1 c []) = (Ok tt, w2) /\
           (forall u, In u (users (db w2)) -> u_id u = uid -> u_is_email_verified u = true) /\
           (forall r, In r (tokens (db w2)) -> t_user_id r = uid -> t_type r <> VERIFY_EMAIL)) /\
      (forall c o, unix (add_minutes (now w) (verifyEmailExpirationMinutes config)) <= unix c ->
         fst (verifyEmail config tok (later w1 c o)) = Throw VerificationFailed).
Proof.
  intros [d n o] uid user Ho Hu. simpl in Ho, Hu. subst o. cbn [db now].
  assert (Hhas : has_user uid d = true) by (apply has_user_find; eauto).
  set (e := add_minutes n (verifyEmailExpirationMinutes config)).
  set (p := {| sub := uid; iat := unix n; exp := unix e; type := VERIFY_EMAIL |}).
  set (d1 := snd (tokens_insert (jwt_sign p (jwt_secret config)) uid e VERIFY_EMAIL false n d)).
  assert (Hus1 : users d1 = users d)
    by exact (proj1 (proj2 (tokens_insert_fields _ uid e VERIFY_EMAIL false n d))).
  exists (jwt_sign p (jwt_secret config)), {| db := d1; now := n; outages := [] |}.
  split; [exact (generateVerifyEmailToken_up uid d n Hhas) | ]. split.
  - intros c Hc. unfold later. cbn [db].
    destruct (verifyToken_after_insert p e c n d (ty := VERIFY_EMAIL) (uid := uid)
                eq_refl eq_refl Hc Hhas) as (r & Hrun & Hr).
    fold d1 in Hrun.
    assert (Hv : fst (verifyToken config (jwt_sign p (jwt_secret config)) VERIFY_EMAIL
                        {| db := d1; now := c; outages := [] |}) = Ok r) by now rewrite Hrun.
    assert (Hur : find (fun u => u_id u =? t_user_id r) (users d1) = Some user)
      by (rewrite Hus1, Hr; exact Hu).
    destruct (verifyEmail_up_run config _ d1 c Hv Hur) as (d2 & Hrun2 & Hus & Hts & _).
    exists {| db := d2; now := c; outages := [] |}. cbn [db]. rewrite Hus, Hts, Hr.
    split; [exact Hrun2 | split].
    + intros u Hin Hid. apply in_map_iff in Hin. destruct Hin as (u0 & Heq & _).
      destruct (Z.eqb_spec (u_id u0) uid) as [E | E]; subst u;
        [reflexivity | contradiction].
    + intros x Hx Hid Hty. apply filter_In in Hx. destruct Hx as [_ Hn].
      assert (Hm : where_user_type uid VERIFY_EMAIL x = true)
        by (apply where_user_type_spec; tauto).
      rewrite Hm in Hn. discriminate.
  - intros c o Hc. eapply expired_is_refused; [apply jwt_parse_sign | exact Hc].
Qed.

(** [verifyToken] when the store answers its lookup and more queries follow. *)
Lemma verifyToken_answers : forall tok ty d n o p row,
  jwt_parse tok = Some p ->
  jwt_signed tok (jwt_secret config) = true ->
  unix n < exp p ->
  find (where_token_type_user_blacklisted tok ty (sub p)) (tokens d) = Some row ->
  verifyToken config tok ty {| db := d; now := n; outages := false :: o |} =
  (Ok row, {| db := d; now := n; outages := o |}).
Proof.
  intros tok ty d n o p row Hp Hs Hlt Hf. unfold verifyToken, bind, jwt_verify. simpl now.
  rewrite Hp, Hs. destruct (Z.geb_spec (unix n) (exp p)); [lia | ].
  rewrite query_answers. unfold tokens_first. cbn [fst snd]. rewrite Hf. reflexivity.
Qed.

(** X19. The owner of a token that verifies is a user of the store: the
    foreign key of the ledger gives every row a user, and the cascade takes
    the rows of a deleted user with it.  So e-mail verification with a token
    that verifies, against a store that answers, never fails for want of the
    owner: it succeeds. *)
Theorem verifyEmail_finds_the_owner :
  forall (w : World) (t : string) (row : Token),
    outages w = [] ->
    fst (verifyToken config t VERIFY_EMAIL w) = Ok row ->
    (exists user, find (fun u => u_id u =? t_user_id row) (users (db w)) = Some user) /\
    fst (verifyEmail config t w) = Ok tt.
Proof.
  intros [d n o] t row Ho Hv. cbn [outages] in Ho. subst o.
  destruct (verified_token_has_owner config t VERIFY_EMAIL _ Hv) as [user Hu].
  cbn [db] in *. split; [eauto | ].
  destruct (verifyEmail_up_run config t d n Hv Hu) as (d2 & Hrun & _).
  now rewrite Hrun.
Qed.

(** X20. E-mail verification is not atomic.  It deletes the VERIFY_EMAIL rows
    of the owner before it updates the user; when the store fails after the
    purge, at the lookup of the user or at the update itself, the caller is
    told 401 'Email verification failed', the flag of the user is not set,
    yet the rows are gone, and the token is refused from then on. *)
Theorem verifyEmail_fails_after_purging :
  forall (d : Db) (n : Z) (o sched : list bool) (t : string) (row : Token),
    fst (verifyToken config t VERIFY_EMAIL {| db := d; now := n; outages := [] |}) = Ok row ->
    sched = false :: false :: true :: o \/ sched = false :: false :: false :: true :: o ->
    exists w1,
      verifyEmail config t {| db := d; now := n; outages := sched |} =
        (Throw VerificationFailed, w1) /\
      users (db w1) = users d /\
      tokens (db w1) =
        filter (fun r => negb (where_user_type (t_user_id row) VERIFY_EMAIL r)) (tokens d) /\
      (forall c o', fst (verifyEmail config t (later w1 c o')) = Throw VerificationFailed).
Proof.
  intros d n o sched t row Hv Hs.
  destruct (verifyToken_up_inv _ _ _ _ _ Hv) as (p & Hp & Hsig & Hlt & Hf & _).
  destruct (find_some _ _ Hf) as [_ Hrow].
  apply where_token_type_user_blacklisted_spec in Hrow. destruct Hrow as (_ & _ & Huid & _).
  destruct (verified_token_has_owner config t VERIFY_EMAIL _ Hv) as [user Hu].
  cbn [db] in Hu.
  destruct (tokens_del_fields (where_user_type (t_user_id row) VERIFY_EMAIL) d)
    as (Hus & Hts & _).
  exists {| db := snd (tokens_del (where_user_type (t_user_id row) VERIFY_EMAIL) d);
            now := n; outages := o |}.
  cbn [db]. split; [ | split; [exact Hus | split; [exact Hts | ]]].
  - unfold verifyEmail, try_catch, updateUserById, getUserById, bind.
    destruct Hs as [-> | ->];
      rewrite (verifyToken_answers t VERIFY_EMAIL d n _ Hp Hsig Hlt Hf);
      rewrite query_answers; cbn [fst snd].
    + rewrite query_down. reflexivity.
    + rewrite query_answers. unfold users_first at 1. cbn [fst snd]. rewrite Hus, Hu.
      cbn [upd_email only_is_email_verified ret]. rewrite query_down. reflexivity.
  - intros c o'. apply verifyEmail_no_row. intros q Hq.
    rewrite Hp in Hq. injection Hq as <-. unfold later. cbn [db]. rewrite Hts.
    apply find_none_iff. intros x Hx.
    destruct (where_token_type_user_blacklisted t VERIFY_EMAIL (sub p) x) eqn:Hw;
      [ | reflexivity].
    exfalso. apply filter_In in Hx. destruct Hx as [_ Hn].
    apply where_token_type_user_blacklisted_spec in Hw. destruct Hw as (_ & H2 & H3 & _).
    assert (Hm : where_user_type (t_user_id row) VERIFY_EMAIL x = true)
      by (apply where_user_type_spec; split; congruence).
    rewrite Hm in Hn. discriminate.
Qed.

(** X11. The password-reset flow end to end.  A reset token requested for the
    e-mail of a known user resets the password at every clock before the
    expiry second, after which login with that e-mail and the new password
    succeeds and returns the user without the password; from the expiry
    second on the token is refused. *)
Theorem password_reset_round_trip :
  forall (w : World) (email newPassword : string) (user : User),
    outages w = [] ->
    find (fun u => (u_email u =? email)%string) (users (db w)) = Some user ->
    find (fun u => u_id u =? u_id user) (users (db w)) = Some user ->
    exists tok w1,
      generateResetPasswordToken config email w = (Ok tok, w1) /\
      (forall c, unix c < unix (add_minutes (now w) (resetPasswordExpirationMinutes config)) ->
         exists w2,
           resetPassword config tok newPassword (later w1 c []) = (Ok tt, w2) /\
           loginUserWithEmailAndPassword email newPassword w2 =
             (Ok (exclude_password
                    (apply_update (only_password (encryptPassword newPassword)) user)), w2)) /\
      (forall c o, unix (add_minutes (now w) (resetPasswordExpirationMinutes config)) <= unix c ->
         fst (resetPassword config tok newPassword (later w1 c o)) = Throw ResetFailed).
Proof.
  intros [d n o] email newPassword user Ho Hemail Hid. simpl in Ho, Hemail, Hid. subst o.
  cbn [db now].
  assert (Hhas : has_user (u_id user) d = true) by exact (found_has_user _ _ Hemail).
  set (e := add_minutes n (resetPasswordExpirationMinutes config)).
  set (p := {| sub := u_id user; iat := unix n; exp := unix e; type := RESET_PASSWORD |}).
  set (d1 := snd (tokens_insert (jwt_sign p (jwt_secret config)) (u_id user) e
                    RESET_PASSWORD false n d)).
  assert (Hus1 : users d1 = users d)
    by exact (proj1 (proj2 (tokens_insert_fields _ (u_id user) e RESET_PASSWORD false n d))).
  exists (jwt_sign p (jwt_secret config)), {| db := d1; now := n; outages := [] |}.
  split; [exact (generateResetPasswordToken_up config email d n Hemail) | ]. split.
  - intros c Hc. unfold later. cbn [db].
    destruct (verifyToken_after_insert p e c n d (ty := RESET_PASSWORD) (uid := u_id user)
                eq_refl eq_refl Hc Hhas) as (r & Hrun & Hr).
    fold d1 in Hrun.
    assert (Hv : fst (verifyToken config (jwt_sign p (jwt_secret config)) RESET_PASSWORD
                        {| db := d1; now := c; outages := [] |}) = Ok r) by now rewrite Hrun.
    assert (Hur : find (fun u => u_id u =? t_user_id r) (users d1) = Some user)
      by (rewrite Hus1, Hr; exact Hid).
    destruct (resetPassword_up_run config _ newPassword d1 c Hv Hur)
      as (d2 & Hrun2 & Hus & _).
    exists {| db := d2; now := c; outages := [] |}.
    split; [exact Hrun2 | ].
    unfold loginUserWithEmailAndPassword, bind. rewrite getUserByEmail_up.
    rewrite Hus, Hus1, find_map_stable, Hemail.
    + cbn [option_map]. rewrite Hr, Z.eqb_refl.
      change (u_password (apply_update (only_password (encryptPassword newPassword)) user))
        with (encryptPassword newPassword).
      rewrite isPasswordMatch_encrypt. reflexivity.
    + intro a. destruct (u_id a =? t_user_id r); reflexivity.
  - intros c o Hc. eapply expired_is_refused; [apply jwt_parse_sign | exact Hc].
Qed.

(** X12. For a user of the store, the refresh token [generateAuthTokens]
    returns is accepted by [refreshAuth] at every clock before its expiry
    second, which returns the pair minted at that clock for the same user,
    and is refused from the expiry second on. *)
Theorem refresh_token_round_trip :
  forall (w : World) (uid : Z) (user : User),
    outages w = [] ->
    find (fun u => u_id u =? uid) (users (db w)) = Some user ->
    exists w1,
      generateAuthTokens config uid w = (Ok (minted_pair config uid (now w)), w1) /\
      (forall c, unix c < unix (add_days (now w) (refreshExpirationDays config)) ->
         exists w2,
           refreshAuth config (token (refresh (minted_pair config uid (now w)))) (later w1 c []) =
           (Ok (minted_pair config uid c), w2)) /\
      (forall c o, unix (add_days (now w) (refreshExpirationDays config)) <= unix c ->
         fst (refreshAuth config (token (refresh (minted_pair config uid (now w))))
                (later w1 c o)) = Throw Unauthenticated).
Proof.
  intros [d n o] uid user Ho Hu. simpl in Ho, Hu. subst o. cbn [db now].
  assert (Hhas : has_user uid d = true) by (apply has_user_find; eauto).
  pose (p := {| sub := uid; iat := unix n;
                exp := unix (add_days n (refreshExpirationDays config));
                type := REFRESH |}).
  eexists. split; [rewrite generateAuthTokens_up, Hhas; reflexivity | ]. split.
  - intros c Hc. unfold later. cbn [db].
    destruct (verifyToken_after_insert p (add_days n (refreshExpirationDays config)) c n d
                (ty := REFRESH) (uid := uid) eq_refl eq_refl Hc Hhas) as (r & Hrun & Hr).
    change (token (refresh (minted_pair config uid n))) with (jwt_sign p (jwt_secret config)).
    change (token (minted_refresh config uid n)) with (jwt_sign p (jwt_secret config)).
    change (expires (minted_refresh config uid n))
      with (add_days n (refreshExpirationDays config)).
    match type of Hrun with _ = (_, ?w1) =>
      assert (Hv : fst (verifyToken config (jwt_sign p (jwt_secret config)) REFRESH w1) = Ok r)
        by now rewrite Hrun end.
    destruct (refreshAuth_up_run config _ _ c Hv) as (d2 & Hrun2 & _).
    rewrite Hr in Hrun2. eexists. exact Hrun2.
  - intros c o Hc.
    eapply expired_is_refused; [apply (jwt_parse_sign _ (jwt_secret config)) | exact Hc].
Qed.

(** X13. [createUser] refuses an e-mail that is taken with 400 'Email already
    taken' and writes nothing; otherwise it appends one user with the hash of
    the password, the given role or USER, and an unverified e-mail, leaves
    the ledger alone, and login with the same e-mail and password then
    succeeds. *)
Theorem createUser_then_login :
  forall (w : World) (newId : Z) (email pw : string) (nm : option string)
         (role : option Role),
    outages w = [] ->
    match find (fun u => (u_email u =? email)%string) (users (db w)) with
    | Some _ => createUser newId email pw nm role w = (Throw EmailTaken, w)
    | None =>
        let u := {| u_id := newId; u_email := email; u_name := nm;
                    u_password := encryptPassword pw; u_role := or_else role USER;
                    u_is_email_verified := false;
                    u_created_at := now w; u_updated_at := now w |} in
        exists w1,
          createUser newId email pw nm role w = (Ok u, w1) /\
          users (db w1) = (users (db w) ++ [u])%list /\
          tokens (db w1) = tokens (db w) /\
          loginUserWithEmailAndPassword email pw w1 = (Ok (exclude_password u), w1)
    end.
Proof.
  intros [d n o] newId email pw nm role Ho. simpl in Ho. subst o. simpl db; simpl now.
  destruct (find (fun u => (u_email u =? email)%string) (users d)) eqn:Hf.
  { unfold createUser, bind. now rewrite getUserByEmail_up, Hf. }
  destruct (users_insert_fields newId email nm (encryptPassword pw) (or_else role USER) n d)
    as (Hus & Hts & _).
  exists {| db := snd (users_insert newId email nm (encryptPassword pw)
                         (or_else role USER) n d);
            now := n; outages := [] |}.
  split.
  { unfold createUser, bind. rewrite getUserByEmail_up, Hf. cbn [now].
    rewrite query_up. reflexivity. }
  cbn [db].
  split; [exact Hus | split; [exact Hts | ]].
  unfold loginUserWithEmailAndPassword, bind. rewrite getUserByEmail_up.
  rewrite Hus. cbn [users_insert fst].
  rewrite find_app_none by exact Hf. cbn [u_email]. rewrite String.eqb_refl.
  cbn [u_password]. rewrite isPasswordMatch_encrypt. reflexivity.
Qed.

(** X14. [deleteUserById] answers 404 'User not found' for an unknown id and
    writes nothing; for a known id it returns the user, removes the users
    with that id and, by the cascade of the foreign key, every ledger row of
    that user, keeping the rows of the others; afterwards the id is unknown
    and no token of that user refreshes. *)
Theorem deleteUserById_cascades :
  forall (w : World) (uid : Z),
    outages w = [] ->
    match find (fun u => u_id u =? uid) (users (db w)) with
    | None => deleteUserById uid w = (Throw UserNotFound, w)
    | Some user =>
        exists w1,
          deleteUserById uid w = (Ok user, w1) /\
          find (fun u => u_id u =? uid) (users (db w1)) = None /\
          (forall u, In u (users (db w1)) <-> In u (users (db w)) /\ u_id u <> uid) /\
          (forall r, In r (tokens (db w1)) <-> In r (tokens (db w)) /\ t_user_id r <> uid) /\
          (forall t p c o, jwt_parse t = Some p -> sub p = uid ->
             fst (refreshAuth config t (later w1 c o)) = Throw Unauthenticated)
    end.
Proof.
  intros [d n o] uid Ho. simpl in Ho. subst o. simpl db.
  destruct (find (fun u => u_id u =? uid) (users d)) as [user | ] eqn:Hf.
  2: { unfold deleteUserById, bind. now rewrite getUserById_up, Hf. }
  destruct (find_some _ _ Hf) as [_ Huid]. apply Z.eqb_eq in Huid.
  destruct (users_del_fields (u_id user) d) as (Hus & Hts & _).
  exists {| db := snd (users_del (u_id user) d); now := n; outages := [] |}.
  split.
  { unfold deleteUserById, bind. rewrite getUserById_up, Hf, query_up. reflexivity. }
  cbn [db]. rewrite Huid in *. rewrite Hus, Hts.
  assert (Hrows : forall r, In r (filter (fun r => negb (t_user_id r =? uid)) (tokens d)) <->
                            In r (tokens d) /\ t_user_id r <> uid).
  { intro r. rewrite filter_In, negb_true_iff, Z.eqb_neq. tauto. }
  split; [ | split; [ | split; [exact Hrows | ]]].
  - apply find_none_iff. intros u Hu. apply filter_In in Hu.
    destruct Hu as [_ Hu]. now apply negb_true_iff in Hu.
  - intro u. rewrite filter_In, negb_true_iff, Z.eqb_neq. tauto.
  - intros t p c o Hp Hsub. apply refreshAuth_no_row. intros q Hq.
    rewrite Hp in Hq. injection Hq as <-. unfold later. cbn [db]. rewrite Hts.
    apply find_none_iff. intros r Hr. apply Hrows in Hr. destruct Hr as [_ Hr].
    destruct (where_token_type_user_blacklisted t REFRESH (sub p) r) eqn:Hw; [ | reflexivity].
    apply where_token_type_user_blacklisted_spec in Hw. exfalso. apply Hr.
    destruct Hw as (_ & _ & Hu & _). congruence.
Qed.

(** X15. What [updateUserById] refuses, writing nothing: an unknown id, with
    404 'User not found'; a non-empty new e-mail that some user already has,
    with 400 'Email already taken'.  The check does not leave out the user
    under update, so sending a user its own current e-mail is refused too. *)
Theorem updateUserById_refusals :
  forall (w : World) (uid : Z) (b : PartialUser),
    outages w = [] ->
    (find (fun u => u_id u =? uid) (users (db w)) = None ->
     updateUserById uid b w = (Throw UserNotFound, w)) /\
    (forall u e u',
        find (fun u => u_id u =? uid) (users (db w)) = Some u ->
        upd_email b = Some e -> e <> EmptyString ->
        find (fun x => (u_email x =? e)%string) (users (db w)) = Some u' ->
        updateUserById uid b w = (Throw EmailTaken, w)) /\
    (forall u,
        find (fun u => u_id u =? uid) (users (db w)) = Some u ->
        upd_email b = Some (u_email u) -> u_email u <> EmptyString ->
        updateUserById uid b w = (Throw EmailTaken, w)).
Proof.
  intros [d n o] uid b Ho. simpl in Ho. subst o. simpl db.
  assert (Htaken : forall u e u',
             find (fun u => u_id u =? uid) (users d) = Some u ->
             upd_email b = Some e -> e <> EmptyString ->
             find (fun x => (u_email x =? e)%string) (users d) = Some u' ->
             updateUserById uid b {| db := d; now := n; outages := [] |} =
             (Throw EmailTaken, {| db := d; now := n; outages := [] |})).
  { intros u e u' Hu He Hne Hu'. unfold updateUserById, bind at 1.
    rewrite getUserById_up, Hu, He. apply String.eqb_neq in Hne. rewrite Hne.
    unfold bind. rewrite getUserByEmail_up, Hu'. reflexivity. }
  split; [ | split].
  - intro Hu. unfold updateUserById, bind. now rewrite getUserById_up, Hu.
  - exact Htaken.
  - intros u Hu He Hne.
    destruct (find (fun x => (u_email x =? u_email u)%string) (users d)) as [u' | ] eqn:Hf.
    + exact (Htaken u (u_email u) u' Hu He Hne Hf).
    + destruct (find_some _ _ Hu) as [Hin _].
      pose proof (find_none _ _ Hf u Hin) as Hcontra. simpl in Hcontra.
      rewrite String.eqb_refl in Hcontra. discriminate.
Qed.

(** X16. The passport callback.  A claim set of any type but ACCESS is
    reported as an error without a look at the store; for an ACCESS claim set
    the user with the subject's id is handed on with id, e-mail and role
    only, an unknown subject gives [false], and a failure of the store is
    reported through [done], never thrown. *)
Theorem jwtVerify_outcomes :
  forall (w : World) (p : Payload),
    (type p <> ACCESS ->
     jwtVerify p w = (Ok (DoneError (PlainError "Invalid token type")), w)) /\
    (type p = ACCESS -> outages w = [] ->
     jwtVerify p w =
       (Ok match find (fun u => u_id u =? sub p) (users (db w)) with
           | None => DoneFalse
           | Some u => DoneUser {| au_id := u_id u; au_email := u_email u;
                                   au_role := u_role u |}
           end, w)) /\
    (type p = ACCESS -> forall o, outages w = true :: o ->
     fst (jwtVerify p w) = Ok (DoneError StoreError)) /\
    (exists done, fst (jwtVerify p w) = Ok done).
Proof.
  intros w p. split; [ | split; [ | split]].
  - intro Hty. unfold jwtVerify, try_catch.
    destruct (TokenType_eqb (type p) ACCESS) eqn:E;
      [apply TokenType_eqb_eq in E; contradiction | reflexivity].
  - intros Hty Ho. destruct w as [d n o]. simpl in Ho. subst o.
    unfold jwtVerify, try_catch, bind. rewrite Hty. cbn [TokenType_eqb negb].
    rewrite query_up. simpl.
    destruct (find (fun u => u_id u =? sub p) (users d)); reflexivity.
  - intros Hty o Ho. destruct w as [d n o']. simpl in Ho. subst o'.
    unfold jwtVerify, try_catch, bind. rewrite Hty. cbn [TokenType_eqb negb].
    rewrite query_down. reflexivity.
  - unfold jwtVerify, try_catch.
    match goal with |- context [match ?m w with _ => _ end] =>
      destruct (m w) as [[r | e] w'] end; simpl; eauto.
Qed.

(** X17. The access token is stateless.  Whatever the ledger holds, so also
    after a logout, the access token minted for a known user passes
    [jwt.verify] and the passport callback at every clock before its expiry
    second; the refresh token minted with it passes [jwt.verify] but not the
    callback. *)
Theorem access_token_authenticates :
  forall (w : World) (uid n : Z) (user : User),
    outages w = [] ->
    find (fun u => u_id u =? uid) (users (db w)) = Some user ->
    (unix (now w) < unix (add_minutes n (accessExpirationMinutes config)) ->
     exists p,
       jwt_verify (token (minted_access config uid n)) (jwt_secret config) w = (Ok p, w) /\
       jwtVerify p w =
         (Ok (DoneUser {| au_id := u_id user; au_email := u_email user;
                          au_role := u_role user |}), w)) /\
    (unix (now w) < unix (add_days n (refreshExpirationDays config)) ->
     exists p,
       jwt_verify (token (minted_refresh config uid n)) (jwt_secret config) w = (Ok p, w) /\
       jwtVerify p w = (Ok (DoneError (PlainError "Invalid token type")), w)).
Proof.
  intros [d m o] uid n user Ho Hu. simpl in Ho, Hu. subst o. simpl now. split.
  - intro Hlt. eexists. split.
    + unfold minted_access. simpl token. apply jwt_verify_sign. exact Hlt.
    + unfold jwtVerify, try_catch, bind, query, users_first. simpl.
      rewrite Hu. reflexivity.
  - intro Hlt. eexists. split.
    + unfold minted_refresh. simpl token. apply jwt_verify_sign. exact Hlt.
    + reflexivity.
Qed.

End MoreProperties.

(** X7. A refresh can lose the session.  When the store fails at the insert
    of the new refresh token, after the old row has been deleted, the caller
    gets the error of the store and no tokens; the old row is gone, and if it
    was the only row of the old token, the old token no longer refreshes. *)
Theorem refreshAuth_loses_session_when_issuance_fails :
  forall {jwt : JwtLib} (config : Config) (t : string) (row : Token) (d : Db) (n : Z)
         (o : list bool),
    fst (verifyToken config t REFRESH {| db := d; now := n; outages := [] |}) = Ok row ->
    exists w1,
      refreshAuth config t {| db := d; now := n; outages := false :: false :: true :: o |} =
        (Throw StoreError, w1) /\
      tokens (db w1) = filter (fun x => negb (where_id (t_id row) x)) (tokens d) /\
      ((forall x, In x (tokens d) ->
                  where_token_type_user_blacklisted t REFRESH (t_user_id row) x = true ->
                  t_id x = t_id row) ->
       forall c o', fst (refreshAuth config t (later w1 c o')) = Throw Unauthenticated).
Proof.
  intros jwt config t row d n o Hv.
  destruct (verifyToken_up_inv _ _ _ _ _ Hv) as (p & Hp & _ & _ & Hf & _).
  destruct (find_some _ _ Hf) as [_ Hrow].
  apply where_token_type_user_blacklisted_spec in Hrow. destruct Hrow as (_ & _ & Huid & _).
  destruct (set_tokens_filter d (fun x => negb (where_id (t_id row) x))) as (_ & Hts & _).
  eexists. split; [apply refreshAuth_issuance_failure_not_caught; exact Hv | ].
  cbn [db]. split; [exact Hts | ].
  intros Huniq c o'. apply refreshAuth_no_row. intros q Hq.
  rewrite Hp in Hq. injection Hq as <-. unfold later. cbn [db]. rewrite Hts.
  apply find_none_iff. intros x Hx.
  destruct (where_token_type_user_blacklisted t REFRESH (sub p) x) eqn:Hw; [ | reflexivity].
  exfalso. apply filter_In in Hx. destruct Hx as [Hx Hid].
  rewrite Huid in Huniq. specialize (Huniq x Hx Hw).
  unfold where_id in Hid. rewrite Huniq, Z.eqb_refl in Hid. discriminate.
Qed.

(** ** The password rule *)

Lemma matches_spec : forall (class : ascii -> bool) (s : string),
  Validation.matches class s = true <->
  exists c, In c (list_ascii_of_string s) /\ class c = true.
Proof.
  intros class s. induction s as [ | a s IH]; simpl.
  - split; [discriminate | intros (c & [] & _)].
  - rewrite orb_true_iff, IH. split.
    + intros [Ha | (c & Hc & Hcl)]; [exists a | exists c]; auto.
    + intros (c & [<- | Hc] & Hcl); [now left | right; eauto].
Qed.

(** X18. The password validator accepts a value exactly when it has at least
    8 characters, one of them a digit and one a letter, and returns it
    unchanged; a value shorter than 8 is reported as too short whatever it
    contains, and the validator never changes a value it accepts. *)
Theorem password_rule :
  forall (v : string),
    (Validation.password v = Validation.Value v <->
       (8 <= String.length v)%nat /\
       (exists c, In c (list_ascii_of_string v) /\ Validation.is_digit c = true) /\
       (exists c, In c (list_ascii_of_string v) /\ Validation.is_letter c = true)) /\
    (forall v', Validation.password v = Validation.Value v' -> v' = v) /\
    ((String.length v < 8)%nat ->
       Validation.password v =
       Validation.HelperError "password must be at least 8 characters").
Proof.
  intro v. unfold Validation.password.
  rewrite <- !matches_spec.
  destruct (Nat.ltb_spec (String.length v) 8) as [Hlt | Hge].
  - split; [ | split]; [ | discriminate | reflexivity].
    split; [discriminate | intros [H _]; lia].
  - destruct (Validation.matches Validation.is_digit v);
      destruct (Validation.matches Validation.is_letter v); simpl;
      (split; [ | split]; [ | try discriminate; congruence | intro; lia]);
      split; try discriminate; try tauto; intros (_ & H1 & H2); discriminate.
Qed.

(** ** The further theorems on the concrete worlds *)

Lemma after_two_logins_well_formed : ledger_well_formed (db Scenario.after_two_logins).
Proof.
  intros r [<- | [<- | []]];
    (split; [reflexivity | split; [discriminate | ]];
     eexists; split; [vm_compute; reflexivity | ];
     split; [reflexivity | split; [reflexivity | vm_compute; reflexivity]]).
Qed.

Lemma after_two_logins_ids_fresh : ledger_ids_fresh (db Scenario.after_two_logins).
Proof.
  split.
  - simpl. constructor; [intros [H | []]; discriminate H | ].
    constructor; [intros [] | constructor].
  - intros r [<- | [<- | []]]; simpl; lia.
Qed.

Lemma ledger_well_formed_is_kept_witness :
  let w := Scenario.after_two_logins in
  ledger_well_formed (db w) /\
  ledger_well_formed (db (snd (refreshAuth Scenario.config Scenario.issued w))) /\
  ledger_well_formed (db (snd (generateVerifyEmailToken Scenario.config 1 w))) /\
  ledger_well_formed
    (db (snd (saveToken (Scenario.reset_token Scenario.t0) 1
                (add_minutes Scenario.t0 10) RESET_PASSWORD false w))) /\
  outages w = [] /\
  has_user 1 (db w) = true /\
  ~ ledger_well_formed (db (snd (saveToken "x" 1 0 ACCESS false w))) /\
  ~ ledger_well_formed
      (db (snd (saveToken (Scenario.reset_token Scenario.t0) 1
                  (add_minutes Scenario.t0 10) RESET_PASSWORD true w))).
Proof.
  intro w.
  destruct (ledger_well_formed_is_kept Scenario.config) as (Hkept & Hsave & Hbreak).
  destruct Hkept as (_ & _ & Hverify & _ & _ & _ & Hrefresh & _).
  split; [exact after_two_logins_well_formed | ].
  split; [apply Hrefresh; exact after_two_logins_well_formed | ].
  split; [apply Hverify; exact after_two_logins_well_formed | ].
  split.
  { apply (Hsave {| sub := 1; iat := unix Scenario.t0;
                    exp := unix (add_minutes Scenario.t0 10); type := RESET_PASSWORD |}
             (jwt_secret Scenario.config) (add_minutes Scenario.t0 10)).
    - discriminate.
    - reflexivity.
    - exact after_two_logins_well_formed. }
  split; [reflexivity | split; [reflexivity | split]].
  - apply Hbreak; [reflexivity | reflexivity | left; reflexivity].
  - apply Hbreak; [reflexivity | reflexivity | right; reflexivity].
Defined.

Lemma ledger_ids_fresh_is_kept_witness :
  ledger_ids_fresh (db Scenario.after_two_logins) /\
  ledger_ids_fresh
    (db (snd (refreshAuth Scenario.config Scenario.issued Scenario.after_two_logins))) /\
  ledger_ids_fresh (db (snd (logout Scenario.issued Scenario.after_two_logins))).
Proof.
  destruct (ledger_ids_fresh_is_kept Scenario.config)
    as (_ & _ & _ & _ & _ & Hlogout & Hrefresh & _).
  split; [exact after_two_logins_ids_fresh | split].
  - apply Hrefresh. exact after_two_logins_ids_fresh.
  - apply Hlogout. exact after_two_logins_ids_fresh.
Defined.

Lemma token_accepted_only_for_its_purpose_witness :
  let w := Scenario.after_two_logins in
  let m := Scenario.mistyped in
  let p := {| sub := 1; iat := 1720000000; exp := 1722592000; type := REFRESH |} in
  jwt_parse Scenario.issued = Some p /\
  outages m = [] /\
  t_type Scenario.mistyped_row <> type p /\
  fst (verifyToken Scenario.config Scenario.issued RESET_PASSWORD m) =
    Ok Scenario.mistyped_row /\
  ledger_well_formed (db w) /\
  (exists r, fst (refreshAuth Scenario.config Scenario.issued w) = Ok r) /\
  fst (resetPassword Scenario.config Scenario.issued "newpass1" w) = Throw ResetFailed /\
  fst (verifyEmail Scenario.config Scenario.issued w) = Throw VerificationFailed.
Proof.
  intros w m p.
  assert (Hp : jwt_parse Scenario.issued = Some p) by (vm_compute; reflexivity).
  destruct (proj2 (token_accepted_only_for_its_purpose Scenario.config w Scenario.issued Hp)
              after_two_logins_well_formed) as (_ & Hreset & Hverify).
  split; [exact Hp | split; [reflexivity | split; [discriminate | split]]].
  - apply (proj1 (token_accepted_only_for_its_purpose Scenario.config m Scenario.issued Hp)
             RESET_PASSWORD Scenario.mistyped_row eq_refl).
    split; [vm_compute; reflexivity | split; [vm_compute; reflexivity | ]].
    vm_compute. reflexivity.
  - split; [exact after_two_logins_well_formed | split; [ | split]].
    + eexists. vm_compute. reflexivity.
    + apply Hreset. discriminate.
    + apply Hverify. discriminate.
Defined.

Lemma logout_deletes_exactly_one_row_witness :
  let w := Scenario.after_two_logins in
  let first := refresh_row Scenario.config 1 Scenario.t0 1 in
  let second := refresh_row Scenario.config 1 (Scenario.t0 + 300) 2 in
  outages w = [] /\
  ledger_ids_fresh (db w) /\
  find (where_token_type_blacklisted Scenario.issued REFRESH) (tokens (db w)) = Some first /\
  exists w1,
    logout Scenario.issued w = (Ok tt, w1) /\
    In second (tokens (db w1)) /\
    ~ In first (tokens (db w1)) /\
    List.length (tokens (db w1)) = 1%nat.
Proof.
  intros w first second.
  assert (Hf : find (where_token_type_blacklisted Scenario.issued REFRESH) (tokens (db w)) =
               Some first) by (vm_compute; reflexivity).
  destruct (logout_deletes_exactly_one_row w Scenario.issued eq_refl
              after_two_logins_ids_fresh Hf) as (w1 & Hrun & Hrows & Hlen & _).
  split; [reflexivity | split; [exact after_two_logins_ids_fresh | split; [exact Hf | ]]].
  exists w1. split; [exact Hrun | split; [ | split]].
  - apply Hrows. split; [right; left; reflexivity | discriminate].
  - intro H. apply Hrows in H. destruct H as [_ H]. now apply H.
  - simpl in Hlen. now injection Hlen.
Defined.

Lemma refreshAuth_replaces_exactly_one_row_witness :
  let w := Scenario.after_two_logins in
  let first := refresh_row Scenario.config 1 Scenario.t0 1 in
  let second := refresh_row Scenario.config 1 (Scenario.t0 + 300) 2 in
  outages w = [] /\
  ledger_ids_fresh (db w) /\
  fst (verifyToken Scenario.config Scenario.issued REFRESH w) = Ok first /\
  exists w1,
    refreshAuth Scenario.config Scenario.issued w =
      (Ok (minted_pair Scenario.config 1 (Scenario.t0 + 5000)), w1) /\
    In second (tokens (db w1)) /\
    ~ In first (tokens (db w1)) /\
    In (refresh_row Scenario.config 1 (Scenario.t0 + 5000) 3) (tokens (db w1)) /\
    List.length (tokens (db w1)) = 2%nat.
Proof.
  intros w first second.
  assert (Hv : fst (verifyToken Scenario.config Scenario.issued REFRESH w) = Ok first)
    by (vm_compute; reflexivity).
  destruct (refreshAuth_replaces_exactly_one_row Scenario.config w Scenario.issued eq_refl
              after_two_logins_ids_fresh Hv) as (w1 & Hrun & Hrows & Hlen & _).
  split; [reflexivity | split; [exact after_two_logins_ids_fresh | split; [exact Hv | ]]].
  exists w1. split; [exact Hrun | split; [ | split; [ | split]]].
  - apply Hrows. left. split; [right; left; reflexivity | discriminate].
  - intro H. apply Hrows in H. destruct H as [[_ H] | H]; [now apply H | discriminate H].
  - apply Hrows. right. reflexivity.
  - exact Hlen.
Defined.

Lemma failures_that_write_nothing_witness :
  let w := Scenario.world [Scenario.alice] [refresh_row Scenario.config 1 Scenario.t0 1] 2
             1722592000000 [false; true] in
  fst (logout Scenario.issued w) = Throw StoreError /\
  db (snd (logout Scenario.issued w)) = db w /\
  fst (refreshAuth Scenario.config Scenario.issued w) = Throw Unauthenticated /\
  db (snd (refreshAuth Scenario.config Scenario.issued w)) = db w.
Proof.
  intro w.
  destruct (failures_that_write_nothing Scenario.config w Scenario.issued)
    as (_ & Hlogout & Hrefresh).
  assert (H1 : fst (logout Scenario.issued w) = Throw StoreError)
    by (vm_compute; reflexivity).
  assert (H2 : fst (refreshAuth Scenario.config Scenario.issued w) = Throw Unauthenticated)
    by (vm_compute; reflexivity).
  split; [exact H1 | split; [exact (Hlogout _ H1) | split; [exact H2 | exact (Hrefresh H2)]]].
Defined.

Lemma refreshAuth_loses_session_when_issuance_fails_witness :
  let d := db Scenario.a_minute_after_login in
  let n := now Scenario.a_minute_after_login in
  let row := refresh_row Scenario.config 1 Scenario.t0 1 in
  fst (verifyToken Scenario.config Scenario.issued REFRESH
         {| db := d; now := n; outages := [] |}) = Ok row /\
  exists w1,
    refreshAuth Scenario.config Scenario.issued
      {| db := d; now := n; outages := [false; false; true] |} = (Throw StoreError, w1) /\
    tokens (db w1) = [] /\
    forall c o, fst (refreshAuth Scenario.config Scenario.issued (later w1 c o)) =
                Throw Unauthenticated.
Proof.
  intros d n row.
  assert (Hv : fst (verifyToken Scenario.config Scenario.issued REFRESH
                      {| db := d; now := n; outages := [] |}) = Ok row)
    by (vm_compute; reflexivity).
  destruct (refreshAuth_loses_session_when_issuance_fails Scenario.config Scenario.issued
              d n [] Hv) as (w1 & Hrun & Htok & Hlost).
  split; [exact Hv | ].
  exists w1. split; [exact Hrun | split; [exact Htok | ]].
  apply Hlost. intros x [<- | []] _. reflexivity.
Defined.

Lemma resetPassword_fails_after_changing_password_witness :
  let d := db (Scenario.two_resets_pending []) in
  let n := now (Scenario.two_resets_pending []) in
  let T1 := Scenario.reset_token Scenario.t0 in
  fst (verifyToken Scenario.config T1 RESET_PASSWORD {| db := d; now := n; outages := [] |}) =
    Ok (Scenario.reset_row Scenario.t0 1) /\
  find (fun u => u_id u =? 1) (users d) = Some Scenario.alice /\
  exists w1,
    resetPassword Scenario.config T1 "newpass1"
      {| db := d; now := n; outages := [false; false; false; false; true] |} =
      (Throw ResetFailed, w1) /\
    users (db w1) =
      [apply_update (only_password (encryptPassword "newpass1")) Scenario.alice] /\
    tokens (db w1) = tokens d /\
    fst (verifyToken Scenario.config T1 RESET_PASSWORD (later w1 n [])) =
      Ok (Scenario.reset_row Scenario.t0 1).
Proof.
  intros d n T1.
  assert (Hv : fst (verifyToken Scenario.config T1 RESET_PASSWORD
                      {| db := d; now := n; outages := [] |}) =
               Ok (Scenario.reset_row Scenario.t0 1)) by (vm_compute; reflexivity).
  assert (Hu : find (fun u => u_id u =? t_user_id (Scenario.reset_row Scenario.t0 1))
                 (users d) = Some Scenario.alice) by reflexivity.
  destruct (resetPassword_fails_after_changing_password Scenario.config d n [] T1 "newpass1"
              Hv Hu) as (w1 & Hrun & Hus & Htok & Hagain).
  split; [exact Hv | split; [exact Hu | ]].
  exists w1. split; [exact Hrun | split; [exact Hus | split; [exact Htok | exact Hagain]]].
Defined.

Lemma verifyEmail_marks_owner_verified_witness :
  let w := later (snd (generateVerifyEmailToken Scenario.config 1 Scenario.after_login))
             (Scenario.t0 + 60000) [] in
  let tok := jwt_sign {| sub := 1; iat := 1720000000; exp := 1720000600;
                         type := VERIFY_EMAIL |} "top-secret" in
  outages w = [] /\
  (exists row, fst (verifyToken Scenario.config tok VERIFY_EMAIL w) = Ok row /\
               t_user_id row = 1) /\
  find (fun u => u_id u =? 1) (users (db w)) = Some Scenario.alice /\
  exists w1,
    verifyEmail Scenario.config tok w = (Ok tt, w1) /\
    users (db w1) = [apply_update (only_is_email_verified true) Scenario.alice] /\
    tokens (db w1) = [refresh_row Scenario.config 1 Scenario.t0 1].
Proof.
  intros w tok.
  assert (Hv : fst (verifyToken Scenario.config tok VERIFY_EMAIL w) =
               Ok {| t_id := 2; t_token := tok; t_type := VERIFY_EMAIL;
                     t_expires := Scenario.t0 + 400 + 600000; t_blacklisted := false;
                     t_created_at := Scenario.t0 + 400; t_user_id := 1 |})
    by (vm_compute; reflexivity).
  assert (Hu : find (fun u => u_id u =? 1) (users (db w)) = Some Scenario.alice)
    by reflexivity.
  destruct (verifyEmail_marks_owner_verified Scenario.config w tok eq_refl Hv Hu)
    as (w1 & Hrun & Hus & _ & Hrows).
  split; [reflexivity | split; [eexists; split; [exact Hv | reflexivity] | split; [exact Hu | ]]].
  exists w1. split; [exact Hrun | split; [exact Hus | ]].
  assert (Hw1 : w1 = snd (verifyEmail Scenario.config tok w)) by now rewrite Hrun.
  rewrite Hw1. vm_compute. reflexivity.
Defined.

Lemma verifyEmail_token_round_trip_witness :
  outages Scenario.fresh = [] /\
  find (fun u => u_id u =? 1) (users (db Scenario.fresh)) = Some Scenario.alice /\
  exists tok w1,
    generateVerifyEmailToken Scenario.config 1 Scenario.fresh = (Ok tok, w1) /\
    (exists w2,
        verifyEmail Scenario.config tok (later w1 (Scenario.t0 + 599999) []) = (Ok tt, w2) /\
        forall u, In u (users (db w2)) -> u_id u = 1 -> u_is_email_verified u = true) /\
    fst (verifyEmail Scenario.config tok (later w1 (Scenario.t0 + 600000) [])) =
      Throw VerificationFailed.
Proof.
  assert (Hu : find (fun u => u_id u =? 1) (users (db Scenario.fresh)) = Some Scenario.alice)
    by reflexivity.
  destruct (verifyEmail_token_round_trip Scenario.config Scenario.fresh 1 eq_refl Hu)
    as (tok & w1 & Hgen & Hbefore & Hafter).
  split; [reflexivity | split; [exact Hu | ]].
  exists tok, w1. split; [exact Hgen | split].
  - destruct (Hbefore (Scenario.t0 + 599999)) as (w2 & Hrun & Hflag & _);
      [vm_compute; reflexivity | ].
    exists w2. split; [exact Hrun | exact Hflag].
  - apply Hafter. vm_compute. discriminate.
Defined.

Lemma password_reset_round_trip_witness :
  outages Scenario.fresh = [] /\
  find (fun u => (u_email u =? "a@x.com")%string) (users (db Scenario.fresh)) =
    Some Scenario.alice /\
  exists tok w1,
    generateResetPasswordToken Scenario.config "a@x.com" Scenario.fresh = (Ok tok, w1) /\
    (exists w2,
        resetPassword Scenario.config tok "newpass1"
          (later w1 (Scenario.t0 + 540000) []) = (Ok tt, w2) /\
        fst (loginUserWithEmailAndPassword "a@x.com" "newpass1" w2) =
          Ok (exclude_password Scenario.alice)) /\
    fst (resetPassword Scenario.config tok "newpass1" (later w1 (Scenario.t0 + 600000) [])) =
      Throw ResetFailed.
Proof.
  assert (He : find (fun u => (u_email u =? "a@x.com")%string) (users (db Scenario.fresh)) =
               Some Scenario.alice) by reflexivity.
  assert (Hi : find (fun u => u_id u =? u_id Scenario.alice) (users (db Scenario.fresh)) =
               Some Scenario.alice) by reflexivity.
  destruct (password_reset_round_trip Scenario.config Scenario.fresh "a@x.com" "newpass1"
              eq_refl He Hi) as (tok & w1 & Hgen & Hbefore & Hafter).
  split; [reflexivity | split; [exact He | ]].
  exists tok, w1. split; [exact Hgen | split].
  - destruct (Hbefore (Scenario.t0 + 540000)) as (w2 & Hrun & Hlogin);
      [vm_compute; reflexivity | ].
    exists w2. split; [exact Hrun | ]. rewrite Hlogin. reflexivity.
  - apply Hafter. vm_compute. discriminate.
Defined.

Lemma refresh_token_round_trip_witness :
  outages Scenario.fresh = [] /\
  find (fun u => u_id u =? 1) (users (db Scenario.fresh)) = Some Scenario.alice /\
  exists w1,
    generateAuthTokens Scenario.config 1 Scenario.fresh =
      (Ok (minted_pair Scenario.config 1 Scenario.t0), w1) /\
    (exists w2,
        refreshAuth Scenario.config Scenario.issued (later w1 (Scenario.t0 + 86400000) []) =
        (Ok (minted_pair Scenario.config 1 (Scenario.t0 + 86400000)), w2)) /\
    fst (refreshAuth Scenario.config Scenario.issued
           (later w1 (Scenario.t0 + 30 * 86400000) [])) = Throw Unauthenticated.
Proof.
  destruct (refresh_token_round_trip Scenario.config Scenario.fresh 1
              (user := Scenario.alice) eq_refl eq_refl)
    as (w1 & Hgen & Hbefore & Hafter).
  split; [reflexivity | split; [reflexivity | ]].
  exists w1. split; [exact Hgen | split].
  - apply Hbefore. vm_compute. reflexivity.
  - apply Hafter. vm_compute. discriminate.
Defined.

Lemma createUser_then_login_witness :
  outages Scenario.fresh = [] /\
  createUser 2 "a@x.com" "secret123" None None Scenario.fresh =
    (Throw EmailTaken, Scenario.fresh) /\
  exists u w1,
    createUser 2 "b@x.com" "hunter22" (Some "Bob") None Scenario.fresh = (Ok u, w1) /\
    u_role u = USER /\ u_is_email_verified u = false /\
    users (db w1) = [Scenario.alice; u] /\
    loginUserWithEmailAndPassword "b@x.com" "hunter22" w1 = (Ok (exclude_password u), w1).
Proof.
  split; [reflexivity | split].
  - exact (createUser_then_login Scenario.fresh 2 "a@x.com" "secret123" None None eq_refl).
  - destruct (createUser_then_login Scenario.fresh 2 "b@x.com" "hunter22" (Some "Bob") None
                eq_refl) as (w1 & Hrun & Hus & _ & Hlogin).
    eexists. exists w1. split; [exact Hrun | ].
    split; [reflexivity | split; [reflexivity | split; [exact Hus | exact Hlogin]]].
Defined.

Lemma deleteUserById_cascades_witness :
  let w := Scenario.after_two_logins in
  outages w = [] /\
  deleteUserById 9 w = (Throw UserNotFound, w) /\
  exists w1,
    deleteUserById 1 w = (Ok Scenario.alice, w1) /\
    users (db w1) = [] /\
    tokens (db w1) = [] /\
    forall c o, fst (refreshAuth Scenario.config Scenario.issued (later w1 c o)) =
                Throw Unauthenticated.
Proof.
  intro w. split; [reflexivity | split].
  - exact (deleteUserById_cascades Scenario.config w 9 eq_refl).
  - destruct (deleteUserById_cascades Scenario.config w 1 eq_refl)
      as (w1 & Hrun & _ & _ & _ & Hrefresh).
    exists w1. split; [exact Hrun | ].
    assert (Hw1 : w1 = snd (deleteUserById 1 w)) by now rewrite Hrun.
    split; [rewrite Hw1; reflexivity | split; [rewrite Hw1; reflexivity | ]].
    intros c o.
    apply (Hrefresh Scenario.issued
             {| sub := 1; iat := 1720000000; exp := 1722592000; type := REFRESH |}).
    + vm_compute. reflexivity.
    + reflexivity.
Defined.

Lemma updateUserById_refusals_witness :
  let own := {| upd_email := Some "a@x.com"; upd_name := Some (Some "Alice A.");
                upd_password := None; upd_role := None; upd_is_email_verified := None |} in
  outages Scenario.fresh = [] /\
  find (fun u => u_id u =? 9) (users (db Scenario.fresh)) = None /\
  updateUserById 9 own Scenario.fresh = (Throw UserNotFound, Scenario.fresh) /\
  find (fun u => u_id u =? 1) (users (db Scenario.fresh)) = Some Scenario.alice /\
  updateUserById 1 own Scenario.fresh = (Throw EmailTaken, Scenario.fresh).
Proof.
  intro own.
  destruct (updateUserById_refusals Scenario.fresh 9 own eq_refl) as (Hunknown & _ & _).
  destruct (updateUserById_refusals Scenario.fresh 1 own eq_refl) as (_ & _ & Hown).
  split; [reflexivity | split; [reflexivity | split; [ | split; [reflexivity | ]]]].
  - apply Hunknown. reflexivity.
  - apply (Hown Scenario.alice); [reflexivity | reflexivity | discriminate].
Defined.

Lemma jwtVerify_outcomes_witness :
  let access_claims := {| sub := 1; iat := 1720000000; exp := 1720001800; type := ACCESS |} in
  let refresh_claims := {| sub := 1; iat := 1720000000; exp := 1722592000;
                           type := REFRESH |} in
  fst (jwtVerify refresh_claims Scenario.fresh) =
    Ok (DoneError (PlainError "Invalid token type")) /\
  fst (jwtVerify access_claims Scenario.fresh) =
    Ok (DoneUser {| au_id := 1; au_email := "a@x.com"; au_role := USER |}) /\
  fst (jwtVerify access_claims (Scenario.two_resets_pending [true])) =
    Ok (DoneError StoreError).
Proof.
  intros access_claims refresh_claims.
  destruct (jwtVerify_outcomes Scenario.fresh refresh_claims) as (Hother & _).
  destruct (jwtVerify_outcomes Scenario.fresh access_claims) as (_ & Haccess & _).
  destruct (jwtVerify_outcomes (Scenario.two_resets_pending [true]) access_claims)
    as (_ & _ & Hdown & _).
  split; [ | split].
  - rewrite Hother; [reflexivity | discriminate].
  - rewrite Haccess; reflexivity.
  - apply (Hdown eq_refl []). reflexivity.
Defined.

Lemma access_token_authenticates_witness :
  let w := later (snd (logout Scenario.issued Scenario.after_login)) (Scenario.t0 + 60000) [] in
  outages w = [] /\
  tokens (db w) = [] /\
  find (fun u => u_id u =? 1) (users (db w)) = Some Scenario.alice /\
  (exists p,
      jwt_verify (token (minted_access Scenario.config 1 Scenario.t0)) "top-secret" w =
        (Ok p, w) /\
      jwtVerify p w =
        (Ok (DoneUser {| au_id := 1; au_email := "a@x.com"; au_role := USER |}), w)) /\
  (exists p,
      jwt_verify Scenario.issued "top-secret" w = (Ok p, w) /\
      jwtVerify p w = (Ok (DoneError (PlainError "Invalid token type")), w)).
Proof.
  intro w.
  assert (Hu : find (fun u => u_id u =? 1) (users (db w)) = Some Scenario.alice)
    by reflexivity.
  destruct (access_token_authenticates Scenario.config w 1 Scenario.t0 eq_refl Hu)
    as (Haccess & Hrefresh).
  split; [reflexivity | split; [reflexivity | split; [exact Hu | split]]].
  - apply Haccess. vm_compute. reflexivity.
  - apply Hrefresh. vm_compute. reflexivity.
Defined.

Lemma verifyEmail_finds_the_owner_witness :
  let w := Scenario.all_pending [] in
  let E := Scenario.verify_email_token Scenario.t0 in
  outages w = [] /\
  fst (verifyToken Scenario.config E VERIFY_EMAIL w) = Ok (Scenario.verify_email_row Scenario.t0 3) /\
  find (fun u => u_id u =? 1) (users (db w)) = Some Scenario.alice /\
  fst (verifyEmail Scenario.config E w) = Ok tt.
Proof.
  intros w E.
  assert (Hv : fst (verifyToken Scenario.config E VERIFY_EMAIL w) =
               Ok (Scenario.verify_email_row Scenario.t0 3)) by (vm_compute; reflexivity).
  split; [reflexivity | split; [exact Hv | split; [reflexivity | ]]].
  exact (proj2 (verifyEmail_finds_the_owner Scenario.config w E eq_refl Hv)).
Defined.

Lemma verifyEmail_fails_after_purging_witness :
  let w := Scenario.all_pending in
  let E := Scenario.verify_email_token Scenario.t0 in
  let kept := [refresh_row Scenario.config 1 Scenario.t0 1; Scenario.reset_row Scenario.t0 2] in
  fst (verifyToken Scenario.config E VERIFY_EMAIL (w [])) =
    Ok (Scenario.verify_email_row Scenario.t0 3) /\
  (forall sched, In sched [[false; false; true]; [false; false; false; true]] ->
     exists w1,
       verifyEmail Scenario.config E (w sched) = (Throw VerificationFailed, w1) /\
       users (db w1) = [Scenario.alice] /\
       tokens (db w1) = kept /\
       fst (verifyEmail Scenario.config E (later w1 (Scenario.t0 + 120000) [])) =
         Throw VerificationFailed).
Proof.
  intros w E kept.
  assert (Hv : fst (verifyToken Scenario.config E VERIFY_EMAIL (w [])) =
               Ok (Scenario.verify_email_row Scenario.t0 3)) by (vm_compute; reflexivity).
  split; [exact Hv | ].
  intros sched Hin.
  assert (Hs : sched = [false; false; true] \/ sched = [false; false; false; true]).
  { simpl in Hin. decompose [or] Hin; try contradiction; subst sched; auto. }
  destruct (verifyEmail_fails_after_purging Scenario.config (db (w [])) (Scenario.t0 + 60000)
              (o := []) E Hv Hs) as (w1 & Hrun & Hus & Hts & Hlater).
  exists w1. split; [exact Hrun | split; [exact Hus | split; [ | apply Hlater]]].
  rewrite Hts. vm_compute. reflexivity.
Defined.

Lemma password_rule_witness :
  Validation.password "secret123" = Validation.Value "secret123" /\
  Validation.password "abc1" =
    Validation.HelperError "password must be at least 8 characters" /\
  Validation.password "12345678" =
    Validation.HelperError "password must contain at least 1 letter and 1 number".
Proof.
  destruct (password_rule "secret123") as (Hiff & _ & _).
  destruct (password_rule "abc1") as (_ & _ & Hshort).
  split; [ | split].
  - apply Hiff. split; [simpl; lia | split].
    + exists "1"%char. split; [simpl; tauto | reflexivity].
    + exists "s"%char. split; [simpl; tauto | reflexivity].
  - apply Hshort. simpl. lia.
  - reflexivity.
Defined.
